(** * The VVM instruction-set generator (src/VVM/gen_vvm.py)

    A shallow embedding of the opcode table, the opcode encoder, the trait
    table, the line reflow utility and the generated dispatch engines and
    disassembler, with the properties of the specification stated over them.

    Python strings are [string]; Python integers are [Z]; a Python dict with
    string keys is a [gmap string _]; a function that can raise returns
    [option]. *)

From stdpp Require Import gmap strings list.
From Stdlib Require Import ZArith Lia Ascii.
From Stdlib Require String DecimalString.

Open Scope Z_scope.

(** ** Python string operations *)

Module Py.

Definition len (s : string) : Z := Z.of_nat (String.length s).

(** Normalisation of a slice bound: a negative bound counts from the end,
    and the result is clamped to [0, len]. *)
Definition norm (n i : Z) : Z :=
  if i <? 0 then Z.max 0 (i + n) else Z.min i n.

(** [s[a:b]] *)
Definition slice (s : string) (a b : Z) : string :=
  let n := len s in
  let a' := norm n a in
  let b' := norm n b in
  String.substring (Z.to_nat a') (Z.to_nat (b' - a')) s.

(** [s[a:]] *)
Definition slice_from (s : string) (a : Z) : string := slice s a (len s).

(** [s[i]]; IndexError is [None]. *)
Definition get (s : string) (i : Z) : option ascii :=
  let n := len s in
  let j := if i <? 0 then i + n else i in
  if (j <? 0) || (n <=? j) then None else String.get (Z.to_nat j) s.

(** Index of the first [c] in the list, counting from [k]; -1 if none. *)
Fixpoint find_list (c : ascii) (l : list ascii) (k : Z) : Z :=
  match l with
  | [] => -1
  | x :: l' => if Ascii.eqb x c then k else find_list c l' (k + 1)
  end.

(** Index of the last [c] in the list, counting from [k]; -1 if none. *)
Fixpoint rfind_list (c : ascii) (l : list ascii) (k : Z) : Z :=
  match l with
  | [] => -1
  | x :: l' =>
      let r := rfind_list c l' (k + 1) in
      if r =? -1 then (if Ascii.eqb x c then k else -1) else r
  end.

(** The characters of [s[a:b]] for normalised bounds. *)
Definition window (s : string) (a b : Z) : list ascii :=
  let n := len s in
  let a' := norm n a in
  let b' := norm n b in
  take (Z.to_nat (b' - a')) (drop (Z.to_nat a') (String.list_ascii_of_string s)).

(** [s.find(c, a, b)] for a one-character [c]. *)
Definition find (s : string) (c : ascii) (a b : Z) : Z :=
  find_list c (window s a b) (norm (len s) a).

(** [s.rfind(c, a, b)] for a one-character [c]. *)
Definition rfind (s : string) (c : ascii) (a b : Z) : Z :=
  rfind_list c (window s a b) (norm (len s) a).

(** [s.find(c)] *)
Definition find0 (s : string) (c : ascii) : Z := find s c 0 (len s).

(** [s.count(c)] for a one-character [c]. *)
Fixpoint count (s : string) (c : ascii) : Z :=
  match s with
  | EmptyString => 0
  | String x s' => (if Ascii.eqb x c then 1 else 0) + count s' c
  end.

Fixpoint rev_acc (s acc : string) : string :=
  match s with
  | EmptyString => acc
  | String c s' => rev_acc s' (String c acc)
  end.

(** [s.split(sep)] for a non-empty separator.  [skip] counts the characters
    of a separator just matched that are still to be dropped; [acc] is the
    current piece, reversed. *)
Fixpoint split_aux (sep s : string) (skip : nat) (acc : string)
  : list string :=
  match s with
  | EmptyString => [rev_acc acc ""]
  | String c s' =>
      match skip with
      | S k => split_aux sep s' k acc
      | O =>
          if String.prefix sep s
          then rev_acc acc "" :: split_aux sep s' (String.length sep - 1) ""
          else split_aux sep s' O (String c acc)
      end
  end.

Definition split (s sep : string) : list string := split_aux sep s O "".

(** [sep.join(l)] *)
Fixpoint join (sep : string) (l : list string) : string :=
  match l with
  | [] => ""
  | [x] => x
  | x :: l' => x +:+ sep +:+ join sep l'
  end.

(** [" " * n] *)
Definition spaces (n : Z) : string :=
  String.string_of_list_ascii (replicate (Z.to_nat n) " "%char).

(** [pattern % args] for patterns whose only conversions are [%s].  The
    source applies every pattern to exactly as many arguments as it has
    conversions; a conversion left without an argument is kept as it is. *)
Fixpoint fmt (pattern : string) (args : list string) : string :=
  match pattern with
  | String "%"%char (String "s"%char rest) =>
      match args with
      | a :: args' => a +:+ fmt rest args'
      | [] => "%s" +:+ fmt rest []
      end
  | String c rest => String c (fmt rest args)
  | EmptyString => ""
  end.

(** ['%d' % n] *)
Definition str_of_Z (n : Z) : string :=
  match n with
  | Z0 => "0"
  | Zpos p => DecimalString.NilEmpty.string_of_uint (Pos.to_uint p)
  | Zneg p => "-" +:+ DecimalString.NilEmpty.string_of_uint (Pos.to_uint p)
  end.

(** [range(n)] *)
Definition range (n : Z) : list Z := Z.of_nat <$> seq 0 (Z.to_nat n).

End Py.

(** ** The type registry *)

(** Empirical name, VVM tag, C++ name. *)
Definition types : list (string * string * string) :=
  [ ("Int64",     "i64", "int64_t");
    ("Float64",   "f64", "double");
    ("Bool",      "b8",  "bool");
    ("String",    "S",   "std::string");
    ("Char",      "c8",  "char");
    ("Timestamp", "T",   "Timestamp");
    ("Timedelta", "D",   "Timedelta");
    ("Time",      "TI",  "Time");
    ("Date",      "DA",  "Date") ].

Definition integer_types : list string := ["Int64"].
Definition float_types : list string := ["Float64"].
Definition bool_types : list string := ["Bool"].
Definition string_types : list string := ["String"].
Definition char_types : list string := ["Char"].
Definition timestamp_types : list string := ["Timestamp"].
Definition timedelta_types : list string := ["Timedelta"].
Definition time_types : list string := ["Time"].
Definition date_types : list string := ["Date"].
Definition arithmetic_types : list string := integer_types ++ float_types.
Definition time_ish_types : list string :=
  timestamp_types ++ time_types ++ date_types.
Definition all_types : list string :=
  arithmetic_types ++ bool_types ++ string_types ++ char_types ++
  time_ish_types ++ timedelta_types.

(** A dict comprehension over a list: later keys override earlier ones. *)
Definition dict_of {V} (l : list (string * V)) : gmap string V :=
  foldl (fun d kv => <[kv.1 := kv.2]> d) ∅ l.

Definition _vvm_types : gmap string string :=
  dict_of ((fun t => (t.1.1, t.1.2)) <$> types).
Definition _cpp_types : gmap string string :=
  dict_of ((fun t => (t.1.1, t.2)) <$> types).

(** ** The opcode table *)

(** Empirical name, VVM name, Empirical type, opcode arity. *)
Record opcode := Op {
  o0 : string;   (* surface (Empirical) name, o[0] *)
  o1 : string;   (* canonical (VVM) name, o[1] *)
  o2 : string;   (* type signature, o[2] *)
  o3 : Z         (* operand count, o[3] *)
}.

Definition binary_patterns : list string :=
  ["(%s,%s)->%s"; "(%s,[%s])->[%s]"; "([%s],%s)->[%s]"; "([%s],[%s])->[%s]"].
Definition unary_patterns : list string := ["%s->%s"; "[%s]->[%s]"].

Definition _make_opcodes : list opcode :=
  [ Op "" "halt" "" 0;
    Op "" "alloc" "" 2;
    Op "" "write" "" 1;
    Op "" "save" "" 1;
    Op "" "member" "" 3;
    Op "" "assign" "" 3;
    Op "" "append" "" 3;
    Op "" "repr" "" 3;
    Op "" "load" "" 3;
    Op "" "store" "" 4;
    Op "" "where" "" 4;
    Op "" "br" "" 1;
    Op "" "btrue" "" 2;
    Op "" "bfalse" "" 2;
    Op "" "ret" "" 1;
    Op "" "call" "" 2;
    Op "" "isort" "" 3;
    Op "" "multidx" "" 4;
    Op "" "group" "" 8;
    Op "" "eqmatch" "" 5;
    Op "" "asofmatch" "" 7;
    Op "" "asofnear" "" 7;
    Op "" "asofwithin" "" 8;
    Op "" "eqasofmatch" "" 10;
    Op "" "eqasofnear" "" 10;
    Op "" "eqasofwithin" "" 11;
    Op "" "take" "" 4;
    Op "" "concat" "" 4 ]
  ++ [ Op "now" "now" "Timestamp" 1 ]
  (* casting operators *)
  ++ ('(tgts, srcs) ←
        [ (string_types, all_types);
          (integer_types, all_types);
          (float_types, float_types ++ integer_types ++ string_types);
          (char_types, char_types ++ integer_types);
          (bool_types, bool_types);
          (timestamp_types, time_ish_types ++ integer_types ++ string_types);
          (timedelta_types, timedelta_types ++ integer_types ++ string_types);
          (time_types, timestamp_types ++ time_types ++
                       integer_types ++ string_types);
          (date_types, timestamp_types ++ date_types ++
                       integer_types ++ string_types) ];
      tgt ← tgts; src ← srcs; p ← ["%s->%s"; "[%s]->[%s]"];
      [ Op tgt "cast" (Py.fmt p [src; tgt]) 2 ])
  (* print function *)
  ++ (p ← ["%s->()"; "[%s]->()"]; t ← all_types;
      [ Op "print" "print" (Py.fmt p [t]) 2 ])
  (* binary operators -- boolean *)
  ++ ('(k, v) ← [("or", "or"); ("and", "and")];
      p ← binary_patterns; t ← bool_types;
      [ Op v k (Py.fmt p [t; t; t]) 3 ])
  (* binary operators -- integer *)
  ++ ('(k, v) ← [("bitand", "&"); ("bitor", "|"); ("lshift", "<<");
                 ("rshift", ">>"); ("mod", "%")];
      p ← binary_patterns; t ← integer_types;
      [ Op v k (Py.fmt p [t; t; t]) 3 ])
  (* binary operators -- arithmetic *)
  ++ ('(k, v) ← [("add", "+"); ("sub", "-"); ("mul", "*"); ("div", "/")];
      p ← binary_patterns; t ← arithmetic_types;
      [ Op v k (Py.fmt p [t; t; t]) 3 ])
  (* binary operators -- comparison *)
  ++ ('(k, v) ← [("lt", "<"); ("gt", ">"); ("eq", "=="); ("ne", "!=");
                 ("lte", "<="); ("gte", ">=")];
      p ← ["(%s,%s)->Bool"; "(%s,[%s])->[Bool]";
           "([%s],%s)->[Bool]"; "([%s],[%s])->[Bool]"];
      t ← all_types;
      [ Op v k (Py.fmt p [t; t]) 3 ])
  (* unary operators -- boolean *)
  ++ ('(k, v) ← [("not", "not")]; p ← unary_patterns; t ← bool_types;
      [ Op v k (Py.fmt p [t; t]) 2 ])
  (* unary operators -- arithmetic *)
  ++ ('(k, v) ← [("neg", "-"); ("pos", "+")];
      p ← unary_patterns; t ← arithmetic_types;
      [ Op v k (Py.fmt p [t; t]) 2 ])
  (* unary operators -- floating *)
  ++ ('(k, v) ← [("sin", "sin"); ("cos", "cos"); ("tan", "tan");
                 ("asin", "asin"); ("acos", "acos"); ("atan", "atan");
                 ("sinh", "sinh"); ("cosh", "cosh"); ("tanh", "tanh");
                 ("asinh", "asinh"); ("acosh", "acosh"); ("atanh", "atanh")];
      p ← unary_patterns; t ← float_types;
      [ Op v k (Py.fmt p [t; t]) 2 ])
  (* reduce aggregators *)
  ++ ('(k, v) ← [("sum", "sum"); ("prod", "prod")]; t ← arithmetic_types;
      [ Op v k (Py.fmt "[%s]->%s" [t; t]) 2 ])
  (* string concatenation *)
  ++ ('(k, v) ← [("add", "+")]; p ← binary_patterns; t ← string_types;
      [ Op v k (Py.fmt p [t; t; t]) 3 ])
  ++ ('(k, v) ← [("sum", "sum")]; t ← string_types;
      [ Op v k (Py.fmt "[%s]->%s" [t; t]) 2 ])
  (* time arithmetic *)
  ++ ('(k, v) ← [("sub", "-")];
      p ← ["(%s,%s)->Timedelta"; "(%s,[%s])->[Timedelta]";
           "([%s],%s)->[Timedelta]"; "([%s],[%s])->[Timedelta]"];
      t ← time_ish_types;
      [ Op v k (Py.fmt p [t; t]) 3 ])
  ++ ('(k, v) ← [("add", "+"); ("sub", "-"); ("mul", "*"); ("div", "/");
                 ("bar", "bar")];
      p ← binary_patterns;
      t1 ← time_ish_types ++ timedelta_types; t2 ← timedelta_types;
      [ Op v k (Py.fmt p [t1; t2; t1]) 3 ])
  ++ ('(k, v) ← [("add", "+"); ("mul", "*")];
      p ← binary_patterns;
      t1 ← timedelta_types; t2 ← time_ish_types;
      [ Op v k (Py.fmt p [t1; t2; t2]) 3 ])
  ++ ('(k, v) ← [("add", "+")];
      p ← ["(%s,%s)->Timestamp"; "(%s,[%s])->[Timestamp]";
           "([%s],%s)->[Timestamp]"; "([%s],[%s])->[Timestamp]"];
      t1 ← date_types; t2 ← time_types;
      [ Op v k (Py.fmt p [t1; t2]) 3 ])
  (* timedelta literals *)
  ++ (u ← ["ns"; "us"; "ms"; "s"; "m"; "h"; "d"];
      [ Op ("suffix" +:+ u) ("unit_" +:+ u) "Int64->Timedelta" 2 ])
  (* wrappers *)
  ++ ('(k, v) ← [("len", "len"); ("count", "count")]; t ← all_types;
      [ Op v k (Py.fmt "[%s]->Int64" [t]) 2 ])
  ++ ('(k, v) ← [("range", "range")]; t ← integer_types;
      [ Op v k (Py.fmt "%s->[%s]" [t; t]) 2 ])
  (* manually defined operators -- scalar and vector *)
  ++ ('(k, v) ← [("del", 1)]; p ← ["%s"; "[%s]"]; t ← all_types;
      [ Op "" k (Py.fmt p [t]) v ])
  (* manually defined operators -- vector only *)
  ++ ('(k, v) ← [("idx", 3)]; t ← all_types;
      [ Op "" k (Py.fmt "([%s],Int64)->%s" [t; t]) v ]).

Definition opcodes : list opcode := Eval vm_compute in _make_opcodes.

(** ** The opcode encoder *)

(** Convert Empirical's type to VVM's type.  The recursion on [t[1:-1]] is
    bounded by the length of [t]. *)
Fixpoint get_vvm_type_rec (n : nat) (t : string) (append : string)
  : option string :=
  c0 ← Py.get t 0;
  cl ← Py.get t (-1);
  if Ascii.eqb c0 "["%char && Ascii.eqb cl "]"%char then
    match n with
    | O => None
    | S n' => get_vvm_type_rec n' (Py.slice t 1 (-1)) "v"
    end
  else
    tag ← _vvm_types !! t;
    Some (tag +:+ append).

Definition get_vvm_type (t : string) (append : string) : option string :=
  get_vvm_type_rec (String.length t) t append.

(** [types[i]] on a list; IndexError is [None]. *)
Definition list_get {A} (l : list A) (i : nat) : option A := l !! i.

(** Generate op code for a function name and type signature. *)
Definition get_opcode (func_name type_sig : string) : option string :=
  if Py.len type_sig =? 0 then Some func_name else
  let types := Py.split type_sig "->" in
  params ← list_get types 0;
  c0 ← Py.get params 0;
  cl ← Py.get params (-1);
  suffix ←
    (if Ascii.eqb c0 "("%char && Ascii.eqb cl ")"%char then
       let ps := Py.split (Py.slice params 1 (-1)) "," in
       foldl (fun acc p => s ← acc; v ← get_vvm_type p "s";
                           Some (s +:+ "_" +:+ v))
             (Some "") ps
     else
       v ← get_vvm_type params "s"; Some ("_" +:+ v));
  suffix ←
    (if String.eqb func_name "cast" then
       t1 ← list_get types 1; v ← get_vvm_type t1 "s";
       Some (suffix +:+ "_" +:+ v)
     else Some suffix);
  Some (func_name +:+ suffix).

(** Generate C++ function call for name and type signature. *)
Fixpoint get_cpp_type_rec (n : nat) (t : string) (append : string)
  : option (string * string) :=
  c0 ← Py.get t 0;
  cl ← Py.get t (-1);
  if Ascii.eqb c0 "["%char && Ascii.eqb cl "]"%char then
    match n with
    | O => None
    | S n' => get_cpp_type_rec n' (Py.slice t 1 (-1)) "v"
    end
  else
    typestr ← (if negb (String.eqb t "()") then _cpp_types !! t
               else Some "int64_t");
    Some (append, typestr).

Definition get_cpp_type (t : string) (append : string)
  : option (string * string) :=
  get_cpp_type_rec (String.length t) t append.

Definition get_cpp_func (func_name type_sig : string) : option string :=
  if Py.len type_sig =? 0 then Some func_name else
  let halves := Py.split type_sig "->" in
  params ← list_get halves 0;
  c0 ← Py.get params 0;
  cl ← Py.get params (-1);
  '(suffix, template) ←
    (if Ascii.eqb c0 "("%char && Ascii.eqb cl ")"%char then
       let ps := Py.split (Py.slice params 1 (-1)) "," in
       results ← mapM (fun p => get_cpp_type p "s") ps;
       Some (Py.join "" (fst <$> results), Py.join ", " (snd <$> results))
     else get_cpp_type params "s");
  template ←
    (if Z.of_nat (List.length halves) =? 2 then
       t1 ← list_get halves 1; r ← get_cpp_type t1 "s";
       Some (template +:+ ", " +:+ r.2)
     else Some template);
  Some (func_name +:+ "_" +:+ suffix +:+ "<" +:+ template +:+ ">").

(** ** Line reflow *)

Definition TABSIZE : Z := 2.
Definition MAX_COL : Z := 80.

Definition space : ascii := " "%char.
Definition dquote : ascii := "034"%char.
Definition lbrace : ascii := "{"%char.
Definition lparen : ascii := "("%char.

(** The local variables of the loop of [reflow_lines]. *)
Record reflow_state := Reflow {
  lines : list string;
  cur : string;
  size : Z;
  padding : string
}.

(** The break index [i] computed at the top of the loop body. *)
Definition break_candidate (cur : string) (size : Z) : Z :=
  let i := Py.rfind cur space 0 size in
  if i =? -1 then Py.find0 cur space else i.

Definition break_index (cur : string) (size : Z) : Z :=
  let i := break_candidate cur size in
  (* XXX make sure we aren't in a quotation *)
  if Py.count (Py.slice cur 0 i) dquote mod 2 =? 1
  then Py.rfind cur dquote 0 i - 1
  else i.

(** One execution of the body of the [while] loop. *)
Definition reflow_step (st : reflow_state) : reflow_state :=
  let i := break_index (cur st) (size st) in
  let lines' := lines st ++ [padding st +:+ Py.slice (cur st) 0 i] in
  let '(size', padding') :=
    if Z.of_nat (List.length lines') =? 1 then
      (* find new size based on brace *)
      let j := Py.find (cur st) lbrace 0 i in
      if 0 <=? j then
        let j := j + 2 in (size st - j, Py.spaces j)
      else
        let j := Py.find (cur st) lparen 0 i in
        if 0 <=? j then
          let j := j + 1 in (size st - j, Py.spaces j)
        else (size st, padding st)
    else (size st, padding st) in
  Reflow lines' (Py.slice_from (cur st) (i + 1)) size' padding'.

(** The [while ... else] loop; [None] when the fuel runs out before the loop
    condition fails. *)
Fixpoint reflow_loop (fuel : nat) (st : reflow_state) : option (list string) :=
  if size st <? Py.len (cur st) then
    match fuel with
    | O => None
    | S fuel' => reflow_loop fuel' (reflow_step st)
    end
  else Some (lines st ++ [padding st +:+ cur st]).

(** Reflow the line [s] indented [depth] tabs. *)
Definition reflow_lines (fuel : nat) (s : string) (depth : Z)
  : option (list string) :=
  let size := MAX_COL - depth * TABSIZE in
  if Py.len s <? size then Some [s]
  else reflow_loop fuel (Reflow [] s size "").

(** A break taken at a space found below the width, that the quotation
    check leaves at a non-negative index. *)
Definition break_in_budget (st : reflow_state) : bool :=
  negb (Py.rfind (cur st) space 0 (size st) =? -1) &&
  (0 <=? break_index (cur st) (size st)).

(** Every break of the run of the loop from [st] is such a break. *)
Fixpoint breaks_in_budget (fuel : nat) (st : reflow_state) : bool :=
  if size st <? Py.len (cur st) then
    match fuel with
    | O => true
    | S fuel' => break_in_budget st && breaks_in_budget fuel' (reflow_step st)
    end
  else true.

Definition newline : string := String "010"%char "".

(** [HeaderWriter.emit]: the lines written to the file for one call. *)
Definition emit (fuel : nat) (s : string) (depth : Z) : option (list string) :=
  match reflow_lines fuel s depth with
  | Some ls =>
      Some (List.map (fun line => Py.spaces (TABSIZE * depth) +:+ line +:+ newline)
                     ls)
  | None => None
  end.

(** The text a writer produces from its sequence of [emit] calls. *)
Definition written (fuel : nat) (calls : list (string * Z))
  : option (list string) :=
  (fun ls => List.concat ls) <$> mapM (fun c => emit fuel c.1 c.2) calls.

(** ** Function traits (BuiltinsWriter) *)

Module Traits.
Definition none : Z := 0.
Definition pure : Z := 1.
Definition transform : Z := 2.
Definition linear : Z := 4.
Definition autostream : Z := 8.
Definition all_traits : Z := Z.lor (Z.lor pure transform) linear.
Definition io_traits : Z := Z.lor transform linear.  (* input/output *)
Definition ca_traits : Z := Z.lor pure linear.       (* change array *)
Definition ra_traits : Z := Z.lor pure transform.    (* random access *)

(** The dict [d] of the loop body. *)
Definition d : gmap string Z :=
  dict_of [ ("load", autostream);
            ("store", none);
            ("print", none);
            ("unique", ca_traits);
            ("idx", ra_traits);
            ("multidx", ra_traits);
            ("sort", ra_traits);
            ("range", Z.lor all_traits autostream);
            ("now", io_traits) ].

(** The value of [traits] after [traits = all_traits; if name in d:
    traits = d[name]]. *)
Definition traits_of (name : string) : Z :=
  match d !! name with
  | Some t => t
  | None => all_traits
  end.

(** The opcodes for which [BuiltinsWriter] stores a symbol, each with the
    traits it is stored with: the lookup key is [o[0]]. *)
Definition builtins : list (opcode * Z) :=
  o ← opcodes;
  if negb (Py.len (o0 o) =? 0) then [(o, traits_of (o0 o))] else [].
End Traits.

(** ** The generated C++ of the dispatch engines and of the disassembler *)

(** The statements the generators emit in an opcode handler. *)
Inductive cstmt :=
| SaveIp                                   (* p = ip; *)
| Advance (n : Z)                          (* ip += n; *)
| Invoke (name : string) (operands : list Z) (with_code : bool)
                                           (* name(code[p + 1], ..., code); *)
| Print (oc : string) (operands : list Z) (block : option Z)
                                           (* oss << "oc" << ... << std::endl; *)
| SkipBlock (k : Z)                        (* ip += (code[p + k] >> 2); *)
| Return                                   (* return; *)
| GotoNext                                 (* goto *opcode_labels[code[ip]]; *)
| Break.                                   (* break; *)

(** A labelled handler: [oc:] or [case opcodes::oc:] and its statements. *)
Abbreviation block := (string * list cstmt)%type.

Definition quoted (s : string) : string :=
  String dquote "" +:+ s +:+ String dquote "".

(** The text of a statement.  [ip] is the name of the instruction pointer
    ([ip_] in the engines, [ip] in the disassembler) and [ret] the text of the
    return statement. *)
Definition render (ip ret : string) (st : cstmt) : string :=
  match st with
  | SaveIp => "p = " +:+ ip +:+ ";"
  | Advance n => ip +:+ " += " +:+ Py.str_of_Z n +:+ ";"
  | Invoke name operands with_code =>
      let args := (fun k => "code[p + " +:+ Py.str_of_Z k +:+ "]") <$> operands in
      let args := args ++ (if with_code then ["code"] else []) in
      name +:+ "(" +:+ Py.join ", " args +:+ ");"
  | Print oc operands blk =>
      let s := ["oss"; quoted oc] in
      let s := s ++ ((fun k => quoted " " +:+ " << decode_operand(code[p + "
                                 +:+ Py.str_of_Z k +:+ "])") <$> operands) in
      let s := s ++ match blk with
                    | Some k => ["dis_code(code, ip, (code[p + "
                                   +:+ Py.str_of_Z k +:+ "] >> 2))"]
                    | None => []
                    end in
      let s := s ++ ["std::endl;"] in
      Py.join " << " s
  | SkipBlock k => ip +:+ " += (code[p + " +:+ Py.str_of_Z k +:+ "] >> 2);"
  | Return => ret
  | GotoNext => "goto *opcode_labels[code[" +:+ ip +:+ "]];"
  | Break => "break;"
  end.

(** The operand indices [i+1 for i in range(o[3])]. *)
Definition operand_offsets (o : opcode) : list Z :=
  (fun i => i + 1) <$> Py.range (o3 o).

(** The body of the loop [for o in opcodes] of [DispatchWriter.run]; [next] is
    the last statement, [goto ...] in the first engine and [break] in the
    second. *)
Definition dispatch_handler (next : cstmt) (o : opcode) : option block :=
  oc ← get_opcode (o1 o) (o2 o);
  if String.eqb oc "halt" then Some (oc, [Return])
  else
    name ← get_cpp_func (o1 o) (o2 o);
    Some (oc, [ SaveIp;
                Advance (o3 o + 1);
                Invoke name (operand_offsets o)
                       (bool_decide (oc ∈ ["ret"; "call"]));
                next ]).

(** The body of the loop [for o in opcodes] of [DisassemblerWriter.run]. *)
Definition disassemble_handler (next : cstmt) (o : opcode) : option block :=
  oc ← get_opcode (o1 o) (o2 o);
  if String.eqb oc "halt" then Some (oc, [Return])
  else
    let is_call := String.eqb oc "call" in
    Some (oc, [ SaveIp;
                Advance (o3 o + 1);
                Print oc (operand_offsets o)
                      (if is_call then Some (o3 o) else None) ]
              ++ (if is_call then [SkipBlock (o3 o)] else [])
              ++ [next]).

(** [get_opcode(o[1], o[2]) for o in opcodes]: the enumerators of
    [enum class opcodes] (OpcodesWriter) and the entries of [opcode_labels]. *)
Definition opcode_ids (ops : list opcode) : option (list string) :=
  mapM (fun o => get_opcode (o1 o) (o2 o)) ops.

Definition label_blocks (ops : list opcode) : option (list block) :=
  mapM (dispatch_handler GotoNext) ops.
Definition switch_blocks (ops : list opcode) : option (list block) :=
  mapM (dispatch_handler Break) ops.
Definition dis_label_blocks (ops : list opcode) : option (list block) :=
  mapM (disassemble_handler GotoNext) ops.
Definition dis_switch_blocks (ops : list opcode) : option (list block) :=
  mapM (disassemble_handler Break) ops.

(** The [emit] calls of a handler: its label at depth [d], its statements at
    depth [d + 1]. *)
Definition emit_block (ip ret : string) (prefix : string) (d : Z) (b : block)
  : list (string * Z) :=
  (prefix +:+ b.1 +:+ ":", d) :: ((fun st => (render ip ret st, d + 1)) <$> b.2).

(** The [emit] calls of [DispatchWriter.run]. *)
Definition DispatchWriter_run : option (list (string * Z)) :=
  ids ← opcode_ids opcodes;
  lbl ← label_blocks opcodes;
  sw ← switch_blocks opcodes;
  let opcode_labels := Py.join ", " ((fun i => "&&" +:+ i) <$> ids) in
  Some (
    [ ("#ifndef _MSC_VER", 0);
      ("void dispatch(const instructions_t& code) {", 0);
      ("static void* opcode_labels[] = { " +:+ opcode_labels +:+ " };", 1);
      ("", 0);
      ("size_t p;", 1);
      ("ip_ = 0;", 1);
      ("goto *opcode_labels[code[ip_]];", 1);
      ("", 0) ]
    ++ mjoin (emit_block "ip_" "return;" "" 1 <$> lbl)
    ++ [ ("}", 0);
         ("#else  // _MSC_VER", 0);
         ("void dispatch(const instructions_t& code) {", 0);
         ("size_t p;", 1);
         ("ip_ = 0;", 1);
         ("while (true) {", 1);
         ("switch (opcodes(code[ip_])) {", 2) ]
    ++ mjoin (emit_block "ip_" "return;" "case opcodes::" 3 <$> sw)
    ++ [ ("}", 2);
         ("}", 1);
         ("}", 0);
         ("#endif  // _MSC_VER", 0) ]).

(** ** Execution of the generated code *)

Module Machine.

(** [size_t] arithmetic. *)
Definition wrap (x : Z) : Z := x mod 2 ^ 64.

(** [code[i]]; reading outside the vector is undefined ([None]). *)
Definition fetch (code : list Z) (i : Z) : option Z :=
  if i <? 0 then None else code !! Z.to_nat i.

(** The instruction pointer, the local [p], and the state owned by the
    external operations. *)
Record regs (S : Type) := Regs { ip : Z; p : Z; store : S }.
Arguments Regs {S}.
Arguments ip {S}.
Arguments p {S}.
Arguments store {S}.

(** What a statement does to the control flow. *)
Inductive flow (S : Type) :=
| Continue (r : regs S)   (* fall to the next statement *)
| Dispatch (r : regs S)   (* goto / break: decode the next opcode *)
| Finish (r : regs S)     (* return *)
| Throw                   (* an external operation raised *)
| Undefined.              (* a read outside the stream *)
Arguments Continue {S}.
Arguments Dispatch {S}.
Arguments Finish {S}.
Arguments Throw {S}.
Arguments Undefined {S}.

(** The result of running an engine, with the values the instruction
    pointer had each time an opcode was decoded and, when the engine
    returns, the value it is left with. *)
Inductive result :=
| Halted (trace : list Z) (final_ip : Z)
| Raised (trace : list Z)
| OutOfFuel (trace : list Z)
| UndefinedBehaviour.

Section Exec.
Context {S : Type}.
(** An external operation, called by name with its operand words, with
    the stream when the handler passes it, can read and set the
    instruction pointer (a member of the interpreter) and its own state;
    [None] is a raised exception. *)
Variable ext :
  string → list Z → option (list Z) → Z → S → option (Z * S).
Variable code : list Z.

(** The reads of [dis_code(code, ip, n)]: [code[ip] .. code[end-1]] for
    [end = ip + n] in [size_t]; nothing is read when [end <= ip]. *)
Definition dis_code_defined (ip n : Z) : bool :=
  let e := wrap (ip + n) in
  (e <=? ip) || (e <=? Z.of_nat (List.length code)).

Definition exec_stmt (st : cstmt) (r : regs S) : flow S :=
  match st with
  | SaveIp => Continue (Regs (ip r) (ip r) (store r))
  | Advance n => Continue (Regs (wrap (ip r + n)) (p r) (store r))
  | Invoke name operands with_code =>
      match mapM (fun k => fetch code (p r + k)) operands with
      | None => Undefined
      | Some args =>
          match ext name args (if with_code then Some code else None)
                    (ip r) (store r) with
          | None => Throw
          | Some (ip', s') => Continue (Regs ip' (p r) s')
          end
      end
  | Print oc operands blk =>
      match mapM (fun k => fetch code (p r + k)) operands with
      | None => Undefined
      | Some _ =>
          match blk with
          | None => Continue r
          | Some k =>
              match fetch code (p r + k) with
              | None => Undefined
              | Some w =>
                  if dis_code_defined (ip r) (Z.shiftr w 2)
                  then Continue r else Undefined
              end
          end
      end
  | SkipBlock k =>
      match fetch code (p r + k) with
      | None => Undefined
      | Some w =>
          Continue (Regs (wrap (ip r + Z.shiftr w 2)) (p r) (store r))
      end
  | Return => Finish r
  | GotoNext => Dispatch r
  | Break => Dispatch r
  end.

Fixpoint exec_body (body : list cstmt) (r : regs S) : flow S :=
  match body with
  | [] => Continue r
  | st :: rest =>
      match exec_stmt st r with
      | Continue r' => exec_body rest r'
      | f => f
      end
  end.

(** The handler [goto *opcode_labels[v]] jumps to: [labels] is the array
    [opcode_labels], [blocks] the labelled handlers of the function. *)
Definition goto_target (labels : list string) (blocks : list block) (v : Z)
  : option (list cstmt) :=
  if v <? 0 then None else
  name ← labels !! Z.to_nat v;
  snd <$> List.find (fun b => String.eqb b.1 name) blocks.

(** The value of the enumerator [name] of [enum class opcodes]. *)
Fixpoint enum_value (enum : list string) (name : string) : option Z :=
  match enum with
  | [] => None
  | x :: enum' =>
      if String.eqb x name then Some 0
      else (fun v => v + 1) <$> enum_value enum' name
  end.

(** The case [switch (opcodes(v))] selects, if any. *)
Definition switch_target (enum : list string) (cases : list block) (v : Z)
  : option (list cstmt) :=
  snd <$> List.find (fun b => bool_decide (enum_value enum b.1 = Some v))
                    cases.

(** The label-threaded engine: every handler ends in a [goto] through
    [opcode_labels]. *)
Fixpoint run_labels (labels : list string) (blocks : list block)
    (fuel : nat) (r : regs S) (trace : list Z) : result :=
  match fuel with
  | O => OutOfFuel trace
  | Datatypes.S fuel' =>
      match fetch code (ip r) with
      | None => UndefinedBehaviour
      | Some v =>
          match goto_target labels blocks v with
          | None => UndefinedBehaviour
          | Some body =>
              let trace' := trace ++ [ip r] in
              match exec_body body r with
              | Finish r' => Halted trace' (ip r')
              | Dispatch r' => run_labels labels blocks fuel' r' trace'
              | Throw => Raised trace'
              (* no generated handler ends without goto or return *)
              | Continue _ | Undefined => UndefinedBehaviour
              end
          end
      end
  end.

(** The switch engine: [while (true) switch (opcodes(code[ip]))]; a value
    with no case leaves the switch and the loop decodes it again. *)
Fixpoint run_switch (enum : list string) (cases : list block)
    (fuel : nat) (r : regs S) (trace : list Z) : result :=
  match fuel with
  | O => OutOfFuel trace
  | Datatypes.S fuel' =>
      match fetch code (ip r) with
      | None => UndefinedBehaviour
      | Some v =>
          let trace' := trace ++ [ip r] in
          match switch_target enum cases v with
          | None => run_switch enum cases fuel' r trace'
          | Some body =>
              match exec_body body r with
              | Finish r' => Halted trace' (ip r')
              | Dispatch r' => run_switch enum cases fuel' r' trace'
              | Throw => Raised trace'
              | Continue _ | Undefined => UndefinedBehaviour
              end
          end
      end
  end.
End Exec.

End Machine.

(** The two engines of dispatch.h and the two disassemblers of
    disassembler.h, generated from [opcodes].  Generation does not fail on
    this table ([generation_succeeds] below); the last branch is never
    taken. *)
Section Engines.
Context {S : Type}.
Variable ext : string → list Z → option (list Z) → Z → S → option (Z * S).

(** [ip_ = 0; goto *opcode_labels[code[ip_]];] *)
Definition dispatch_labels (code : list Z) (fuel : nat) (s0 : S)
  : Machine.result :=
  match opcode_ids opcodes, label_blocks opcodes with
  | Some ids, Some blocks =>
      Machine.run_labels ext code ids blocks fuel (Machine.Regs 0 0 s0) []
  | _, _ => Machine.UndefinedBehaviour
  end.

(** [ip_ = 0; while (true) { switch (opcodes(code[ip_])) ... }] *)
Definition dispatch_switch (code : list Z) (fuel : nat) (s0 : S)
  : Machine.result :=
  match opcode_ids opcodes, switch_blocks opcodes with
  | Some ids, Some cases =>
      Machine.run_switch ext code ids cases fuel (Machine.Regs 0 0 s0) []
  | _, _ => Machine.UndefinedBehaviour
  end.
End Engines.

(** The disassembler calls no external operation. *)
Definition no_ext : string → list Z → option (list Z) → Z → unit
                    → option (Z * unit) :=
  fun _ _ _ _ _ => None.

Definition disassemble_labels (code : list Z) (fuel : nat) : Machine.result :=
  match opcode_ids opcodes, dis_label_blocks opcodes with
  | Some ids, Some blocks =>
      Machine.run_labels no_ext code ids blocks fuel (Machine.Regs 0 0 ()) []
  | _, _ => Machine.UndefinedBehaviour
  end.

Definition disassemble_switch (code : list Z) (fuel : nat) : Machine.result :=
  match opcode_ids opcodes, dis_switch_blocks opcodes with
  | Some ids, Some cases =>
      Machine.run_switch no_ext code ids cases fuel (Machine.Regs 0 0 ()) []
  | _, _ => Machine.UndefinedBehaviour
  end.

(** External operations that return normally and leave the instruction
    pointer alone. *)
Definition inert_ext {S : Type}
  : string → list Z → option (list Z) → Z → S → option (Z * S) :=
  fun _ _ _ ip s => Some (ip, s).

(** External operations that leave the instruction pointer alone, except
    [call], which advances it by the block length held in the upper bits of
    its last operand. *)
Definition skip_ext
  : string → list Z → option (list Z) → Z → unit → option (Z * unit) :=
  fun name args _ ip s =>
    if String.eqb name "call" then
      match last args with
      | Some w => Some (Machine.wrap (ip + Z.shiftr w 2), s)
      | None => Some (ip, s)
      end
    else Some (ip, s).

(** The handler each generated function runs for the opcode value [v]. *)
Definition label_handler (v : Z) : option (list cstmt) :=
  ids ← opcode_ids opcodes; blocks ← label_blocks opcodes;
  Machine.goto_target ids blocks v.
Definition switch_handler (v : Z) : option (list cstmt) :=
  ids ← opcode_ids opcodes; cases ← switch_blocks opcodes;
  Machine.switch_target ids cases v.
Definition dis_label_handler (v : Z) : option (list cstmt) :=
  ids ← opcode_ids opcodes; blocks ← dis_label_blocks opcodes;
  Machine.goto_target ids blocks v.
Definition dis_switch_handler (v : Z) : option (list cstmt) :=
  ids ← opcode_ids opcodes; cases ← dis_switch_blocks opcodes;
  Machine.switch_target ids cases v.

(** What a handler of an engine does, for any state of the registers:
    [halt] returns; any other handler advances the pointer by 1 +
    operand-count, reads the operand words and invokes its operation, whose
    result is the next pointer. *)
Definition handler_step {S : Type}
    (ext : string → list Z → option (list Z) → Z → S → option (Z * S))
    (code : list Z) (o : opcode) (b : block) : Prop :=
  ∃ name cd, ∀ r : Machine.regs S,
    Machine.exec_body ext code b.2 r =
    if String.eqb b.1 "halt" then Machine.Finish r
    else
      match mapM (fun k => Machine.fetch code (Machine.ip r + k))
                 (operand_offsets o) with
      | None => Machine.Undefined
      | Some args =>
          match ext name args cd (Machine.wrap (Machine.ip r + (o3 o + 1)))
                    (Machine.store r) with
          | Some (ip', s') =>
              Machine.Dispatch (Machine.Regs ip' (Machine.ip r) s')
          | None => Machine.Throw
          end
      end.

(** ** Instruction streams

    The encoding of the specification: an opcode value, its operand words
    and, for [call], the nested block whose length is in the upper bits of
    the last operand; a stream ends with [halt]. *)
Record instr := Instr {
  i_opcode : nat;
  i_operands : list Z;
  i_block : list Z
}.

Definition encode (i : instr) : list Z :=
  Z.of_nat (i_opcode i) :: i_operands i ++ i_block i.

Definition wf_instr (i : instr) : Prop :=
  ∃ o oc,
    opcodes !! i_opcode i = Some o ∧ get_opcode (o1 o) (o2 o) = Some oc ∧
    oc ≠ "halt" ∧ Z.of_nat (length (i_operands i)) = o3 o ∧
    if String.eqb oc "call"
    then ∃ w, last (i_operands i) = Some w ∧
              Z.shiftr w 2 = Z.of_nat (length (i_block i))
    else i_block i = [].

Definition stream (prog : list instr) : list Z :=
  mjoin (encode <$> prog) ++ [0].

(** Where the instructions of a stream start, from [start] on, the final
    [halt] included. *)
Fixpoint boundaries (start : Z) (prog : list instr) : list Z :=
  match prog with
  | [] => [start]
  | i :: prog' =>
      start :: boundaries (start + Z.of_nat (length (encode i))) prog'
  end.

Definition stream_end (prog : list instr) : Z :=
  Z.of_nat (length (stream prog)) - 1.

(** ** AsofWriter *)

(** The two cases emitted for a type [t] by a loop [for t in types] that
    dispatches on the type to a template instance. *)
Definition asof_return_cases (call : string) (t : string * string * string)
  : list (string * Z) :=
  [ ("case vvm_types::" +:+ t.1.2 +:+ "s:", 2);
    ("return " +:+ Py.fmt call [t.2], 3);
    ("case vvm_types::" +:+ t.1.2 +:+ "v:", 2);
    ("return " +:+ Py.fmt call [t.2], 3) ].

(** The loop of the restricted functions: [if t[0] in arithmetic_types +
    time_ish_types] the template instance, [else] a throw. *)
Definition asof_restricted_cases (call : string) (t : string * string * string)
  : list (string * Z) :=
  if bool_decide (t.1.1 ∈ arithmetic_types ++ time_ish_types) then
    asof_return_cases call t
  else
    (* Empirical's type check should prevent err *)
    [ ("case vvm_types::" +:+ t.1.2 +:+ "s:", 2);
      ("throw err;", 3);
      ("case vvm_types::" +:+ t.1.2 +:+ "v:", 2);
      ("throw err;", 3) ].

Definition logic_error (name : string) : string * Z :=
  ("std::logic_error err(" +:+ quoted ("Invalid " +:+ name +:+ " type") +:+ ");",
   1).

Definition asofmatch_arr_emits : list (string * Z) :=
  [ ("void asofmatch_arr(vvm_types t, operand_t l, operand_t r,"
     +:+ " bool s, AsofDirection d, std::vector<int64_t>& li,"
     +:+ " std::vector<int64_t>& ri) {", 0);
    ("switch (t) {", 1) ]
  ++ (t ← types; asof_return_cases "asofmatch_arr<%s>(l, r, s, d, li, ri);" t)
  ++ [ ("}", 1); ("}", 0); ("", 0) ].

Definition asofnear_arr_emits : list (string * Z) :=
  [ ("void asofnear_arr(vvm_types t, operand_t l, operand_t r,"
     +:+ " bool s, AsofDirection d, std::vector<int64_t>& li,"
     +:+ " std::vector<int64_t>& ri) {", 0);
    logic_error "asofnear";
    ("switch (t) {", 1) ]
  ++ (t ← types;
      asof_restricted_cases "asofnear_arr<%s>(l, r, s, d, li, ri);" t)
  ++ [ ("}", 1); ("}", 0); ("", 0) ].

Definition asofwithin_arr_emits : list (string * Z) :=
  [ ("void asofwithin_arr(vvm_types t, operand_t l, operand_t r,"
     +:+ " bool s, AsofDirection d, operand_t w, "
     +:+ " std::vector<int64_t>& li, std::vector<int64_t>& ri) {", 0);
    logic_error "asofwithin";
    ("switch (t) {", 1) ]
  ++ (t ← types;
      asof_restricted_cases "asofwithin_arr<%s>(l, r, s, d, w, li, ri);" t)
  ++ [ ("}", 1); ("}", 0); ("", 0) ].

Definition eqasofmatch_df_emits : list (string * Z) :=
  [ ("void eqasofmatch_df(vvm_types t1, operand_t t2,"
     +:+ " operand_t l1, operand_t r1, operand_t l2, operand_t r2,"
     +:+ " bool s, AsofDirection d, std::vector<int64_t>& li,"
     +:+ " std::vector<int64_t>& ri) {", 0);
    ("switch (t1) {", 1) ]
  ++ (t ← types;
      asof_return_cases
        "eqasofmatch_df<%s>(t2, l1, r1, l2, r2, s, d, li, ri);" t)
  ++ [ ("}", 1); ("}", 0); ("", 0) ].

Definition eqasofnear_df_emits : list (string * Z) :=
  [ ("void eqasofnear_df(vvm_types t1, operand_t t2,"
     +:+ " operand_t l1, operand_t r1, operand_t l2, operand_t r2,"
     +:+ " bool s, AsofDirection d, std::vector<int64_t>& li,"
     +:+ " std::vector<int64_t>& ri) {", 0);
    logic_error "eqasofnear";
    ("switch (t1) {", 1) ]
  ++ (t ← types;
      asof_restricted_cases
        "eqasofnear_df<%s>(t2, l1, r1, l2, r2, s, d, li, ri);" t)
  ++ [ ("}", 1); ("}", 0); ("", 0) ].

Definition eqasofwithin_df_emits : list (string * Z) :=
  [ ("void eqasofwithin_df(vvm_types t1, operand_t t2,"
     +:+ " operand_t l1, operand_t r1, operand_t l2, operand_t r2,"
     +:+ " bool s, AsofDirection d, operand_t w,"
     +:+ " std::vector<int64_t>& li, std::vector<int64_t>& ri) {", 0);
    logic_error "eqasofwithin";
    ("switch (t1) {", 1) ]
  ++ (t ← types;
      asof_restricted_cases
        "eqasofwithin_df<%s>(t2, l1, r1, l2, r2, s, d, w, li, ri);" t)
  ++ [ ("}", 1); ("}", 0); ("", 0) ].

(** The [emit] calls of [AsofWriter.run]. *)
Definition AsofWriter_run : list (string * Z) :=
  asofmatch_arr_emits ++ asofnear_arr_emits ++ asofwithin_arr_emits ++
  eqasofmatch_df_emits ++ eqasofnear_df_emits ++ eqasofwithin_df_emits.


(** ** Decoding an identifier and the array form of a signature

    The two notions the specification states its round-trip and pairing
    properties with; they follow its words, the encoder above follows the
    source. *)

(** The parameter list of a signature, parsed as [get_opcode] and
    [get_func_type] parse it: the text before the first [->], a single type
    or a parenthesized comma list. *)
Definition sig_params (type_sig : string) : option (list string) :=
  params ← list_get (Py.split type_sig "->") 0;
  c0 ← Py.get params 0;
  cl ← Py.get params (-1);
  if Ascii.eqb c0 "("%char && Ascii.eqb cl ")"%char
  then Some (Py.split (Py.slice params 1 (-1)) ",")
  else Some [params].

(** The concrete types an identifier encodes: the parameter types and, for
    [cast], the target type. *)
Definition encoded_types (func_name type_sig : string) : option (list string) :=
  if Py.len type_sig =? 0 then Some [] else
  ps ← sig_params type_sig;
  if String.eqb func_name "cast" then
    t1 ← list_get (Py.split type_sig "->") 1; Some (ps ++ [t1])
  else Some ps.

(** The type a tag stands for in the registry. *)
Definition type_of_tag (tag : string) : option string :=
  (fun t => t.1.1) <$> List.find (fun t => String.eqb t.1.2 tag) types.

(** A suffix is a type tag followed by [s] (scalar) or [v] (array). *)
Definition decode_suffix (suffix : string) : option string :=
  marker ← Py.get suffix (-1);
  name ← type_of_tag (Py.slice suffix 0 (-1));
  if Ascii.eqb marker "s"%char then Some name
  else if Ascii.eqb marker "v"%char then Some ("[" +:+ name +:+ "]")
  else None.

(** The underscore-separated suffixes that follow the canonical name. *)
Definition decode_opcode (func_name ident : string) : option (list string) :=
  if negb (String.prefix func_name ident) then None else
  let rest := Py.slice_from ident (Py.len func_name) in
  if Py.len rest =? 0 then Some [] else
  match Py.split rest "_" with
  | "" :: suffixes => mapM decode_suffix suffixes
  | _ => None
  end.

(** A signature is in scalar form when it names a type and no array. *)
Definition is_scalar_form (type_sig : string) : bool :=
  negb (Py.len type_sig =? 0) && (Py.find0 type_sig "["%char =? -1).

(** The element type wrapped as array; the unit result [()] has no array. *)
Definition wrap_array (t : string) : string :=
  if String.eqb t "()" then t else "[" +:+ t +:+ "]".

(** The array-form counterpart of a signature: every type wrapped. *)
Definition array_form (type_sig : string) : option string :=
  let halves := Py.split type_sig "->" in
  ps ← sig_params type_sig;
  params ← list_get halves 0;
  c0 ← Py.get params 0;
  let params' :=
    if Ascii.eqb c0 "("%char
    then "(" +:+ Py.join "," (wrap_array <$> ps) +:+ ")"
    else Py.join "," (wrap_array <$> ps) in
  match halves with
  | [_] => Some params'
  | [_; r] => Some (params' +:+ "->" +:+ wrap_array r)
  | _ => None
  end.

(** The opcodes without array counterpart: [now] and the timedelta
    literals. *)
Definition unpaired (o : opcode) : bool :=
  String.eqb (o1 o) "now" || String.prefix "unit_" (o1 o).

Definition opcode_eqb (a b : opcode) : bool :=
  String.eqb (o0 a) (o0 b) && String.eqb (o1 a) (o1 b) &&
  String.eqb (o2 a) (o2 b) && (o3 a =? o3 b).

(** ** Decision procedures used by the proofs *)

#[global] Instance opcode_eq_dec : EqDecision opcode.
Proof. solve_decision. Defined.

(** A decidable closed proposition, decided by evaluation. *)
Ltac by_compute := apply (bool_decide_unpack _); vm_compute; exact I.

(** Decoding the identifier of [o] gives the types its signature encodes. *)
Definition roundtrip_check (o : opcode) : bool :=
  match get_opcode (o1 o) (o2 o), encoded_types (o1 o) (o2 o) with
  | Some ident, Some tys =>
      bool_decide (decode_opcode (o1 o) ident = Some tys)
  | _, _ => false
  end.

(** A scalar-form entry, unless [unpaired], has its array form in the table. *)
Definition pairing_check (o : opcode) : bool :=
  if is_scalar_form (o2 o) && negb (unpaired o) then
    match array_form (o2 o) with
    | Some sig => bool_decide (Op (o0 o) (o1 o) sig (o3 o) ∈ opcodes)
    | None => false
    end
  else true.





#[global] Instance cstmt_eq_dec : EqDecision cstmt.
Proof. solve_decision. Defined.

(** The two ways a handler ends, identified. *)
Definition unify_next (st : cstmt) : cstmt :=
  match st with
  | Break => GotoNext
  | _ => st
  end.

(** Two handlers with the same label and, up to [goto]/[break], the same
    statements. *)
Definition same_handler (b1 b2 : block) : bool :=
  String.eqb b1.1 b2.1 &&
  bool_decide (unify_next <$> b1.2 = unify_next <$> b2.2).

(** The statements that lead to the next decode. *)
Definition is_next (st : cstmt) : bool :=
  match st with
  | GotoNext | Break => true
  | _ => false
  end.

(** A handler of an engine and the handler of the disassembler for the same
    opcode: the same advance and operands; the disassembler skips a block
    exactly where the engine invokes [call]. *)
Definition dis_matches (be bd : block) : bool :=
  String.eqb be.1 bd.1 &&
  match be.2, bd.2 with
  | [Return], [Return] => true
  | [SaveIp; Advance n; Invoke name ks _; e1],
    [SaveIp; Advance n'; Print _ ks' None; e2] =>
      (n =? n') && bool_decide (ks = ks') && negb (String.eqb name "call") &&
      is_next e1 && is_next e2
  | [SaveIp; Advance n; Invoke name ks _; e1],
    [SaveIp; Advance n'; Print _ ks' (Some k); SkipBlock k'; e2] =>
      (n =? n') && bool_decide (ks = ks') && String.eqb name "call" &&
      bool_decide (last ks = Some k) && (k =? k') && is_next e1 && is_next e2
  | _, _ => false
  end.

(** The characters of a string. *)
Abbreviation chars := String.list_ascii_of_string.

(** What the loop maintains: padding and width add up to the columns left
    after the indentation, and the lines so far fit them. *)
Definition reflow_inv (W : Z) (st : reflow_state) : Prop :=
  Py.len (padding st) + size st = W ∧ 0 ≤ size st ∧
  (lines st = [] → padding st = "") ∧
  Forall (fun l => Py.len l ≤ W) (lines st).

(** ** The function type of a signature (get_func_type) *)

(** [gen_vvm_type]: the compiler's syntax for an Empirical type.  The
    recursion on [t[1:-1]] is bounded by the length of [t]. *)
Fixpoint gen_vvm_type_rec (n : nat) (t : string) : option string :=
  c0 ← Py.get t 0;
  cl ← Py.get t (-1);
  if Ascii.eqb c0 "["%char && Ascii.eqb cl "]"%char then
    match n with
    | O => None
    | S n' =>
        r ← gen_vvm_type_rec n' (Py.slice t 1 (-1));
        Some ("HIR::Array(" +:+ r +:+ ")")
    end
  else
    tag ← _vvm_types !! t;
    Some ("HIR::VVMType(size_t(VVM::vvm_types::" +:+ tag +:+ "s))").

Definition gen_vvm_type (t : string) : option string :=
  gen_vvm_type_rec (String.length t) t.

(** The list [argtypes] and the text [rt] of [get_func_type]. *)
Definition func_type_parts (type_sig : string) : option (list string * string) :=
  let sigs := Py.split type_sig "->" in
  '(argtypes, rettype) ←
    (if Z.of_nat (List.length sigs) =? 2 then
       params ← list_get sigs 0;
       rettype ← list_get sigs 1;
       c0 ← Py.get params 0;
       cl ← Py.get params (-1);
       let ps :=
         if Ascii.eqb c0 "("%char && Ascii.eqb cl ")"%char
         then Py.split (Py.slice params 1 (-1)) ","
         else [params] in
       argtypes ← mapM gen_vvm_type ps;
       Some (argtypes, rettype)
     else
       rettype ← list_get sigs 0;
       Some ([], rettype));
  rt ← (if negb (String.eqb rettype "()") then gen_vvm_type rettype
        else Some "HIR::Void()");
  Some (argtypes, rt).

(** Generate compiler-friendly syntax for Empirical's type. *)
Definition get_func_type (type_sig : string) : option string :=
  '(argtypes, rt) ← func_type_parts type_sig;
  Some ("{" +:+ Py.join ", " argtypes +:+ "}, " +:+ rt).

(** ** TypesWriter *)

(** [[p for t in tys for p in (t[1] + 's', t[1] + 'v')]]: the enumerators
    of [enum class vvm_types] for a registry [tys]. *)
Definition type_enumerators (tys : list (string * string * string))
  : list string :=
  t ← tys; [t.1.2 +:+ "s"; t.1.2 +:+ "v"].

(** The three comma-separated lists of [TypesWriter.run]. *)
Definition type_labels : string := Py.join ", " (type_enumerators types).
Definition type_strings : string :=
  Py.join ", " (quoted <$> type_enumerators types).
Definition emp_strings : string :=
  let emp_types := (fun t => t.1.1) <$> types in
  Py.join ", " ((fun t => quoted t +:+ ", " +:+ quoted ("[" +:+ t +:+ "]"))
                <$> emp_types).

(** The [emit] calls of [TypesWriter.run]. *)
Definition TypesWriter_run : list (string * Z) :=
  [ ("#include <string>", 0);
    ("", 0);
    ("namespace VVM {", 0);
    ("enum class vvm_types: uint64_t { " +:+ type_labels +:+ " };", 0);
    ("", 0);
    ("static std::string type_strings[] = { " +:+ type_strings +:+ " };", 0);
    ("", 0);
    ("static std::string empirical_type_strings[] = { " +:+ emp_strings
       +:+ " };", 0);
    ("}  // namespace VVM", 0);
    ("", 0) ].

(** ** OpcodesWriter *)

Definition OpcodesWriter_run : option (list (string * Z)) :=
  ids ← opcode_ids opcodes;
  Some
    [ ("#include <string>", 0);
      ("", 0);
      ("namespace VVM {", 0);
      ("enum class opcodes: uint64_t { " +:+ Py.join ", " ids +:+ " };", 0);
      ("", 0);
      ("static std::string opcode_strings[] = { "
         +:+ Py.join ", " (quoted <$> ids) +:+ " };", 0);
      ("}  // namespace VVM", 0);
      ("", 0) ].

(** ** The writers of a switch over [vvm_types] *)

(** The body of a loop [for t in types] with one statement for the scalar
    case and one for the array case, each formatted with [t[2]]. *)
Definition type_cases (scalar array : string) (t : string * string * string)
  : list (string * Z) :=
  [ ("case vvm_types::" +:+ t.1.2 +:+ "s:", 2);
    (Py.fmt scalar [t.2], 3);
    ("case vvm_types::" +:+ t.1.2 +:+ "v:", 2);
    (Py.fmt array [t.2], 3) ].

(** A function made of one such switch. *)
Definition type_switch (header : string) (cases : list (string * Z))
  : list (string * Z) :=
  [ (header, 0); ("switch (t) {", 1) ] ++ cases ++ [ ("}", 1); ("}", 0); ("", 0) ].

Definition AllocateWriter_run : list (string * Z) :=
  type_switch "void* allocate_builtin(vvm_types t) {"
    (t ← types;
     type_cases "return reinterpret_cast<void*>(new %s);"
                "return reinterpret_cast<void*>(new std::vector<%s>);" t).

Definition represent_builtin_emits : list (string * Z) :=
  type_switch "std::string represent_builtin(vvm_types t, operand_t o) {"
    (t ← types;
     type_cases "return represent_s<%s>(o);" "return represent_v<%s>(o);" t).

Definition stringify_emits : list (string * Z) :=
  type_switch
    ("std::vector<std::string> stringify(vvm_types t,"
     +:+ " Value v, std::string& s, size_t n) {")
    (t ← types;
     type_cases "return stringify_wrap<%s>(v, s, n);"
                "return stringify_v<%s>(v, s, n);" t).

Definition ReprWriter_run : list (string * Z) :=
  represent_builtin_emits ++ stringify_emits.

Definition ParseWriter_run : list (string * Z) :=
  type_switch
    ("void parse_array(vvm_types t,"
     +:+ " const std::vector<std::string>& s, Value v) {")
    (t ← types; asof_return_cases "parse_array<%s>(s, v);" t).

Definition assign_builtin_emits : list (string * Z) :=
  type_switch
    ("void assign_builtin(vvm_types t,"
     +:+ " operand_t v1, operand_t v2) {")
    (t ← types;
     type_cases "return assign_builtin_s<%s>(v1, v2);"
                "return assign_builtin_v<%s>(v1, v2);" t).

Definition assign_value_emits : list (string * Z) :=
  type_switch "void assign_value(vvm_types t, Value v1, Value v2) {"
    (t ← types;
     type_cases "return assign_value_s<%s>(v1, v2);"
                "return assign_value_v<%s>(v1, v2);" t).

Definition AssignWriter_run : list (string * Z) :=
  assign_builtin_emits ++ assign_value_emits.

Definition AppendWriter_run : list (string * Z) :=
  type_switch
    ("void append_builtin(vvm_types t,"
     +:+ " operand_t v1, operand_t v2) {")
    (t ← types; asof_return_cases "append_s<%s>(v1, v2);" t).

Definition WhereWriter_run : list (string * Z) :=
  ("template<class T>", 0) ::
  type_switch
    ("void where_elem(vvm_types t, Value s,"
     +:+ " const std::vector<T>& tr, Value d) {")
    (t ← types; asof_return_cases "where_elem<%s>(s, tr, d);" t).

Definition WrapImmediateWriter_run : list (string * Z) :=
  type_switch "void* wrap_immediate(vvm_types t, operand_t o) {"
    (t ← types;
     [ ("case vvm_types::" +:+ t.1.2 +:+ "s:", 2);
       ("return reinterpret_cast<void*>(", 3);
       (Py.fmt "  new %s(get_value<%s>(o)));" [t.2; t.2], 3);
       ("case vvm_types::" +:+ t.1.2 +:+ "v:", 2);
       (Py.fmt "return reinterpret_cast<void*>(new std::vector<%s>);" [t.2],
        3) ]).

Definition LenWriter_run : list (string * Z) :=
  type_switch "int64_t len(vvm_types t, Value s) {"
    (t ← types;
     [ ("case vvm_types::" +:+ t.1.2 +:+ "s:", 2);
       ("return 1;", 3);
       ("case vvm_types::" +:+ t.1.2 +:+ "v:", 2);
       (Py.fmt "return len<%s>(s);" [t.2], 3) ]).

Definition IsortWriter_run : list (string * Z) :=
  type_switch
    ("void isort_elem(vvm_types t, Value s,"
     +:+ " std::vector<int64_t>& i) {")
    (t ← types; asof_return_cases "isort_elem<%s>(s, i);" t).

Definition SplitWriter_run : list (string * Z) :=
  type_switch
    ("void split_col(vvm_types t, size_t c,"
     +:+ " const std::vector<std::vector<int64_t>>& ig,"
     +:+ " const Dataframe& df, std::vector<Dataframe*>& td) {")
    (t ← types; asof_return_cases "split_col<%s>(c, ig, df, td);" t).

Definition categorize_emits : list (string * Z) :=
  type_switch
    ("int64_t categorize(vvm_types t, Value k,"
     +:+ " std::vector<int64_t>& l,"
     +:+ " size_t s) {")
    (t ← types; asof_return_cases "categorize<%s>(k, l, s);" t).

Definition categorize2_emits : list (string * Z) :=
  type_switch
    ("int64_t categorize2(vvm_types t, Value lk, Value rk,"
     +:+ " std::vector<int64_t>& ll, std::vector<int64_t>& rl,"
     +:+ " size_t s) {")
    (t ← types; asof_return_cases "categorize2<%s>(lk, rk, ll, rl, s);" t).

Definition CategorizeWriter_run : list (string * Z) :=
  categorize_emits ++ categorize2_emits.

(** ** BuiltinsWriter *)

(** The three [emit] calls of the loop body, for an opcode with a surface
    name; nothing for the others. *)
Definition builtin_emits (o : opcode) : option (list (string * Z)) :=
  if negb (Py.len (o0 o) =? 0) then
    let traits := Traits.traits_of (o0 o) in
    oc ← get_opcode (o1 o) (o2 o);
    let comment := "// " +:+ quoted (o0 o) +:+ " " +:+ oc +:+ " " +:+ o2 o in
    ft ← get_func_type (o2 o);
    let oc_enum := "size_t(VVM::opcodes::" +:+ oc +:+ ")" in
    let ref := oc_enum +:+ ", HIR::FuncType(" +:+ ft +:+ ", "
               +:+ Py.str_of_Z traits +:+ ")" in
    let store := "store_symbol(" +:+ quoted (o0 o) +:+ ", HIR::VVMOpRef("
                 +:+ ref +:+ "));" in
    Some [ (comment, 0); (store, 0); ("", 0) ]
  else Some [].

Definition BuiltinsWriter_run : option (list (string * Z)) :=
  body ← mapM builtin_emits opcodes;
  Some (
    [ ("/* type definitions */", 0) ]
    ++ ((fun t : string * string * string =>
           let ref := "HIR::VVMTypeRef(size_t(VVM::vvm_types::" +:+ t.1.2
                      +:+ "s))" in
           ("store_symbol(" +:+ quoted t.1.1 +:+ ", " +:+ ref +:+ ");", 0))
        <$> types)
    ++ [ ("", 0); ("", 0) ]
    ++ mjoin body).

(** ** DisassemblerWriter *)

Definition DisassemblerWriter_run : option (list (string * Z)) :=
  ids ← opcode_ids opcodes;
  lbl ← dis_label_blocks opcodes;
  sw ← dis_switch_blocks opcodes;
  let opcode_labels := Py.join ", " ((fun i => "&&" +:+ i) <$> ids) in
  Some (
    [ ("#include <vector>", 0);
      ("#include <string>", 0);
      ("#include <sstream>", 0);
      ("", 0);
      ("#include <VVM/opcodes.h>", 0);
      ("", 0);
      ("namespace VVM {", 0);
      ("std::string dis_code(const instructions_t& code,"
         +:+ " size_t ip, size_t n) {", 0);
      ("std::string result;", 1);
      ("for (size_t end = ip + n; ip < end; ip++) {", 1);
      ("result += " +:+ quoted " " +:+ " + decode_operand(code[ip]);", 2);
      ("}", 1);
      ("return result;", 1);
      ("}", 0);
      ("", 0);
      ("#ifndef _MSC_VER", 0);
      ("std::string disassemble(const instructions_t& code) {", 0);
      ("static void* opcode_labels[] = { " +:+ opcode_labels +:+ " };", 1);
      ("", 0);
      ("std::ostringstream oss;", 1);
      ("size_t p, ip = 0;", 1);
      ("goto *opcode_labels[code[ip]];", 1);
      ("", 0) ]
    ++ mjoin (emit_block "ip" "return oss.str();" "" 1 <$> lbl)
    ++ [ ("}", 0);
         ("#else  // _MSC_VER", 0);
         ("std::string disassemble(const instructions_t& code) {", 0);
         ("std::ostringstream oss;", 1);
         ("size_t p, ip = 0;", 1);
         ("while (true) {", 1);
         ("switch (opcodes(code[ip])) {", 2) ]
    ++ mjoin (emit_block "ip" "return oss.str();" "case opcodes::" 3 <$> sw)
    ++ [ ("}", 2);
         ("}", 1);
         ("}", 0);
         ("#endif  // _MSC_VER", 0);
         ("}  // namespace VVM", 0) ]).

(** ** [HeaderWriter.execute] and [main] *)

(** The writers [main] hands to [ChainOfWriters.run], by file name, each
    with the [emit] calls of its [run]; [None] where [run] raises. *)
Definition writers : list (string * option (list (string * Z))) :=
  [ ("types.h", Some TypesWriter_run);
    ("opcodes.h", OpcodesWriter_run);
    ("allocate.h", Some AllocateWriter_run);
    ("builtins.h", BuiltinsWriter_run);
    ("disassembler.h", DisassemblerWriter_run);
    ("dispatch.h", DispatchWriter_run);
    ("repr.h", Some ReprWriter_run);
    ("parse.h", Some ParseWriter_run);
    ("assign.h", Some AssignWriter_run);
    ("append.h", Some AppendWriter_run);
    ("where.h", Some WhereWriter_run);
    ("wrap_immediate.h", Some WrapImmediateWriter_run);
    ("len.h", Some LenWriter_run);
    ("isort.h", Some IsortWriter_run);
    ("split.h", Some SplitWriter_run);
    ("categorize.h", Some CategorizeWriter_run);
    ("asof.h", Some AsofWriter_run) ].

(** [components[-2:]] *)
Definition last_two {A} (l : list A) : list A := drop (length l - 2) l.

(** The banner [main] builds from [sys.argv[0]]; [sep] is [os.sep], which
    is not empty. *)
Definition auto_gen_msg (sep argv0 : string) : string :=
  let components := Py.split argv0 sep in
  let argv0 := Py.join sep (last_two components) in
  let common_msg :=
    "/* File automatically generated by %s. */" +:+ newline +:+ newline in
  Py.fmt common_msg [argv0].

(** [HeaderWriter.execute]: what is written to the file, in order: the
    banner, the pragma, and the lines of the [emit] calls of [run]. *)
Definition execute (fuel : nat) (auto_gen_msg : string)
    (run : option (list (string * Z))) : option (list string) :=
  calls ← run;
  ls ← written fuel calls;
  Some (auto_gen_msg :: ("#pragma once" +:+ newline +:+ newline) :: ls).

(** [main]: the content of each file of the output directory, by file
    name.  Creating the directory and opening the files is left out. *)
Definition main (fuel : nat) (sep argv0 : string)
  : list (string * option (list string)) :=
  (fun w => (w.1, execute fuel (auto_gen_msg sep argv0) w.2)) <$> writers.

(** The functions generated as a switch over [vvm_types], by name. *)
Definition type_switches : list (string * list (string * Z)) :=
  [ ("allocate_builtin", AllocateWriter_run);
    ("represent_builtin", represent_builtin_emits);
    ("stringify", stringify_emits);
    ("parse_array", ParseWriter_run);
    ("assign_builtin", assign_builtin_emits);
    ("assign_value", assign_value_emits);
    ("append_builtin", AppendWriter_run);
    ("where_elem", WhereWriter_run);
    ("wrap_immediate", WrapImmediateWriter_run);
    ("len", LenWriter_run);
    ("isort_elem", IsortWriter_run);
    ("split_col", SplitWriter_run);
    ("categorize", categorize_emits);
    ("categorize2", categorize2_emits);
    ("asofmatch_arr", asofmatch_arr_emits);
    ("asofnear_arr", asofnear_arr_emits);
    ("asofwithin_arr", asofwithin_arr_emits);
    ("eqasofmatch_df", eqasofmatch_df_emits);
    ("eqasofnear_df", eqasofnear_df_emits);
    ("eqasofwithin_df", eqasofwithin_df_emits) ].

(** The case labels among a sequence of [emit] calls, in order. *)
Definition case_labels (emits : list (string * Z)) : list string :=
  List.filter (String.prefix "case vvm_types::") (fst <$> emits).

(** ** Further decision procedures *)

(** The function type of a typed entry has one argument type less than the
    entry has operands, and its identifier is defined. *)
Definition func_type_check (o : opcode) : bool :=
  if Py.len (o2 o) =? 0 then Py.len (o0 o) =? 0
  else
    match get_opcode (o1 o) (o2 o), func_type_parts (o2 o) with
    | Some _, Some (args, _) => Z.of_nat (List.length args) + 1 =? o3 o
    | _, _ => false
    end.

(** The element [i] of the three arrays of types.h. *)
Definition type_tables_check (i : nat) : bool :=
  match type_enumerators types !! i, Py.split emp_strings ", " !! i with
  | Some e, Some qn =>
      let n := Py.slice qn 1 (-1) in
      bool_decide (Py.split type_labels ", " !! i = Some e) &&
      bool_decide (Py.split type_strings ", " !! i = Some (quoted e)) &&
      String.eqb qn (quoted n) &&
      bool_decide (get_vvm_type n "s" = Some e)
  | _, _ => false
  end.

(** A header is written in full, with lines of at most [w] characters,
    the end of line included. *)
Definition header_check (fuel : nat) (w : Z)
    (h : string * option (list (string * Z))) : bool :=
  match h.2 with
  | Some calls =>
      match written fuel calls with
      | Some ls => forallb (fun l => Py.len l <=? w) ls
      | None => false
      end
  | None => false
  end.

(** The padding of the lines that follow the first line [first] of a
    reflowed text, as the docstring of [reflow_lines] has it: up to the
    column after the first [{] of the first line and the space that follows
    it, else after its first [(], else none. *)
Definition continuation_padding (first : string) : string :=
  let j := Py.find0 first lbrace in
  if 0 <=? j then Py.spaces (j + 2)
  else
    let j := Py.find0 first lparen in
    if 0 <=? j then Py.spaces (j + 1) else "".

(** What [BuiltinsWriter.run] emits for an entry: nothing without a surface
    name, else the comment, the symbol with the traits of the canonical
    name, and an empty line; of the overrides only those of print, range
    and now are met. *)
Definition traits_stored_check (o : opcode) : bool :=
  if Py.len (o0 o) =? 0 then bool_decide (builtin_emits o = Some [])
  else
    match get_opcode (o1 o) (o2 o), get_func_type (o2 o) with
    | Some oc, Some ft =>
        bool_decide
          (builtin_emits o =
           Some [ ("// " +:+ quoted (o0 o) +:+ " " +:+ oc +:+ " " +:+ o2 o, 0);
                  ("store_symbol(" +:+ quoted (o0 o)
                   +:+ ", HIR::VVMOpRef(size_t(VVM::opcodes::" +:+ oc
                   +:+ "), HIR::FuncType(" +:+ ft +:+ ", "
                   +:+ Py.str_of_Z (Traits.traits_of (o1 o)) +:+ ")));", 0);
                  ("", 0) ]) &&
        negb (bool_decide (o1 o ∈ ["load"; "store"; "unique"; "idx";
                                   "multidx"; "sort"])) &&
        (Traits.traits_of (o1 o) =?
           (if String.eqb (o1 o) "print" then Traits.none
            else if String.eqb (o1 o) "range"
                 then Z.lor Traits.all_traits Traits.autostream
            else if String.eqb (o1 o) "now" then Traits.io_traits
            else Traits.all_traits))
    | _, _ => false
    end.

(** * Properties *)

(** ** The opcode table *)

Lemma opcodes_unfold : opcodes = _make_opcodes.
Proof. vm_compute. reflexivity. Qed.

Lemma forallb_elem_of {A} (f : A → bool) (l : list A) (x : A) :
  forallb f l = true → x ∈ l → f x = true.
Proof.
  intros Hall Hx. apply list_elem_of_In in Hx.
  rewrite forallb_forall in Hall. auto.
Qed.

(** Every identifier of the table is defined, and no two are equal. *)
Lemma opcode_ids_NoDup :
  ∃ ids, opcode_ids opcodes = Some ids ∧ NoDup ids.
Proof.
  eexists. split.
  - vm_compute. reflexivity.
  - by_compute.
Qed.

Lemma opcode_ids_lookup (ids : list string) (i : nat) (o : opcode) :
  opcode_ids opcodes = Some ids → opcodes !! i = Some o →
  ∃ a, ids !! i = Some a ∧ get_opcode (o1 o) (o2 o) = Some a.
Proof.
  unfold opcode_ids. intros Hids Ho.
  apply mapM_Some in Hids.
  destruct (Forall2_lookup_l _ _ _ _ _ Hids Ho) as (a & Ha & Hget).
  eauto.
Qed.

(** C2. For every pair of distinct entries of the opcode table, the
    identifiers [get_opcode] produces from their canonical name and type
    signature are defined and distinct: [get_opcode] is injective over the
    table built by [_make_opcodes]. *)
Theorem get_opcode_injective_on_table (i j : nat) (oi oj : opcode) :
  opcodes !! i = Some oi → opcodes !! j = Some oj → i ≠ j →
  ∃ a b, get_opcode (o1 oi) (o2 oi) = Some a ∧
         get_opcode (o1 oj) (o2 oj) = Some b ∧ a ≠ b.
Proof.
  intros Hi Hj Hne.
  destruct opcode_ids_NoDup as (ids & Hids & Hnd).
  destruct (opcode_ids_lookup ids i oi Hids Hi) as (a & Hai & Ha).
  destruct (opcode_ids_lookup ids j oj Hids Hj) as (b & Hbj & Hb).
  exists a, b. split; [exact Ha|]. split; [exact Hb|].
  intros ->. apply Hne. eapply NoDup_lookup; eauto.
Qed.

Lemma get_opcode_injective_on_table_witness :
  opcodes !! 1%nat = Some (Op "" "alloc" "" 2) ∧
  opcodes !! 29%nat = Some (Op "String" "cast" "Int64->String" 2) ∧
  ∃ a b, get_opcode "alloc" "" = Some a ∧
         get_opcode "cast" "Int64->String" = Some b ∧ a ≠ b.
Proof.
  split; [reflexivity|]. split; [reflexivity|].
  apply (get_opcode_injective_on_table 1 29
           (Op "" "alloc" "" 2) (Op "String" "cast" "Int64->String" 2));
    [reflexivity | reflexivity | lia].
Defined.

(** ** Round trip *)

(** C3. For every entry of the opcode table, decoding the
    underscore-separated suffixes of its identifier (each a type tag of the
    registry followed by [s] for a scalar or [v] for an array) gives back
    the concrete parameter types of its type signature and, for [cast], the
    target type as well. *)
Theorem decode_get_opcode_roundtrip (o : opcode) :
  o ∈ opcodes →
  ∃ ident tys, get_opcode (o1 o) (o2 o) = Some ident ∧
               encoded_types (o1 o) (o2 o) = Some tys ∧
               decode_opcode (o1 o) ident = Some tys.
Proof.
  intros Ho.
  assert (Hall : forallb roundtrip_check opcodes = true)
    by (vm_compute; reflexivity).
  pose proof (forallb_elem_of _ _ _ Hall Ho) as Hc.
  unfold roundtrip_check in Hc.
  destruct (get_opcode (o1 o) (o2 o)) as [ident|]; [|discriminate].
  destruct (encoded_types (o1 o) (o2 o)) as [tys|]; [|discriminate].
  apply bool_decide_eq_true in Hc. eauto.
Qed.

Lemma decode_get_opcode_roundtrip_witness :
  Op "String" "cast" "[Float64]->[String]" 2 ∈ opcodes ∧
  ∃ ident tys, get_opcode "cast" "[Float64]->[String]" = Some ident ∧
               encoded_types "cast" "[Float64]->[String]" = Some tys ∧
               decode_opcode "cast" ident = Some tys.
Proof.
  assert (H : Op "String" "cast" "[Float64]->[String]" 2 ∈ opcodes)
    by (by_compute).
  split; [exact H|].
  apply (decode_get_opcode_roundtrip
           (Op "String" "cast" "[Float64]->[String]" 2) H).
Defined.

Example roundtrip_binary :
  get_opcode "add" "(Int64,[Int64])->[Int64]" = Some "add_i64s_i64v" ∧
  decode_opcode "add" "add_i64s_i64v" = Some ["Int64"; "[Int64]"].
Proof. split; vm_compute; reflexivity. Qed.

Example roundtrip_unit :
  get_opcode "unit_ns" "Int64->Timedelta" = Some "unit_ns_i64s" ∧
  decode_opcode "unit_ns" "unit_ns_i64s" = Some ["Int64"].
Proof. split; vm_compute; reflexivity. Qed.

(** ** Pairing *)

(** C4, as stated, fails: [now] has the scalar signature [Timestamp] and no
    entry named [now] has the array form [[Timestamp]]. *)
Lemma pairing_fails_for_now :
  ¬ (∀ o : opcode,
       o ∈ opcodes → is_scalar_form (o2 o) = true →
       ∃ o', o' ∈ opcodes ∧ o1 o' = o1 o ∧ array_form (o2 o) = Some (o2 o')).
Proof.
  intros Hclaim.
  destruct (Hclaim (Op "now" "now" "Timestamp" 1)) as (o' & Hin & Hname & Hsig).
  - by_compute.
  - reflexivity.
  - assert (Hall : forallb (fun o => negb (String.eqb (o1 o) "now" &&
                                           String.eqb (o2 o) "[Timestamp]"))
                           opcodes = true) by (vm_compute; reflexivity).
    pose proof (forallb_elem_of _ _ _ Hall Hin) as Hc.
    destruct o' as [n0 n1 n2 n3]. cbn [o1 o2] in Hname, Hsig, Hc.
    change (array_form "Timestamp") with (Some "[Timestamp]") in Hsig.
    injection Hsig as <-. subst n1. discriminate Hc.
Qed.

(** C4, amended. Every entry of the opcode table whose type signature is in
    scalar form, other than [now] and the timedelta literals [unit_*], has a
    counterpart in the table with the same surface name, canonical name and
    operand count whose signature is its array form (every type wrapped in
    brackets). *)
Theorem scalar_array_pairing (o : opcode) :
  o ∈ opcodes → is_scalar_form (o2 o) = true → unpaired o = false →
  ∃ sig, array_form (o2 o) = Some sig ∧ Op (o0 o) (o1 o) sig (o3 o) ∈ opcodes.
Proof.
  intros Ho Hs Hu.
  assert (Hall : forallb pairing_check opcodes = true)
    by (vm_compute; reflexivity).
  pose proof (forallb_elem_of _ _ _ Hall Ho) as Hc.
  unfold pairing_check in Hc. rewrite Hs, Hu in Hc. simpl in Hc.
  destruct (array_form (o2 o)) as [sig|]; [|discriminate].
  apply bool_decide_eq_true in Hc. eauto.
Qed.

Lemma scalar_array_pairing_witness :
  Op "<" "lt" "(Date,Date)->Bool" 3 ∈ opcodes ∧
  ∃ sig, array_form "(Date,Date)->Bool" = Some sig ∧
         Op "<" "lt" sig 3 ∈ opcodes.
Proof.
  assert (H : Op "<" "lt" "(Date,Date)->Bool" 3 ∈ opcodes)
    by (by_compute).
  split; [exact H|].
  apply (scalar_array_pairing (Op "<" "lt" "(Date,Date)->Bool" 3) H);
    reflexivity.
Defined.

(** ** Traits *)

(** C7, as stated, fails: [load] and [store] are in the table without a
    surface name, they are its only entries of these canonical names, and
    for such an entry [BuiltinsWriter] emits nothing.  No symbol is stored
    for them, with any trait, and no symbol at all is stored with
    autostream only. *)
Lemma load_and_store_receive_no_traits :
  List.filter (fun o => bool_decide (o1 o ∈ ["load"; "store"])) opcodes
    = [Op "" "load" "" 3; Op "" "store" "" 4] ∧
  builtin_emits (Op "" "load" "" 3) = Some [] ∧
  builtin_emits (Op "" "store" "" 4) = Some [] ∧
  ¬ (∀ o, o ∈ opcodes → ∃ t, (o, t) ∈ Traits.builtins) ∧
  ¬ (∃ o, (o, Traits.autostream) ∈ Traits.builtins).
Proof.
  split; [vm_compute; reflexivity|].
  split; [vm_compute; reflexivity|].
  split; [vm_compute; reflexivity|].
  split.
  - intros H. destruct (H (Op "" "load" "" 3)) as [t Ht]; [by_compute|].
    unfold Traits.builtins in Ht.
    apply list_elem_of_bind in Ht as (o & Ht & _).
    destruct (Py.len (o0 o) =? 0) eqn:E; simpl in Ht.
    + by apply elem_of_nil in Ht.
    + apply list_elem_of_singleton in Ht. injection Ht as <- _.
      discriminate E.
  - intros [o Ho].
    assert (Hall : forallb (fun ot : opcode * Z =>
                              negb (ot.2 =? Traits.autostream))
                     Traits.builtins = true) by (vm_compute; reflexivity).
    pose proof (forallb_elem_of _ _ _ Hall Ho) as H. discriminate H.
Qed.

Lemma traits_stored_check_all : forallb traits_stored_check opcodes = true.
Proof. vm_compute. reflexivity. Qed.

(** C7, amended. The trait assigner is a total function of the name.  For
    an opcode without a surface name, [load] and [store] among them,
    [BuiltinsWriter] emits nothing and no traits are stored.  For every
    other opcode it emits one [store_symbol] line, whose traits are those
    the assigner gives the canonical name: the default set {pure,
    transform, linear}, except none for [print], the default set and
    autostream for [range], and {transform, linear} for [now].  No stored
    opcode has the canonical name load, store, unique, idx, multidx or
    sort: these six overrides are never applied. *)
Theorem traits_stored (o : opcode) :
  o ∈ opcodes →
  (o0 o = "" → builtin_emits o = Some []) ∧
  (o0 o ≠ "" →
   ∃ oc ft,
     get_opcode (o1 o) (o2 o) = Some oc ∧
     get_func_type (o2 o) = Some ft ∧
     builtin_emits o = Some
       [ ("// " +:+ quoted (o0 o) +:+ " " +:+ oc +:+ " " +:+ o2 o, 0);
         ("store_symbol(" +:+ quoted (o0 o)
          +:+ ", HIR::VVMOpRef(size_t(VVM::opcodes::" +:+ oc
          +:+ "), HIR::FuncType(" +:+ ft +:+ ", "
          +:+ Py.str_of_Z (Traits.traits_of (o1 o)) +:+ ")));", 0);
         ("", 0) ] ∧
     ¬ (o1 o ∈ ["load"; "store"; "unique"; "idx"; "multidx"; "sort"]) ∧
     Traits.traits_of (o1 o) =
       (if String.eqb (o1 o) "print" then Traits.none
        else if String.eqb (o1 o) "range"
             then Z.lor Traits.all_traits Traits.autostream
        else if String.eqb (o1 o) "now" then Traits.io_traits
        else Traits.all_traits)).
Proof.
  intros Ho.
  pose proof (forallb_elem_of _ _ _ traits_stored_check_all Ho) as H.
  unfold traits_stored_check in H. split.
  - intros H0. rewrite H0 in H. change (Py.len "" =? 0) with true in H.
    by apply bool_decide_eq_true in H.
  - intros H0.
    assert (Hl : (Py.len (o0 o) =? 0) = false)
      by (destruct (o0 o); [done | reflexivity]).
    rewrite Hl in H.
    destruct (get_opcode (o1 o) (o2 o)) as [oc|]; [|discriminate].
    destruct (get_func_type (o2 o)) as [ft|]; [|discriminate].
    apply andb_prop in H as [H H3]. apply andb_prop in H as [H1 H2].
    apply bool_decide_eq_true in H1.
    apply negb_true_iff, bool_decide_eq_false in H2. apply Z.eqb_eq in H3.
    exists oc, ft. by repeat split.
Qed.

Lemma traits_stored_witness :
  Op "range" "range" "Int64->[Int64]" 2 ∈ opcodes ∧
  ∃ oc ft,
    get_opcode "range" "Int64->[Int64]" = Some oc ∧
    get_func_type "Int64->[Int64]" = Some ft ∧
    builtin_emits (Op "range" "range" "Int64->[Int64]" 2) = Some
      [ ("// " +:+ quoted "range" +:+ " " +:+ oc +:+ " " +:+ "Int64->[Int64]", 0);
        ("store_symbol(" +:+ quoted "range"
         +:+ ", HIR::VVMOpRef(size_t(VVM::opcodes::" +:+ oc
         +:+ "), HIR::FuncType(" +:+ ft +:+ ", "
         +:+ Py.str_of_Z (Traits.traits_of "range") +:+ ")));", 0);
        ("", 0) ] ∧
    ¬ ("range" ∈ ["load"; "store"; "unique"; "idx"; "multidx"; "sort"]) ∧
    Traits.traits_of "range" = Z.lor Traits.all_traits Traits.autostream.
Proof.
  assert (H : Op "range" "range" "Int64->[Int64]" 2 ∈ opcodes) by by_compute.
  split; [exact H|].
  apply (proj2 (traits_stored _ H)). discriminate.
Defined.

(** The function is total: a name without override has the default set. *)
Lemma traits_of_default (name : string) :
  Traits.d !! name = None → Traits.traits_of name = Traits.all_traits.
Proof. unfold Traits.traits_of. intros ->. reflexivity. Qed.

(** Every opcode with a surface name is stored, under the traits of its
    surface name. *)
Lemma builtins_complete (o : opcode) :
  o ∈ opcodes → o0 o ≠ "" → (o, Traits.traits_of (o0 o)) ∈ Traits.builtins.
Proof.
  intros Ho Hne. unfold Traits.builtins.
  apply list_elem_of_bind. exists o. split; [|exact Ho].
  destruct (o0 o) as [|c s] eqn:E; [congruence|].
  cbn. apply list_elem_of_here.
Qed.

(** ** AsofWriter *)




(** ** The generated engines *)

Lemma find_first {A} (P : A → bool) (l : list A) (n : nat) (x : A) :
  l !! n = Some x → P x = true →
  (∀ m y, (m < n)%nat → l !! m = Some y → P y = false) →
  List.find P l = Some x.
Proof.
  revert n. induction l as [|a l IH]; intros [|n] Hn Hx Hlt; simplify_eq/=.
  - by rewrite Hx.
  - rewrite (Hlt 0%nat a) by (lia || done).
    apply (IH n); auto. intros m y ? ?. apply (Hlt (S m)); [lia|done].
Qed.

Lemma enum_value_lookup (ids : list string) (n : nat) (id : string) :
  NoDup ids → ids !! n = Some id →
  Machine.enum_value ids id = Some (Z.of_nat n).
Proof.
  revert n. induction ids as [|a ids IH]; intros n Hnd Hn; [done|].
  apply NoDup_cons in Hnd as [Ha Hnd]. destruct n as [|n]; simplify_eq/=.
  - by rewrite String.eqb_refl.
  - destruct (String.eqb_spec a id) as [->|_].
    + exfalso. apply Ha. eapply list_elem_of_lookup_2; eauto.
    + rewrite (IH n) by done. simpl. f_equal. lia.
Qed.

Section Targets.
Variable ids : list string.
Variable blocks : list block.
Hypothesis Hlabels : fst <$> blocks = ids.
Hypothesis Hnd : NoDup ids.

Lemma block_label (n : nat) (b : block) :
  blocks !! n = Some b → ids !! n = Some b.1.
Proof. intros Hb. rewrite <- Hlabels, list_lookup_fmap, Hb. done. Qed.

Lemma goto_target_lookup (n : nat) (b : block) :
  blocks !! n = Some b →
  Machine.goto_target ids blocks (Z.of_nat n) = Some b.2.
Proof.
  intros Hb. unfold Machine.goto_target.
  destruct (Z.ltb_spec (Z.of_nat n) 0) as [?|_]; [lia|].
  rewrite Nat2Z.id, (block_label n b Hb). simpl.
  rewrite (find_first _ blocks n b); auto using String.eqb_refl.
  intros m y Hm Hy. apply String.eqb_neq. intros Heq.
  apply block_label in Hy. rewrite Heq in Hy.
  pose proof (NoDup_lookup _ _ _ _ Hnd Hy (block_label n b Hb)). lia.
Qed.

Lemma goto_target_inv (v : Z) (body : list cstmt) :
  Machine.goto_target ids blocks v = Some body →
  ∃ n b, v = Z.of_nat n ∧ blocks !! n = Some b ∧ body = b.2.
Proof.
  intros Hg. pose proof Hg as Hg'. unfold Machine.goto_target in Hg'.
  destruct (Z.ltb_spec v 0) as [?|Hv]; [done|].
  destruct (ids !! Z.to_nat v) as [name|] eqn:Hname; [|done].
  rewrite <- Hlabels, list_lookup_fmap in Hname.
  destruct (blocks !! Z.to_nat v) as [b|] eqn:Hb; [|done].
  exists (Z.to_nat v), b. split; [lia|]. split; [done|].
  rewrite <- (Z2Nat.id v), (goto_target_lookup _ b Hb) in Hg by done.
  congruence.
Qed.

Lemma switch_target_lookup (n : nat) (b : block) :
  blocks !! n = Some b →
  Machine.switch_target ids blocks (Z.of_nat n) = Some b.2.
Proof.
  intros Hb. unfold Machine.switch_target.
  rewrite (find_first _ blocks n b); auto.
  - apply bool_decide_eq_true.
    apply enum_value_lookup; auto using block_label.
  - intros m y Hm Hy. apply bool_decide_eq_false.
    rewrite (enum_value_lookup ids m y.1) by auto using block_label.
    intros [=]. lia.
Qed.
End Targets.

Section Simulation.
Context {S : Type}.
Variable ext : string → list Z → option (list Z) → Z → S → option (Z * S).
Variable code : list Z.

Lemma exec_stmt_unify (st : cstmt) (r : Machine.regs S) :
  Machine.exec_stmt ext code (unify_next st) r = Machine.exec_stmt ext code st r.
Proof. destruct st; reflexivity. Qed.

Lemma exec_body_unify (body : list cstmt) (r : Machine.regs S) :
  Machine.exec_body ext code (unify_next <$> body) r =
  Machine.exec_body ext code body r.
Proof.
  revert r. induction body as [|st body IH]; intros r; simpl; [done|].
  rewrite exec_stmt_unify. destruct (Machine.exec_stmt ext code st r); auto.
Qed.

Lemma same_handler_exec (b1 b2 : block) (r : Machine.regs S) :
  same_handler b1 b2 = true →
  Machine.exec_body ext code b1.2 r = Machine.exec_body ext code b2.2 r.
Proof.
  unfold same_handler. intros [_ Heq%bool_decide_eq_true]%andb_prop.
  rewrite <- (exec_body_unify b1.2), Heq. apply exec_body_unify.
Qed.

(** The two dispatch strategies over handlers that differ only in how
    they end. *)
Lemma run_labels_switch (ids : list string) (lb sb : list block) :
  fst <$> lb = ids → fst <$> sb = ids → NoDup ids →
  Forall2 (fun b1 b2 => same_handler b1 b2 = true) lb sb →
  ∀ fuel r trace,
    Machine.run_labels ext code ids lb fuel r trace = Machine.UndefinedBehaviour
    ∨ Machine.run_labels ext code ids lb fuel r trace =
      Machine.run_switch ext code ids sb fuel r trace.
Proof.
  intros Hlb Hsb Hnd Hsame fuel.
  induction fuel as [|fuel IH]; intros r trace; simpl; [by right|].
  destruct (Machine.fetch code (Machine.ip r)) as [v|]; [|by left].
  destruct (Machine.goto_target ids lb v) as [body|] eqn:Hg; [|by left].
  destruct (goto_target_inv ids lb Hlb Hnd v body Hg) as (n & b & -> & Hb & ->).
  destruct (Forall2_lookup_l _ _ _ _ _ Hsame Hb) as (b' & Hb' & Hbb').
  rewrite (switch_target_lookup ids sb Hsb Hnd n b' Hb').
  rewrite <- (same_handler_exec b b' r Hbb').
  destruct (Machine.exec_body ext code b.2 r); auto.
Qed.
End Simulation.

Lemma mapM_last {A B} (f : A → option B) (l : list A) (k : list B) (x : A) :
  mapM f l = Some k → last l = Some x → ∃ y, last k = Some y ∧ f x = Some y.
Proof.
  intros Hm%mapM_Some. induction Hm as [|a b l k Hab Hm IH]; [done|].
  destruct Hm as [|a' b' l' k' ? ?]; simpl in *.
  - intros [= ->]. eauto.
  - auto.
Qed.

(** A handler of the disassembler moves the instruction pointer as the
    handler of the engine does when [call] skips its block. *)
Lemma dis_matches_exec (code : list Z) (be bd : block) (r : Machine.regs unit) :
  dis_matches be bd = true →
  Machine.exec_body no_ext code bd.2 r = Machine.Undefined ∨
  Machine.exec_body no_ext code bd.2 r = Machine.exec_body skip_ext code be.2 r.
Proof.
  destruct be as [l1 body1], bd as [l2 body2], r as [ip p []].
  unfold dis_matches. cbn [fst snd].
  intros [_ H]%andb_prop.
  repeat match type of H with
         | match ?x with _ => _ end = true => destruct x; try discriminate H
         end;
    try (by right);
    repeat match type of H with
           | (_ && _) = true => apply andb_prop in H as [H ?]
           end;
    repeat match goal with
           | E : (_ =? _) = true |- _ => apply Z.eqb_eq in E
           | E : bool_decide _ = true |- _ => apply bool_decide_eq_true in E
           | E : String.eqb _ _ = true |- _ => apply String.eqb_eq in E
           | E : negb (String.eqb _ _) = true |- _ => apply negb_true_iff in E
           | E : is_next ?e = true |- _ => destruct e; try discriminate E; clear E
           end;
    subst; cbn;
    (destruct (mapM _ _) as [args|] eqn:Hargs; [|by left]).
  (* call: the disassembler skips the block *)
  all: try (match goal with E : last _ = Some _ |- _ =>
              destruct (mapM_last _ _ _ _ Hargs E) as (w & Hlast & Hw) end;
            rewrite Hw, Hlast;
            destruct (Machine.dis_code_defined _ _ _); [|by left];
            cbn; rewrite Hw; by right).
  (* any other operation *)
  all: unfold skip_ext;
    match goal with E : String.eqb _ _ = false |- _ => rewrite E end;
    by right.
Qed.

(** The disassembler and an engine whose [call] skips its block. *)
Lemma run_dis_engine (code : list Z) (ids : list string) (lbe lbd : list block) :
  fst <$> lbe = ids → fst <$> lbd = ids → NoDup ids →
  Forall2 (fun be bd => dis_matches be bd = true) lbe lbd →
  ∀ fuel r trace,
    Machine.run_labels no_ext code ids lbd fuel r trace = Machine.UndefinedBehaviour
    ∨ Machine.run_labels no_ext code ids lbd fuel r trace =
      Machine.run_labels skip_ext code ids lbe fuel r trace.
Proof.
  intros Hlbe Hlbd Hnd Hm fuel.
  induction fuel as [|fuel IH]; intros r trace; simpl; [by right|].
  destruct (Machine.fetch code (Machine.ip r)) as [v|]; [|by left].
  destruct (Machine.goto_target ids lbd v) as [body|] eqn:Hg; [|by left].
  destruct (goto_target_inv ids lbd Hlbd Hnd v body Hg) as (n & bd & -> & Hbd & ->).
  destruct (Forall2_lookup_r _ _ _ _ _ Hm Hbd) as (be & Hbe & Hmatch).
  rewrite (goto_target_lookup ids lbe Hlbe Hnd n be Hbe).
  destruct (dis_matches_exec code be bd r Hmatch) as [Hu|He].
  - rewrite Hu. by left.
  - rewrite He. destruct (Machine.exec_body skip_ext code be.2 r); auto.
Qed.

(** Generation succeeds on the opcode table; the four generated functions
    have one handler per identifier, in table order. *)
Lemma generation_succeeds :
  ∃ ids lb sb dl ds,
    opcode_ids opcodes = Some ids ∧
    label_blocks opcodes = Some lb ∧ switch_blocks opcodes = Some sb ∧
    dis_label_blocks opcodes = Some dl ∧ dis_switch_blocks opcodes = Some ds ∧
    NoDup ids ∧
    fst <$> lb = ids ∧ fst <$> sb = ids ∧ fst <$> dl = ids ∧ fst <$> ds = ids ∧
    Forall2 (fun b1 b2 => same_handler b1 b2 = true) lb sb ∧
    Forall2 (fun b1 b2 => same_handler b1 b2 = true) dl ds ∧
    Forall2 (fun be bd => dis_matches be bd = true) lb dl.
Proof.
  do 5 eexists.
  repeat match goal with |- _ ∧ _ => split end;
    try (vm_compute; reflexivity); by_compute.
Qed.

Lemma label_block_at (n : nat) (b : block) (lb : list block) :
  label_blocks opcodes = Some lb →
  label_blocks opcodes ≫= (fun l => l !! n) = Some b → lb !! n = Some b.
Proof. intros ->. done. Qed.

Lemma dis_block_at (n : nat) (b : block) (dl : list block) :
  dis_label_blocks opcodes = Some dl →
  dis_label_blocks opcodes ≫= (fun l => l !! n) = Some b → dl !! n = Some b.
Proof. intros ->. done. Qed.

(** What a generated handler does: [halt] returns; any other handler
    advances the pointer by 1 + operand-count, reads the operand words and
    invokes the operation, whose result is the next pointer. *)
Lemma dispatch_handler_exec {S : Type}
    (ext : string → list Z → option (list Z) → Z → S → option (Z * S))
    (code : list Z) (next : cstmt) (o : opcode) (b : block) :
  is_next next = true → dispatch_handler next o = Some b →
  handler_step ext code o b.
Proof.
  intros Hnext Hb. unfold handler_step. unfold dispatch_handler in Hb.
  destruct (get_opcode (o1 o) (o2 o)) as [oc|]; [|done]. simpl in Hb.
  destruct (String.eqb oc "halt") eqn:Hhalt.
  - injection Hb as <-. exists "", None. intros r. simpl. by rewrite Hhalt.
  - destruct (get_cpp_func (o1 o) (o2 o)) as [name|]; [|done].
    injection Hb as <-.
    exists name, (if bool_decide (oc ∈ ["ret"; "call"]) then Some code else None).
    intros r. cbn [fst snd]. rewrite Hhalt. simpl.
    destruct (mapM _ _) as [args|]; [|done].
    destruct (ext _ _ _ _ _) as [[ip' s']|]; [|done].
    destruct next; try discriminate Hnext; reflexivity.
Qed.

(** ** Well-formed streams *)

Lemma fetch_app (pre rest : list Z) (k : nat) :
  Machine.fetch (pre ++ rest) (Z.of_nat (length pre) + Z.of_nat k) = rest !! k.
Proof.
  unfold Machine.fetch.
  destruct (Z.ltb_spec (Z.of_nat (length pre) + Z.of_nat k) 0); [lia|].
  replace (Z.to_nat (Z.of_nat (length pre) + Z.of_nat k))
    with (length pre + k)%nat by lia.
  rewrite lookup_app_r by lia. f_equal. lia.
Qed.

(** The operand words of an instruction, as a handler reads them. *)
Lemma fetch_operands (pre : list Z) (op : Z) (operands rest : list Z) (n : Z) :
  Z.of_nat (length operands) = n →
  mapM (fun k => Machine.fetch (pre ++ op :: operands ++ rest)
                   (Z.of_nat (length pre) + k))
       ((fun i => i + 1) <$> Py.range n)
  = Some operands.
Proof.
  intros <-. apply mapM_Some. apply Forall2_same_length_lookup_2.
  - unfold Py.range. rewrite !length_fmap, length_seq. lia.
  - intros i x y Hx Hy. unfold Py.range in Hx.
    rewrite !list_lookup_fmap in Hx.
    destruct (seq 0 (Z.to_nat (Z.of_nat (length operands))) !! i) as [j|] eqn:Hj;
      [|done].
    apply lookup_seq in Hj as [-> _]. simpl in Hx. injection Hx as <-.
    replace (Z.of_nat i + 1) with (Z.of_nat (S i)) by lia.
    rewrite fetch_app. simpl. by apply lookup_app_l_Some.
Qed.

Lemma fetch_last_operand (pre : list Z) (op w : Z) (operands rest : list Z) :
  last operands = Some w →
  Machine.fetch (pre ++ op :: operands ++ rest)
    (Z.of_nat (length pre) + Z.of_nat (length operands)) = Some w.
Proof.
  intros Hlast. rewrite fetch_app. rewrite last_lookup in Hlast.
  destruct operands as [|x operands]; [done|]. simpl in Hlast.
  exact (lookup_app_l_Some (x :: operands) rest _ _ Hlast).
Qed.

Lemma stream_cons (i : instr) (prog : list instr) :
  stream (i :: prog) = encode i ++ stream prog.
Proof. unfold stream. simpl. by rewrite <- app_assoc. Qed.

Section WellFormed.
Variable ids : list string.
Variable dl : list block.
Hypothesis Hdl : dis_label_blocks opcodes = Some dl.
Hypothesis Ldl : fst <$> dl = ids.
Hypothesis Hnd : NoDup ids.

(** The disassembler on a well-formed stream, started at an instruction
    boundary, decodes at every following boundary and returns at the final
    [halt]. *)
Lemma run_dis_wf (prog : list instr) :
  ∀ (pre : list Z) (trace : list Z) (fuel : nat) (p : Z),
    Forall wf_instr prog →
    Z.of_nat (length (pre ++ stream prog)) < 2 ^ 64 →
    (length prog < fuel)%nat →
    Machine.run_labels no_ext (pre ++ stream prog) ids dl fuel
      (Machine.Regs (Z.of_nat (length pre)) p ()) trace
    = Machine.Halted (trace ++ boundaries (Z.of_nat (length pre)) prog)
                     (Z.of_nat (length (pre ++ stream prog)) - 1).
Proof.
  induction prog as [|i prog IH]; intros pre trace fuel p Hwf Hmax Hfuel;
    (destruct fuel as [|fuel]; [simpl in Hfuel; lia|]).
  - (* halt *)
    assert (H0 : dl !! 0%nat = Some ("halt", [Return]))
      by (apply dis_block_at; [done | vm_compute; reflexivity]).
    apply (goto_target_lookup ids dl Ldl Hnd) in H0.
    unfold stream. cbn [fmap list_fmap mjoin list_join app].
    cbn [Machine.run_labels Machine.ip].
    pose proof (fetch_app pre [0] 0) as Hf. rewrite Z.add_0_r in Hf.
    rewrite Hf. cbn [lookup list_lookup]. change (Z.of_nat 0) with 0 in H0.
    rewrite H0. cbn. rewrite length_app. simpl.
    f_equal. lia.
  - (* an instruction *)
    apply Forall_cons in Hwf as [Hi Hwf].
    destruct Hi as (o & oc & Ho & Hoc & Hhalt & Hlen & Hblock).
    destruct i as [op operands blk]. cbn [i_opcode i_operands i_block] in *.
    pose proof (proj1 (mapM_Some _ _ _) Hdl) as Hall.
    destruct (Forall2_lookup_l _ _ _ _ _ Hall Ho) as (b & Hb & Hgen).
    apply (goto_target_lookup ids dl Ldl Hnd) in Hb.
    unfold disassemble_handler in Hgen. rewrite Hoc in Hgen. simpl in Hgen.
    apply String.eqb_neq in Hhalt. rewrite Hhalt in Hgen.
    injection Hgen as <-. cbn [snd] in Hb.
    rewrite stream_cons in *. unfold encode in *.
    cbn [i_opcode i_operands i_block] in *.
    set (L := Z.of_nat (length pre)).
    assert (Hcode : pre ++ (Z.of_nat op :: operands ++ blk) ++ stream prog
                    = pre ++ Z.of_nat op :: operands ++ (blk ++ stream prog))
      by (simpl; by rewrite <- app_assoc).
    assert (Htotal : Z.of_nat (length (pre ++ (Z.of_nat op :: operands ++ blk)
                                        ++ stream prog))
                     = L + 1 + o3 o + Z.of_nat (length blk)
                       + Z.of_nat (length (stream prog))).
    { rewrite !length_app. simpl. rewrite length_app. subst L. lia. }
    assert (Hf : Machine.fetch
              (pre ++ (Z.of_nat op :: operands ++ blk) ++ stream prog) L
            = Some (Z.of_nat op)).
    { pose proof (fetch_app pre
                    ((Z.of_nat op :: operands ++ blk) ++ stream prog) 0) as Hf.
      rewrite Z.add_0_r in Hf. exact Hf. }
    assert (Hwrap1 : Machine.wrap (L + (o3 o + 1)) = L + o3 o + 1).
    { unfold Machine.wrap. rewrite Z.mod_small; lia. }
    assert (Hargs : mapM (fun k => Machine.fetch
                       (pre ++ (Z.of_nat op :: operands ++ blk) ++ stream prog)
                       (L + k)) (operand_offsets o) = Some operands).
    { rewrite Hcode. apply fetch_operands. done. }
    assert (Hfw : ∀ w, last operands = Some w →
              Machine.fetch
                (pre ++ (Z.of_nat op :: operands ++ blk) ++ stream prog)
                (L + o3 o) = Some w).
    { intros w Hlast. rewrite Hcode, <- Hlen. by apply fetch_last_operand. }
    set (code := pre ++ (Z.of_nat op :: operands ++ blk) ++ stream prog) in *.
    set (offs := operand_offsets o) in *.
    cbn [Machine.run_labels Machine.ip].
    rewrite Hf, Hb.
    (* the handler *)
    assert (Hexec : Machine.exec_body no_ext code
               (SaveIp :: Advance (o3 o + 1)
                :: Print oc offs
                     (if String.eqb oc "call" then Some (o3 o) else None)
                :: (if String.eqb oc "call" then [SkipBlock (o3 o)] else [])
                ++ [GotoNext])
               (Machine.Regs L p ())
             = Machine.Dispatch
                 (Machine.Regs (L + 1 + o3 o + Z.of_nat (length blk)) L ())).
    { destruct (String.eqb oc "call").
      - destruct Hblock as (w & Hlast & Hw). specialize (Hfw w Hlast).
        cbn. rewrite Hwrap1. cbn. rewrite Hargs, Hfw.
        assert (Hwrap2 : Machine.wrap (L + o3 o + 1 + Z.shiftr w 2)
                         = L + 1 + o3 o + Z.of_nat (length blk)).
        { unfold Machine.wrap. rewrite Z.mod_small; lia. }
        unfold Machine.dis_code_defined. rewrite Hwrap2.
        replace (L + 1 + o3 o + Z.of_nat (length blk) <=?
                 Z.of_nat (length code))
          with true by (symmetry; apply Z.leb_le; lia).
        rewrite orb_true_r. cbn. rewrite Hfw, Hwrap2. reflexivity.
      - subst blk. cbn. rewrite Hwrap1. cbn. rewrite Hargs.
        simpl. f_equal. f_equal. lia. }
    rewrite Hexec.
    (* the rest of the stream *)
    subst code. rewrite app_assoc.
    replace (L + 1 + o3 o + Z.of_nat (length blk))
      with (Z.of_nat (length (pre ++ Z.of_nat op :: operands ++ blk)))
      by (rewrite length_app; simpl; rewrite length_app; subst L; lia).
    rewrite (IH _ (trace ++ [L]) fuel L Hwf).
    + rewrite <- app_assoc. simpl. f_equal. f_equal. f_equal. f_equal.
      rewrite !length_app. simpl. rewrite length_app. subst L. lia.
    + rewrite <- app_assoc. exact Hmax.
    + simpl in Hfuel. lia.
Qed.
End WellFormed.

(** On a well-formed stream both forms of the disassembler, and both engines
    when [call] skips its block, decode exactly at the instruction
    boundaries and return at the final [halt]. *)
Lemma wf_stream_trajectory (prog : list instr) (fuel : nat) :
  Forall wf_instr prog →
  Z.of_nat (length (stream prog)) < 2 ^ 64 →
  (length prog < fuel)%nat →
  let r := Machine.Halted (boundaries 0 prog) (stream_end prog) in
  disassemble_labels (stream prog) fuel = r ∧
  disassemble_switch (stream prog) fuel = r ∧
  dispatch_labels skip_ext (stream prog) fuel () = r ∧
  dispatch_switch skip_ext (stream prog) fuel () = r.
Proof.
  intros Hwf Hmax Hfuel r. subst r.
  destruct generation_succeeds as
    (ids & lb & sb & dl & ds & Hids & Hlb & Hsb & Hdl & Hds & Hnd &
     Llb & Lsb & Ldl & Lds & Hls & Hdd & Hed).
  unfold dispatch_labels, dispatch_switch, disassemble_labels,
    disassemble_switch.
  rewrite Hids, Hlb, Hsb, Hdl, Hds.
  pose proof (run_dis_wf ids dl Hdl Ldl Hnd prog [] [] fuel 0 Hwf Hmax Hfuel)
    as Hdis.
  cbn [app length] in Hdis. change (Z.of_nat 0) with 0 in Hdis.
  fold (stream_end prog) in Hdis.
  assert (Hlab : Machine.run_labels skip_ext (stream prog) ids lb fuel
                   (Machine.Regs 0 0 ()) []
                 = Machine.Halted (boundaries 0 prog) (stream_end prog)).
  { destruct (run_dis_engine (stream prog) ids lb dl Llb Ldl Hnd Hed fuel
                (Machine.Regs 0 0 ()) []) as [Hu|He]; congruence. }
  repeat split.
  - exact Hdis.
  - destruct (run_labels_switch no_ext (stream prog) ids dl ds Ldl Lds Hnd Hdd
                fuel (Machine.Regs 0 0 ()) []) as [Hu|He]; congruence.
  - exact Hlab.
  - destruct (run_labels_switch skip_ext (stream prog) ids lb sb Llb Lsb Hnd Hls
                fuel (Machine.Regs 0 0 ()) []) as [Hu|He]; congruence.
Qed.

Lemma handlers_step {S : Type}
    (ext : string → list Z → option (list Z) → Z → S → option (Z * S))
    (code : list Z) (next : cstmt) (blocks : list block) :
  is_next next = true → mapM (dispatch_handler next) opcodes = Some blocks →
  Forall2 (handler_step ext code) opcodes blocks.
Proof.
  intros Hnext Hb%mapM_Some. eapply Forall2_impl; [exact Hb|].
  intros o b Ho. by eapply dispatch_handler_exec.
Qed.

(** C1, as stated, fails: on a stream made of a [call] whose last operand
    encodes a block of 4 words, the block and a [halt], the disassembler
    advances from 0 to 7 while the generated code of both engines advances
    from 0 to 3, 1 + operand-count, and decodes the next opcode there. *)
Lemma disassembler_skips_where_engines_do_not :
  let code := [15; 0; 16; 0; 0; 0; 0; 0] in
  get_opcode "call" "" = Some "call" ∧ opcodes !! 15%nat = Some (Op "" "call" "" 2) ∧
  dispatch_labels inert_ext code 10 () = Machine.Halted [0; 3] 3 ∧
  dispatch_switch inert_ext code 10 () = Machine.Halted [0; 3] 3 ∧
  disassemble_labels code 10 = Machine.Halted [0; 7] 7 ∧
  disassemble_switch code 10 = Machine.Halted [0; 7] 7.
Proof. repeat split; vm_compute; reflexivity. Qed.

(** C1, amended. For every instruction stream and every behaviour of the
    external operations, the label-threaded and the switch-based engine give
    the same result with the same instruction-pointer trajectory, unless an
    opcode value without handler is decoded (undefined in the first engine);
    so do the two forms of the disassembler.  In both engines [halt] returns
    without advancing and every other handler advances the pointer by 1 +
    operand-count, then invokes its operation, which leaves the next
    pointer.  The disassembler advances in the same way except at [call],
    where it also skips the block whose length is in the upper bits of the
    last operand: its trajectory is that of the engines when the external
    operations leave the pointer alone except [call], which advances it by
    that length; on a well-formed stream all four then decode exactly at
    the instruction boundaries and return at the final [halt]. *)
Theorem engines_agree {S : Type}
    (ext : string → list Z → option (list Z) → Z → S → option (Z * S))
    (code : list Z) (fuel : nat) (s0 : S) :
  (dispatch_labels ext code fuel s0 = Machine.UndefinedBehaviour ∨
   dispatch_labels ext code fuel s0 = dispatch_switch ext code fuel s0) ∧
  (disassemble_labels code fuel = Machine.UndefinedBehaviour ∨
   disassemble_labels code fuel = disassemble_switch code fuel) ∧
  (disassemble_labels code fuel = Machine.UndefinedBehaviour ∨
   disassemble_labels code fuel = dispatch_labels skip_ext code fuel ()) ∧
  (∃ lb sb,
     label_blocks opcodes = Some lb ∧ switch_blocks opcodes = Some sb ∧
     Forall2 (handler_step ext code) opcodes lb ∧
     Forall2 (handler_step ext code) opcodes sb) ∧
  (∀ prog : list instr,
     Forall wf_instr prog →
     Z.of_nat (length (stream prog)) < 2 ^ 64 →
     (length prog < fuel)%nat →
     let r := Machine.Halted (boundaries 0 prog) (stream_end prog) in
     disassemble_labels (stream prog) fuel = r ∧
     disassemble_switch (stream prog) fuel = r ∧
     dispatch_labels skip_ext (stream prog) fuel () = r ∧
     dispatch_switch skip_ext (stream prog) fuel () = r).
Proof.
  destruct generation_succeeds as
    (ids & lb & sb & dl & ds & Hids & Hlb & Hsb & Hdl & Hds & Hnd &
     Llb & Lsb & Ldl & Lds & Hls & Hdd & Hed).
  split; [|split; [|split; [|split]]].
  - unfold dispatch_labels, dispatch_switch. rewrite Hids, Hlb, Hsb.
    by apply run_labels_switch.
  - unfold disassemble_labels, disassemble_switch. rewrite Hids, Hdl, Hds.
    by apply run_labels_switch.
  - unfold disassemble_labels, dispatch_labels. rewrite Hids, Hdl, Hlb.
    by apply run_dis_engine.
  - exists lb, sb. split; [done|]. split; [done|].
    split; [exact (handlers_step ext code GotoNext lb eq_refl Hlb)
          | exact (handlers_step ext code Break sb eq_refl Hsb)].
  - intros prog. apply wf_stream_trajectory.
Qed.

Lemma engines_agree_witness :
  let prog := [Instr 1 [0; 1] []; Instr 15 [7; 16] [1; 1; 1; 0];
               Instr 2 [0] []] in
  stream prog = [1; 0; 1; 15; 7; 16; 1; 1; 1; 0; 2; 0; 0] ∧
  disassemble_labels (stream prog) 4 = Machine.Halted [0; 3; 10; 12] 12 ∧
  disassemble_switch (stream prog) 4 = Machine.Halted [0; 3; 10; 12] 12 ∧
  dispatch_labels skip_ext (stream prog) 4 () = Machine.Halted [0; 3; 10; 12] 12 ∧
  dispatch_switch skip_ext (stream prog) 4 () = Machine.Halted [0; 3; 10; 12] 12.
Proof.
  intros prog. split; [reflexivity|].
  apply (proj2 (proj2 (proj2 (proj2
           (engines_agree (S := unit) inert_ext [] 4 ())))) prog).
  - assert (Ha : wf_instr (Instr 1 [0; 1] [])).
    { exists (Op "" "alloc" "" 2), "alloc".
      split; [reflexivity|]. split; [reflexivity|]. split; [discriminate|].
      split; reflexivity. }
    assert (Hc : wf_instr (Instr 15 [7; 16] [1; 1; 1; 0])).
    { exists (Op "" "call" "" 2), "call".
      split; [reflexivity|]. split; [reflexivity|]. split; [discriminate|].
      split; [reflexivity|]. exists 16. split; reflexivity. }
    assert (Hw : wf_instr (Instr 2 [0] [])).
    { exists (Op "" "write" "" 1), "write".
      split; [reflexivity|]. split; [reflexivity|]. split; [discriminate|].
      split; reflexivity. }
    repeat (constructor; [assumption|]). constructor.
  - vm_compute. reflexivity.
  - simpl. lia.
Defined.

(** ** Scenarios *)

#[local] Arguments Machine.goto_target : simpl never.
#[local] Arguments Machine.wrap : simpl never.

(** C5, as stated, fails: the pointer is never 6; [halt] returns at 5
    without advancing. *)
Lemma alloc_write_halt_stops_at_5 :
  dispatch_labels inert_ext [1; 0; 1; 2; 0; 0] 10 () = Machine.Halted [0; 3; 5] 5 ∧
  dispatch_switch inert_ext [1; 0; 1; 2; 0; 0] 10 () = Machine.Halted [0; 3; 5] 5 ∧
  Machine.Halted [0; 3; 5] 5 ≠ Machine.Halted [0; 3; 5; 6] 6.
Proof. repeat split; [vm_compute; reflexivity .. | discriminate]. Qed.

(** C5, amended. On the stream alloc (2 operands), write (1 operand), halt,
    with external operations that return and leave the pointer alone, both
    generated engines decode at 0, 3 and 5 and return at [halt] with the
    pointer still 5: [halt] consumes no operand and does not advance. *)
Theorem alloc_write_halt_trajectory {S : Type}
    (ext : string → list Z → option (list Z) → Z → S → option (Z * S))
    (a b c : Z) (s0 : S) (fuel : nat) :
  (∀ args cd ip s, ∃ s', ext "alloc" args cd ip s = Some (ip, s')) →
  (∀ args cd ip s, ∃ s', ext "write" args cd ip s = Some (ip, s')) →
  (3 ≤ fuel)%nat →
  dispatch_labels ext [1; a; b; 2; c; 0] fuel s0 = Machine.Halted [0; 3; 5] 5 ∧
  dispatch_switch ext [1; a; b; 2; c; 0] fuel s0 = Machine.Halted [0; 3; 5] 5.
Proof.
  intros Halloc Hwrite Hfuel.
  destruct generation_succeeds as
    (ids & lb & sb & dl & ds & Hids & Hlb & Hsb & Hdl & Hds & Hnd &
     Llb & Lsb & Ldl & Lds & Hls & Hdd & Hed).
  assert (Hl : dispatch_labels ext [1; a; b; 2; c; 0] fuel s0
               = Machine.Halted [0; 3; 5] 5).
  { unfold dispatch_labels. rewrite Hids, Hlb.
    destruct fuel as [|[|[|fuel]]]; [lia..|].
    assert (H0 : lb !! 0%nat = Some ("halt", [Return]))
      by (apply label_block_at; [done | vm_compute; reflexivity]).
    assert (H1 : lb !! 1%nat =
                 Some ("alloc", [SaveIp; Advance 3;
                                 Invoke "alloc" [1; 2] false; GotoNext]))
      by (apply label_block_at; [done | vm_compute; reflexivity]).
    assert (H2 : lb !! 2%nat =
                 Some ("write", [SaveIp; Advance 2;
                                 Invoke "write" [1] false; GotoNext]))
      by (apply label_block_at; [done | vm_compute; reflexivity]).
    apply (goto_target_lookup ids lb Llb Hnd) in H0, H1, H2.
    cbn [fst snd] in H0, H1, H2.
    destruct (Halloc [a; b] None 3 s0) as [s1 Ha].
    destruct (Hwrite [c] None 5 s1) as [s2 Hw].
    simpl. change (Z.of_nat 1) with 1 in H1. rewrite H1. simpl.
    change (Machine.wrap (0 + 3)) with 3. rewrite Ha. simpl.
    change (Z.of_nat 2) with 2 in H2. rewrite H2. simpl.
    change (Machine.wrap (3 + 2)) with 5. rewrite Hw. simpl.
    change (Z.of_nat 0) with 0 in H0. rewrite H0. reflexivity. }
  split; [exact Hl|].
  destruct (run_labels_switch ext [1; a; b; 2; c; 0] ids lb sb
              Llb Lsb Hnd Hls fuel (Machine.Regs 0 0 s0) []) as [Hu|He].
  - unfold dispatch_labels in Hl. rewrite Hids, Hlb in Hl. congruence.
  - unfold dispatch_labels in Hl. unfold dispatch_switch.
    rewrite Hids, Hlb in Hl. rewrite Hids, Hsb, <- He. exact Hl.
Qed.

Lemma alloc_write_halt_trajectory_witness :
  dispatch_labels (S := unit) inert_ext [1; 0; 1; 2; 0; 0] 3 ()
    = Machine.Halted [0; 3; 5] 5 ∧
  dispatch_switch (S := unit) inert_ext [1; 0; 1; 2; 0; 0] 3 ()
    = Machine.Halted [0; 3; 5] 5.
Proof.
  apply (alloc_write_halt_trajectory inert_ext 0 1 0 () 3).
  - intros args cd ip s. exists s. reflexivity.
  - intros args cd ip s. exists s. reflexivity.
  - lia.
Defined.

(** C6, as stated, fails: after a [call] whose last operand encodes a block
    of 4 words, the generated code of both engines decodes the first word
    of the block (here an [alloc]) as the next opcode; only the disassembler
    skips the block, and it does not skip after [ret]. *)
Lemma engines_do_not_skip_call_block :
  let code := [15; 7; 16; 1; 1; 1; 0; 0] in
  dispatch_labels inert_ext code 10 () = Machine.Halted [0; 3; 6] 6 ∧
  dispatch_switch inert_ext code 10 () = Machine.Halted [0; 3; 6] 6 ∧
  disassemble_labels code 10 = Machine.Halted [0; 7] 7 ∧
  disassemble_labels [14; 16; 0; 0; 0; 0; 0] 10 = Machine.Halted [0; 2] 2.
Proof. repeat split; vm_compute; reflexivity. Qed.

(** C6, amended. In both generated engines the handlers of [call] and
    [ret] advance the pointer by 1 + operand-count and invoke the external
    operation with the operand words and the instruction stream; what the
    pointer is afterwards is what the operation leaves.  In the
    disassembler, [call] (and not [ret]) also advances the pointer by the
    block length held in the upper bits of its last operand: with a block
    of [w >> 2] words inside the stream it goes from 0 to 3 + (w >> 2), so
    to 7 for a block of 4. *)
Theorem call_ret_handlers {S : Type}
    (ext : string → list Z → option (list Z) → Z → S → option (Z * S))
    (f w v : Z) (rest : list Z) (s : S) :
  0 ≤ w → Z.shiftr w 2 ≤ Z.of_nat (length rest) → 3 + Z.shiftr w 2 < 2 ^ 64 →
  let code_call := 15 :: f :: w :: rest in
  let code_ret := 14 :: v :: rest in
  let after (r : option (Z * S)) :=
    match r with
    | Some (ip', s') => Machine.Dispatch (Machine.Regs ip' 0 s')
    | None => Machine.Throw
    end in
  ∃ cl cs cd rl rs rd,
    label_handler 15 = Some cl ∧ switch_handler 15 = Some cs ∧
    dis_label_handler 15 = Some cd ∧
    label_handler 14 = Some rl ∧ switch_handler 14 = Some rs ∧
    dis_label_handler 14 = Some rd ∧
    Machine.exec_body ext code_call cl (Machine.Regs 0 0 s)
      = after (ext "call" [f; w] (Some code_call) 3 s) ∧
    Machine.exec_body ext code_call cs (Machine.Regs 0 0 s)
      = after (ext "call" [f; w] (Some code_call) 3 s) ∧
    Machine.exec_body ext code_ret rl (Machine.Regs 0 0 s)
      = after (ext "ret" [v] (Some code_ret) 2 s) ∧
    Machine.exec_body ext code_ret rs (Machine.Regs 0 0 s)
      = after (ext "ret" [v] (Some code_ret) 2 s) ∧
    Machine.exec_body no_ext code_call cd (Machine.Regs 0 0 ())
      = Machine.Dispatch (Machine.Regs (3 + Z.shiftr w 2) 0 ()) ∧
    Machine.exec_body no_ext code_ret rd (Machine.Regs 0 0 ())
      = Machine.Dispatch (Machine.Regs 2 0 ()).
Proof.
  intros Hw Hlen Hmax code_call code_ret after.
  assert (Hs : 0 ≤ Z.shiftr w 2) by (apply Z.shiftr_nonneg; exact Hw).
  do 6 eexists.
  do 6 (split; [vm_compute; reflexivity|]).
  subst code_call code_ret after. simpl.
  change (Machine.wrap (0 + 3)) with 3. change (Machine.wrap (0 + 2)) with 2.
  repeat split.
  - destruct (ext "call" _ _ _ _) as [[ip' s']|]; reflexivity.
  - destruct (ext "call" _ _ _ _) as [[ip' s']|]; reflexivity.
  - destruct (ext "ret" _ _ _ _) as [[ip' s']|]; reflexivity.
  - destruct (ext "ret" _ _ _ _) as [[ip' s']|]; reflexivity.
  - unfold Machine.dis_code_defined.
    assert (Hwrap : Machine.wrap (3 + Z.shiftr w 2) = 3 + Z.shiftr w 2)
      by (unfold Machine.wrap; apply Z.mod_small; lia).
    rewrite Hwrap.
    replace (3 + Z.shiftr w 2 <=? Z.of_nat (length (15 :: f :: w :: rest)))
      with true by (symmetry; apply Z.leb_le; cbn [length]; lia).
    rewrite orb_true_r. simpl. rewrite Hwrap. reflexivity.
Qed.

Lemma call_ret_handlers_witness :
  ∃ cd, dis_label_handler 15 = Some cd ∧
        Machine.exec_body no_ext [15; 7; 16; 1; 1; 1; 0; 0] cd
          (Machine.Regs 0 0 ())
        = Machine.Dispatch (Machine.Regs 7 0 ()).
Proof.
  destruct (call_ret_handlers (S := unit) inert_ext 7 16 0 [1; 1; 1; 0; 0] ())
    as (cl & cs & cd & rl & rs & rd & _ & _ & Hcd & _ & _ & _ & _ & _ & _ & _
        & Hdis & _).
  - lia.
  - vm_compute. discriminate.
  - vm_compute. reflexivity.
  - exists cd. split; [exact Hcd | exact Hdis].
Defined.

(** ** Strings as lists of characters *)

Lemma length_chars (s : string) : length (chars s) = String.length s.
Proof. induction s; simpl; congruence. Qed.

Lemma len_nonneg (s : string) : 0 ≤ Py.len s.
Proof. unfold Py.len. lia. Qed.

Lemma chars_substring (n m : nat) (s : string) :
  chars (String.substring n m s) = take m (drop n (chars s)).
Proof.
  revert n m. induction s as [|c s IH]; intros [|n] [|m]; simpl;
    rewrite ?IH; reflexivity.
Qed.

Lemma chars_slice (s : string) (a b : Z) :
  chars (Py.slice s a b) = Py.window s a b.
Proof. unfold Py.slice, Py.window. apply chars_substring. Qed.

Lemma get_chars (n : nat) (s : string) : String.get n s = chars s !! n.
Proof.
  revert n. induction s as [|c s IH]; intros [|n]; simpl; auto.
Qed.

Lemma count_nonneg (s : string) (c : ascii) : 0 ≤ Py.count s c.
Proof. induction s as [|x s IH]; simpl; [lia|]. destruct (Ascii.eqb x c); lia. Qed.

Lemma count_zero (s : string) (c : ascii) : c ∉ chars s → Py.count s c = 0.
Proof.
  induction s as [|x s IH]; simpl; [done|]. intros Hc.
  apply not_elem_of_cons in Hc as [Hne Hc].
  destruct (Ascii.eqb_spec x c); [congruence|]. rewrite IH; auto.
Qed.

Lemma count_pos_elem (s : string) (c : ascii) :
  Py.count s c ≠ 0 → c ∈ chars s.
Proof.
  intros Hc. destruct (decide (c ∈ chars s)) as [|Hn]; [done|].
  by apply count_zero in Hn.
Qed.

(** ** [find] and [rfind] *)

Lemma find_list_notin (c : ascii) (l : list ascii) (k : Z) :
  c ∉ l → Py.find_list c l k = -1.
Proof.
  revert k. induction l as [|x l IH]; intros k Hc; simpl; [done|].
  apply not_elem_of_cons in Hc as [Hne Hc].
  destruct (Ascii.eqb_spec x c); [congruence|]. auto.
Qed.

Lemma find_list_found (c : ascii) (l : list ascii) (k : Z) :
  0 ≤ k → Py.find_list c l k ≠ -1 →
  ∃ n : nat, Py.find_list c l k = k + Z.of_nat n ∧ l !! n = Some c ∧
             ∀ m : nat, (m < n)%nat → l !! m ≠ Some c.
Proof.
  revert k. induction l as [|x l IH]; intros k Hk Hf; simpl in *; [done|].
  destruct (Ascii.eqb_spec x c) as [->|Hne].
  - exists 0%nat. split; [lia|]. split; [done|]. intros m ?. lia.
  - destruct (IH (k + 1)) as (n & Hn & Hl & Hm); [lia|done|].
    exists (S n). split; [lia|]. split; [done|].
    intros [|m] ?; simpl; [congruence|]. apply Hm. lia.
Qed.

Lemma find_list_none (c : ascii) (l : list ascii) (k : Z) :
  0 ≤ k → Py.find_list c l k = -1 → c ∉ l.
Proof.
  revert k. induction l as [|x l IH]; intros k Hk Hf; simpl in *.
  - apply not_elem_of_nil.
  - destruct (Ascii.eqb_spec x c) as [->|Hne]; [lia|].
    apply not_elem_of_cons. split; [congruence|]. apply (IH (k + 1)); [lia|done].
Qed.

Lemma rfind_list_notin (c : ascii) (l : list ascii) (k : Z) :
  c ∉ l → Py.rfind_list c l k = -1.
Proof.
  revert k. induction l as [|x l IH]; intros k Hc; simpl; [done|].
  apply not_elem_of_cons in Hc as [Hne Hc]. rewrite IH by done. simpl.
  destruct (Ascii.eqb_spec x c); [congruence|]. done.
Qed.

Lemma rfind_list_in (c : ascii) (l : list ascii) (k : Z) :
  0 ≤ k → c ∈ l → Py.rfind_list c l k ≠ -1.
Proof.
  revert k. induction l as [|x l IH]; intros k Hk Hin; simpl.
  - by apply elem_of_nil in Hin.
  - destruct (Z.eqb_spec (Py.rfind_list c l (k + 1)) (-1)) as [Hr|Hr]; [|done].
    apply elem_of_cons in Hin as [->|Hin].
    + rewrite Ascii.eqb_refl. lia.
    + exfalso. apply (IH (k + 1)); [lia|done|done].
Qed.

Lemma rfind_list_found (c : ascii) (l : list ascii) (k : Z) :
  0 ≤ k → Py.rfind_list c l k ≠ -1 →
  ∃ n : nat, Py.rfind_list c l k = k + Z.of_nat n ∧ l !! n = Some c ∧
             ∀ m : nat, (n < m)%nat → l !! m ≠ Some c.
Proof.
  revert k. induction l as [|x l IH]; intros k Hk Hf; simpl in *; [done|].
  destruct (Z.eqb_spec (Py.rfind_list c l (k + 1)) (-1)) as [Hr|Hr].
  - destruct (Ascii.eqb_spec x c) as [->|Hne]; [|done].
    exists 0%nat. split; [lia|]. split; [done|].
    intros [|m] ? Hm; [lia|]. simpl in Hm.
    apply (rfind_list_in c l (k + 1)); [lia| |done].
    eapply list_elem_of_lookup_2; eauto.
  - destruct (IH (k + 1)) as (n & Hn & Hl & Hm); [lia|done|].
    exists (S n). split; [lia|]. split; [done|].
    intros [|m] ?; [lia|]. simpl. apply Hm. lia.
Qed.

Lemma norm_0 (n : Z) : 0 ≤ n → Py.norm n 0 = 0.
Proof. intros Hn. unfold Py.norm. change (0 <? 0) with false. cbv iota. lia. Qed.

Lemma window_0 (s : string) (b : Z) :
  0 ≤ b → Py.window s 0 b = take (Z.to_nat b) (chars s).
Proof.
  intros Hb. unfold Py.window. pose proof (len_nonneg s) as Hn.
  rewrite norm_0 by done. change (Z.to_nat 0) with 0%nat. rewrite drop_0.
  unfold Py.norm.
  destruct (Z.ltb_spec b 0); [lia|]. rewrite Z.sub_0_r.
  destruct (Z.le_ge_cases b (Py.len s)).
  - by rewrite Z.min_l.
  - rewrite Z.min_r by done. unfold Py.len in *. rewrite Nat2Z.id.
    rewrite (take_ge _ (String.length s)) by (rewrite length_chars; lia).
    rewrite take_ge by (rewrite length_chars; lia). done.
Qed.

Lemma window_full (s : string) : Py.window s 0 (Py.len s) = chars s.
Proof.
  rewrite window_0 by apply len_nonneg. unfold Py.len. rewrite Nat2Z.id.
  apply take_ge. rewrite length_chars. lia.
Qed.

Lemma get_nonneg (s : string) (j : Z) :
  0 ≤ j → Py.get s j = chars s !! Z.to_nat j.
Proof.
  intros Hj. unfold Py.get. destruct (Z.ltb_spec j 0); [lia|].
  destruct (Z.ltb_spec j 0); [lia|]. simpl.
  destruct (Z.leb_spec (Py.len s) j) as [Hge|Hlt].
  - symmetry. apply lookup_ge_None. rewrite length_chars. unfold Py.len in Hge. lia.
  - apply get_chars.
Qed.

Lemma len_slice_0 (s : string) (i : Z) :
  0 ≤ i ≤ Py.len s → Py.len (Py.slice s 0 i) = i.
Proof.
  intros Hi. unfold Py.len at 1.
  rewrite <- length_chars, chars_slice, window_0 by lia.
  rewrite length_take, length_chars. unfold Py.len in Hi. lia.
Qed.

Lemma length_append (a b : string) :
  String.length (a +:+ b) = (String.length a + String.length b)%nat.
Proof. induction a as [|c a IH]; simpl; [reflexivity | congruence]. Qed.

Lemma len_append (a b : string) : Py.len (a +:+ b) = Py.len a + Py.len b.
Proof. unfold Py.len. rewrite length_append. lia.
Qed.

Lemma len_spaces (n : Z) : 0 ≤ n → Py.len (Py.spaces n) = n.
Proof.
  intros Hn. unfold Py.len, Py.spaces.
  rewrite <- length_chars, String.list_ascii_of_string_of_list_ascii.
  rewrite length_replicate. lia.
Qed.

Lemma substring_full (s : string) : String.substring 0 (String.length s) s = s.
Proof. induction s as [|c s IH]; simpl; congruence. Qed.

Lemma slice_from_0 (s : string) : Py.slice_from s 0 = s.
Proof.
  unfold Py.slice_from, Py.slice. pose proof (len_nonneg s).
  rewrite norm_0 by done. unfold Py.norm.
  destruct (Z.ltb_spec (Py.len s) 0); [lia|].
  rewrite Z.min_id, Z.sub_0_r. unfold Py.len. rewrite Nat2Z.id.
  apply substring_full.
Qed.

(** [s.rfind(c, 0, b)], when it finds, gives the last [c] below [b]. *)
Lemma rfind_found (s : string) (c : ascii) (b : Z) :
  0 ≤ b → Py.rfind s c 0 b ≠ -1 →
  0 ≤ Py.rfind s c 0 b < b ∧ Py.rfind s c 0 b < Py.len s ∧
  Py.get s (Py.rfind s c 0 b) = Some c ∧
  ∀ j, Py.rfind s c 0 b < j < b → Py.get s j ≠ Some c.
Proof.
  intros Hb Hf. unfold Py.rfind in *.
  rewrite norm_0, window_0 in * by (done || apply len_nonneg).
  destruct (rfind_list_found c _ 0 (Z.le_refl 0) Hf) as (n & Hn & Hl & Hm).
  rewrite Hn. apply lookup_take_Some in Hl as [Hl Hlt].
  pose proof (lookup_lt_Some _ _ _ Hl) as Hlen. rewrite length_chars in Hlen.
  unfold Py.len. repeat split; try lia.
  - rewrite get_nonneg, Z.add_0_l, Nat2Z.id by lia. done.
  - intros j Hj. rewrite get_nonneg by lia. intros Hc.
    apply (Hm (Z.to_nat j)); [lia|].
    rewrite lookup_take_lt by lia. done.
Qed.

Lemma rfind_none (s : string) (c : ascii) (b : Z) :
  0 ≤ b → Py.rfind s c 0 b = -1 →
  ∀ j, 0 ≤ j < b → Py.get s j ≠ Some c.
Proof.
  intros Hb Hf j Hj. unfold Py.rfind in Hf.
  rewrite norm_0, window_0 in Hf by (done || apply len_nonneg).
  rewrite get_nonneg by lia. intros Hc.
  apply (rfind_list_in c (take (Z.to_nat b) (chars s)) 0); [lia| |done].
  apply list_elem_of_lookup. exists (Z.to_nat j).
  rewrite lookup_take_lt by lia. done.
Qed.

(** [s.find(c)], when it finds, gives the first [c]. *)
Lemma find0_found (s : string) (c : ascii) :
  Py.find0 s c ≠ -1 →
  0 ≤ Py.find0 s c < Py.len s ∧ Py.get s (Py.find0 s c) = Some c ∧
  ∀ j, 0 ≤ j < Py.find0 s c → Py.get s j ≠ Some c.
Proof.
  intros Hf. unfold Py.find0, Py.find in *.
  rewrite norm_0, window_full in * by apply len_nonneg.
  destruct (find_list_found c _ 0 (Z.le_refl 0) Hf) as (n & Hn & Hl & Hm).
  rewrite Hn. pose proof (lookup_lt_Some _ _ _ Hl) as Hlen.
  rewrite length_chars in Hlen. unfold Py.len. repeat split; try lia.
  - rewrite get_nonneg, Z.add_0_l, Nat2Z.id by lia. done.
  - intros j Hj. rewrite get_nonneg by lia. apply Hm. lia.
Qed.

Lemma find0_none (s : string) (c : ascii) : Py.find0 s c = -1 → c ∉ chars s.
Proof.
  unfold Py.find0, Py.find. rewrite norm_0, window_full by apply len_nonneg.
  apply find_list_none. lia.
Qed.

(** [s.find(c, 0, b)], when it finds, finds below [b]. *)
Lemma find_below (s : string) (c : ascii) (b : Z) :
  0 ≤ b → 0 ≤ Py.find s c 0 b → Py.find s c 0 b < b.
Proof.
  intros Hb Hf. unfold Py.find in *.
  rewrite norm_0, window_0 in * by (done || apply len_nonneg).
  destruct (find_list_found c (take (Z.to_nat b) (chars s)) 0) as (n & Hn & Hl & _);
    [lia|lia|].
  rewrite Hn. apply lookup_take_Some in Hl as [_ Hlt]. lia.
Qed.

(** With nothing to find, the window does not matter. *)
Lemma window_subseteq (s : string) (a b : Z) : Py.window s a b ⊆ chars s.
Proof.
  unfold Py.window. etrans; [apply subseteq_take|apply subseteq_drop].
Qed.

Lemma find_notin (s : string) (c : ascii) (a b : Z) :
  c ∉ chars s → Py.find s c a b = -1.
Proof.
  intros Hc. apply find_list_notin. intros Hin. apply Hc.
  by apply (window_subseteq s a b).
Qed.

Lemma rfind_notin (s : string) (c : ascii) (a b : Z) :
  c ∉ chars s → Py.rfind s c a b = -1.
Proof.
  intros Hc. apply rfind_list_notin. intros Hin. apply Hc.
  by apply (window_subseteq s a b).
Qed.

Lemma count_slice_notin (s : string) (c : ascii) (a b : Z) :
  c ∉ chars s → Py.count (Py.slice s a b) c = 0.
Proof.
  intros Hc. apply count_zero. rewrite chars_slice. intros Hin. apply Hc.
  by apply (window_subseteq s a b).
Qed.

(** ** [reflow_lines]: a line without a space *)

Lemma count_elem (s : string) (c : ascii) : c ∈ chars s → 0 < Py.count s c.
Proof.
  induction s as [|x s IH]; simpl; [by intros ?%elem_of_nil|].
  intros [Heq|Hin]%elem_of_cons.
  - rewrite <- Heq, Ascii.eqb_refl. pose proof (count_nonneg s c). lia.
  - specialize (IH Hin). destruct (Ascii.eqb x c); lia.
Qed.

(** Without a space and without a quote in the remaining text, the loop body
    leaves the text as it is and does not widen the line. *)
Lemma reflow_step_stuck (st : reflow_state) :
  space ∉ chars (cur st) → dquote ∉ chars (cur st) →
  cur (reflow_step st) = cur st ∧ size (reflow_step st) ≤ size st.
Proof.
  intros Hsp Hq.
  assert (Hi : break_index (cur st) (size st) = -1).
  { unfold break_index, break_candidate.
    rewrite (rfind_notin _ _ _ _ Hsp). simpl.
    unfold Py.find0. rewrite (find_notin _ _ _ _ Hsp).
    rewrite (count_slice_notin _ _ _ _ Hq). reflexivity. }
  unfold reflow_step. rewrite Hi.
  change (-1 + 1) with 0. rewrite slice_from_0.
  destruct (_ =? 1); [|simpl; split; [done|lia]].
  destruct (Z.leb_spec 0 (Py.find (cur st) lbrace 0 (-1))) as [Hj|Hj].
  - simpl. split; [done|lia].
  - destruct (Z.leb_spec 0 (Py.find (cur st) lparen 0 (-1))) as [Hk|Hk];
      simpl; split; (done || lia).
Qed.

Lemma reflow_loop_stuck (fuel : nat) (st : reflow_state) :
  space ∉ chars (cur st) → dquote ∉ chars (cur st) →
  size st < Py.len (cur st) → reflow_loop fuel st = None.
Proof.
  revert st. induction fuel as [|fuel IH]; intros st Hsp Hq Hlen; simpl;
    (destruct (Z.ltb_spec (size st) (Py.len (cur st))); [|lia]); [done|].
  destruct (reflow_step_stuck st Hsp Hq) as [Hcur Hsize].
  apply IH; rewrite Hcur; (done || lia).
Qed.

(** C10, the defect. A line with no space and no double quote that is longer
    than the width: the loop never ends, whatever the fuel. *)
Theorem reflow_lines_diverges (s : string) (depth : Z) (fuel : nat) :
  Py.find0 s space = -1 → Py.count s dquote = 0 →
  MAX_COL - depth * TABSIZE < Py.len s →
  reflow_lines fuel s depth = None.
Proof.
  intros Hsp Hq Hlen. unfold reflow_lines.
  destruct (Z.ltb_spec (Py.len s) (MAX_COL - depth * TABSIZE)); [lia|].
  apply reflow_loop_stuck; simpl.
  - by apply find0_none.
  - intros Hin%count_elem. lia.
  - done.
Qed.

Lemma reflow_lines_diverges_witness :
  reflow_lines 1000 (String.string_of_list_ascii (replicate 81 "a"%char)) 0
  = None.
Proof.
  apply reflow_lines_diverges; [reflexivity | reflexivity | reflexivity].
Defined.

(** ** [reflow_lines]: where a line is broken *)

(** The candidate: the last space below the width or, failing that, the
    first space of the text, which is then at or beyond the width. *)
Lemma break_candidate_spec (cur : string) (size : Z) :
  0 ≤ size →
  let c := break_candidate cur size in
  (Py.rfind cur space 0 size ≠ -1 →
     0 ≤ c < size ∧ c < Py.len cur ∧ Py.get cur c = Some space ∧
     ∀ j, c < j < size → Py.get cur j ≠ Some space) ∧
  (Py.rfind cur space 0 size = -1 →
     c = Py.find0 cur space ∧
     (c ≠ -1 →
        size ≤ c < Py.len cur ∧ Py.get cur c = Some space ∧
        ∀ j, 0 ≤ j < c → Py.get cur j ≠ Some space)).
Proof.
  intros Hsize c. subst c. unfold break_candidate. split.
  - intros Hf. destruct (Z.eqb_spec (Py.rfind cur space 0 size) (-1)); [done|].
    destruct (rfind_found cur space size Hsize Hf) as (? & ? & ? & ?). auto.
  - intros Hf. rewrite Hf. simpl. split; [done|]. intros Hc.
    destruct (find0_found cur space Hc) as (Hr & Hg & Hm).
    repeat split; try done; try lia.
    destruct (Z.le_gt_cases size (Py.find0 cur space)) as [|Hlt]; [done|].
    exfalso. apply (rfind_none cur space size Hsize Hf (Py.find0 cur space));
      [lia|done].
Qed.

Lemma odd_count_rfind (cur : string) (c : Z) :
  Py.count (Py.slice cur 0 c) dquote mod 2 = 1 →
  Py.rfind cur dquote 0 c ≠ -1.
Proof.
  intros Hodd. unfold Py.rfind. apply rfind_list_in.
  - rewrite norm_0 by apply len_nonneg. lia.
  - rewrite <- chars_slice. apply count_pos_elem. intros H0.
    rewrite H0 in Hodd. discriminate.
Qed.

(** The quotation check: with an odd number of quotes before the candidate
    the break moves to the index before the last of them. *)
Lemma break_index_spec (cur : string) (size : Z) :
  let c := break_candidate cur size in
  let i := break_index cur size in
  let q := Py.rfind cur dquote 0 c in
  (Py.count (Py.slice cur 0 c) dquote mod 2 ≠ 1 → i = c) ∧
  (Py.count (Py.slice cur 0 c) dquote mod 2 = 1 →
     i = q - 1 ∧
     (0 ≤ c →
        0 ≤ q < c ∧ q < Py.len cur ∧ Py.get cur q = Some dquote ∧
        ∀ j, q < j < c → Py.get cur j ≠ Some dquote)).
Proof.
  intros c i q. subst c i q. unfold break_index.
  destruct (Z.eqb_spec
              (Py.count (Py.slice cur 0 (break_candidate cur size)) dquote mod 2)
              1) as [Hodd|Hodd]; split; try done.
  intros _. split; [done|]. intros Hc.
  exact (rfind_found cur dquote _ Hc (odd_count_rfind cur _ Hodd)).
Qed.

(** A break in the budget leaves a line shorter than the width. *)
Lemma break_in_budget_fits (st : reflow_state) :
  0 ≤ size st → break_in_budget st = true →
  let i := break_index (cur st) (size st) in
  0 ≤ i < size st ∧ Py.len (Py.slice (cur st) 0 i) = i.
Proof.
  intros Hsize [Hf%negb_true_iff%Z.eqb_neq Hi%Z.leb_le]%andb_prop i. subst i.
  destruct (break_candidate_spec (cur st) (size st) Hsize) as [Hc _].
  destruct (Hc Hf) as (Hr & Hl & _).
  destruct (break_index_spec (cur st) (size st)) as [Heven Hodd].
  assert (Hle : break_index (cur st) (size st)
                ≤ break_candidate (cur st) (size st)).
  { destruct (Z.eq_dec
                (Py.count (Py.slice (cur st) 0
                             (break_candidate (cur st) (size st))) dquote mod 2)
                1) as [Ho|Ho].
    - destruct (Hodd Ho) as [-> Hq]. destruct Hq as (? & _); lia.
    - rewrite (Heven Ho). lia. }
  split; [lia|]. apply len_slice_0. lia.
Qed.

Lemma reflow_step_inv (W : Z) (st : reflow_state) :
  reflow_inv W st → break_in_budget st = true → reflow_inv W (reflow_step st).
Proof.
  intros (Hw & Hsize & Hpad & Hfit) Hb.
  destruct (break_in_budget_fits st Hsize Hb) as [Hi Hlen].
  assert (Hline : Py.len (padding st +:+
                    Py.slice (cur st) 0 (break_index (cur st) (size st))) ≤ W)
    by (rewrite len_append, Hlen; lia).
  unfold reflow_step, reflow_inv.
  set (i := break_index (cur st) (size st)) in *.
  set (x := padding st +:+ Py.slice (cur st) 0 i) in *.
  assert (Hfirst : (Z.of_nat (length (lines st ++ [x])) =? 1)
                   = match lines st with [] => true | _ => false end).
  { destruct (lines st) as [|l0 ls]; [reflexivity|].
    apply Z.eqb_neq. rewrite length_app. simpl length. lia. }
  rewrite Hfirst.
  assert (Hfit' : Forall (fun l => Py.len l ≤ W) (lines st ++ [x]))
    by (apply Forall_app; split; [done | by constructor]).
  assert (Hne : lines st ++ [x] = [] → False) by (by destruct (lines st)).
  destruct (lines st) as [|l0 ls] eqn:Hls.
  - rewrite (Hpad eq_refl) in Hw. change (Py.len "") with 0 in Hw.
    destruct (Z.leb_spec 0 (Py.find (cur st) lbrace 0 i)) as [Hj|Hj].
    + pose proof (find_below (cur st) lbrace _ (proj1 Hi) Hj).
      cbn [lines size padding]. rewrite len_spaces by lia.
      repeat split; try lia; try done.
    + destruct (Z.leb_spec 0 (Py.find (cur st) lparen 0 i)) as [Hk|Hk].
      * pose proof (find_below (cur st) lparen _ (proj1 Hi) Hk).
        cbn [lines size padding]. rewrite len_spaces by lia.
        repeat split; try lia; try done.
      * cbn [lines size padding]. rewrite (Hpad eq_refl).
        change (Py.len "") with 0. repeat split; try lia; try done.
  - cbn [lines size padding]. repeat split; try lia; try done.
Qed.

Lemma reflow_loop_fits (W : Z) (fuel : nat) (st : reflow_state)
    (ls : list string) :
  reflow_inv W st → breaks_in_budget fuel st = true →
  reflow_loop fuel st = Some ls → Forall (fun l => Py.len l ≤ W) ls.
Proof.
  revert st. induction fuel as [|fuel IH]; intros st Hinv Hb Hloop;
    simpl in Hb, Hloop;
    destruct (Z.ltb_spec (size st) (Py.len (cur st))) as [Hlt|Hge];
    try discriminate.
  - destruct Hinv as (Hw & Hsize & Hpad & Hfit). injection Hloop as <-.
    apply Forall_app. split; [done|]. constructor; [|done].
    rewrite len_append. lia.
  - apply andb_prop in Hb as [Hb1 Hb2].
    apply (IH (reflow_step st)); auto using reflow_step_inv.
  - destruct Hinv as (Hw & Hsize & Hpad & Hfit). injection Hloop as <-.
    apply Forall_app. split; [done|]. constructor; [|done].
    rewrite len_append. lia.
Qed.

(** * Further properties of the generator *)

(** ** The type translators of the encoder *)

Lemma dict_of_lookup_Some {V} (l : list (string * V)) (k : string) (v : V) :
  dict_of l !! k = Some v → (k, v) ∈ l.
Proof.
  unfold dict_of.
  assert (G : ∀ d : gmap string V,
             foldl (fun d kv => <[kv.1 := kv.2]> d) d l !! k = Some v →
             (k, v) ∈ l ∨ d !! k = Some v).
  { induction l as [|[k' v'] l IH]; simpl; intros d H; [by right|].
    apply IH in H as [H|H]; [left; by right|].
    apply lookup_insert_Some in H as [[<- <-]|[_ H]]; [left; by left|by right]. }
  intros H. apply G in H as [H|H]; [exact H|].
  by rewrite lookup_empty in H.
Qed.

(** A registered name has a tag and a C++ name, from the same row. *)
Lemma registry_row (t tag : string) :
  _vvm_types !! t = Some tag →
  ∃ c, (t, tag, c) ∈ types ∧ _cpp_types !! t = Some c ∧ t ≠ "()".
Proof.
  intros H. apply dict_of_lookup_Some in H.
  apply list_elem_of_fmap in H as [[[n g] c] [Heq Hin]].
  simpl in Heq. injection Heq as -> ->.
  exists c. split; [exact Hin|].
  unfold types in Hin.
  repeat (apply elem_of_cons in Hin as [Hin|Hin];
          [injection Hin as -> -> ->; split; [reflexivity|discriminate]|]).
  by apply elem_of_nil in Hin.
Qed.

Lemma translators_rec (n : nat) :
  ∀ t a v,
    get_vvm_type_rec n t a = Some v →
    ∃ name tag c m g,
      (name, tag, c) ∈ types ∧ v = tag +:+ m ∧ (m = a ∨ m = "v") ∧
      get_cpp_type_rec n t a = Some (m, c) ∧ gen_vvm_type_rec n t = Some g.
Proof.
  induction n as [|n IH]; intros t a v; simpl;
    destruct (Py.get t 0) as [c0|]; simpl; try discriminate;
    destruct (Py.get t (-1)) as [cl|]; simpl; try discriminate;
    destruct (Ascii.eqb c0 "[" && Ascii.eqb cl "]"); try discriminate.
  1,3: destruct (_vvm_types !! t) as [tag|] eqn:Ht; simpl; try discriminate;
       intros [= <-]; destruct (registry_row _ _ Ht) as (c & Hin & Hc & Hne);
       exists t, tag, c, a; eexists; rewrite Hc;
       apply String.eqb_neq in Hne; rewrite Hne; simpl;
       split; [exact Hin|]; split; [reflexivity|]; split; [by left|];
       split; reflexivity.
  intros H. apply IH in H as (name & tag & c & m & g & Hin & -> & Hm & Hc & Hg).
  exists name, tag, c, m. eexists. rewrite Hc, Hg. simpl.
  split; [exact Hin|]. split; [reflexivity|]. split; [|split; reflexivity].
  right. by destruct Hm.
Qed.

Lemma gen_vvm_type_rec_Some (n : nat) :
  ∀ t a, is_Some (gen_vvm_type_rec n t) → is_Some (get_vvm_type_rec n t a).
Proof.
  induction n as [|n IH]; intros t a; simpl;
    destruct (Py.get t 0) as [c0|]; simpl; try (by intros [? [=]]);
    destruct (Py.get t (-1)) as [cl|]; simpl; try (by intros [? [=]]);
    destruct (Ascii.eqb c0 "[" && Ascii.eqb cl "]"); try (by intros [? [=]]).
  1,3: destruct (_vvm_types !! t) as [tag|]; simpl; eauto; by intros [? [=]].
  intros [g Hg]. apply IH.
  destruct (gen_vvm_type_rec n (Py.slice t 1 (-1))); [eauto|discriminate].
Qed.

(** X1. The translator of [get_func_type] accepts a type exactly when those
    of [get_opcode] and [get_cpp_func] do, and these then give the tag and
    the C++ name of one row of the registry, with the same marker. *)
Theorem type_translators_agree (t a : string) :
  is_Some (gen_vvm_type t) ↔
  ∃ name tag c m,
    (name, tag, c) ∈ types ∧ (m = a ∨ m = "v") ∧
    get_vvm_type t a = Some (tag +:+ m) ∧ get_cpp_type t a = Some (m, c).
Proof.
  split.
  - intros H. apply (gen_vvm_type_rec_Some _ t a) in H as [v Hv].
    destruct (translators_rec _ _ _ _ Hv)
      as (name & tag & c & m & g & Hin & -> & Hm & Hc & Hg).
    exists name, tag, c, m. by repeat split.
  - intros (name & tag & c & m & _ & _ & Hv & _).
    destruct (translators_rec _ _ _ _ Hv)
      as (? & ? & ? & ? & g & _ & _ & _ & _ & Hg).
    unfold gen_vvm_type. rewrite Hg. eauto.
Qed.

(** ** Array types *)

Lemma chars_append (a b : string) : chars (a +:+ b) = chars a ++ chars b.
Proof. induction a as [|c a IH]; [reflexivity|]. simpl. by rewrite <- IH. Qed.

Lemma chars_inj (a b : string) : chars a = chars b → a = b.
Proof.
  intros H. rewrite <- (String.string_of_list_ascii_of_string a),
    <- (String.string_of_list_ascii_of_string b). by rewrite H.
Qed.

(** The parts of a bracketed type that the translators look at. *)
Lemma bracket_parts (t : string) :
  let s := "[" +:+ t +:+ "]" in
  Py.get s 0 = Some "["%char ∧ Py.get s (-1) = Some "]"%char ∧
  Py.slice s 1 (-1) = t ∧ String.length s = S (S (String.length t)).
Proof.
  intros s.
  assert (Hc : chars s = "["%char :: chars t ++ ["]"%char]).
  { unfold s. change ("[" +:+ t +:+ "]") with (String "[" (t +:+ "]")).
    simpl. by rewrite chars_append. }
  assert (Hl : String.length s = S (S (String.length t))).
  { rewrite <- !length_chars, Hc. simpl. rewrite length_app. simpl. lia. }
  assert (Hn : Py.len s = Z.of_nat (String.length t) + 2).
  { unfold Py.len. rewrite Hl. lia. }
  split; [|split; [|split; [|exact Hl]]].
  - rewrite get_nonneg by lia. by rewrite Hc.
  - unfold Py.get. rewrite Hn. change (-1 <? 0) with true. cbv iota.
    replace (_ || _) with false by (symmetry; apply orb_false_iff; lia).
    rewrite get_chars, Hc.
    replace (Z.to_nat (-1 + (Z.of_nat (String.length t) + 2)))
      with (S (length (chars t) + 0)) by (rewrite length_chars; lia).
    simpl. by rewrite lookup_app_r, Nat.add_0_r, Nat.sub_diag by lia.
  - apply chars_inj. rewrite chars_slice. unfold Py.window, Py.norm.
    rewrite Hn, Hc. change (1 <? 0) with false. change (-1 <? 0) with true.
    cbv iota.
    replace (Z.to_nat (Z.min 1 (Z.of_nat (String.length t) + 2))) with 1%nat
      by lia.
    replace (Z.to_nat _) with (length (chars t))
      by (rewrite length_chars; lia).
    simpl. by rewrite drop_0, take_app_length.
Qed.

Lemma length_slice_inner (t : string) (c : ascii) :
  Py.get t 0 = Some c → (String.length (Py.slice t 1 (-1)) < String.length t)%nat.
Proof.
  intros Hg.
  assert (0 < Py.len t).
  { unfold Py.get in Hg. change (0 <? 0) with false in Hg. cbv iota in Hg.
    destruct (_ || _) eqn:E; [discriminate|].
    apply orb_false_iff in E. lia. }
  rewrite <- (length_chars (Py.slice _ _ _)), chars_slice.
  unfold Py.window, Py.norm. change (1 <? 0) with false. cbv iota.
  rewrite length_take, length_drop, length_chars. unfold Py.len in *. lia.
Qed.

Lemma get_empty (t : string) (i : Z) :
  String.length t = 0%nat → Py.get t i = None.
Proof. destruct t; [|discriminate]. intros _. unfold Py.get. simpl.
  destruct (i <? 0); simpl; destruct (_ || _) eqn:E; try reflexivity;
  apply orb_false_iff in E; lia.
Qed.

(** The bound on the recursion is never reached. *)
Ltac fuel_tac IH :=
  let Hg := fresh "Hg" in
  intros m t; intros;
  match goal with
  | Hn : (String.length t ≤ 0)%nat |- _ =>
      destruct m; simpl; rewrite (get_empty t 0) by lia; reflexivity
  | Hn : (String.length t ≤ S _)%nat |- _ =>
      destruct m as [|m];
      [simpl; rewrite (get_empty t 0) by lia; reflexivity|];
      simpl; destruct (Py.get t 0) eqn:Hg; [|reflexivity]; simpl;
      destruct (Py.get t (-1)); [|reflexivity]; simpl;
      destruct (_ && _); [|reflexivity];
      apply length_slice_inner in Hg; rewrite (IH m) by lia; reflexivity
  end.

Lemma get_vvm_type_rec_fuel (n : nat) :
  ∀ m t a, (String.length t ≤ n)%nat → (String.length t ≤ m)%nat →
           get_vvm_type_rec n t a = get_vvm_type_rec m t a.
Proof. induction n as [|n IH]; fuel_tac IH. Qed.

Lemma get_cpp_type_rec_fuel (n : nat) :
  ∀ m t a, (String.length t ≤ n)%nat → (String.length t ≤ m)%nat →
           get_cpp_type_rec n t a = get_cpp_type_rec m t a.
Proof. induction n as [|n IH]; fuel_tac IH. Qed.

Lemma gen_vvm_type_rec_fuel (n : nat) :
  ∀ m t, (String.length t ≤ n)%nat → (String.length t ≤ m)%nat →
         gen_vvm_type_rec n t = gen_vvm_type_rec m t.
Proof. induction n as [|n IH]; fuel_tac IH. Qed.

(** X2. Brackets mark an array, whatever the marker asked for; the
    identifier does not record how deep they nest, the function type does. *)
Theorem array_type_translation (t a : string) :
  get_vvm_type ("[" +:+ t +:+ "]") a = get_vvm_type t "v" ∧
  get_cpp_type ("[" +:+ t +:+ "]") a = get_cpp_type t "v" ∧
  gen_vvm_type ("[" +:+ t +:+ "]") =
    (fun r => "HIR::Array(" +:+ r +:+ ")") <$> gen_vvm_type t ∧
  get_vvm_type ("[" +:+ ("[" +:+ t +:+ "]") +:+ "]") a =
    get_vvm_type ("[" +:+ t +:+ "]") a.
Proof.
  assert (G : ∀ t a, get_vvm_type ("[" +:+ t +:+ "]") a = get_vvm_type t "v").
  { clear. intros t a.
    destruct (bracket_parts t) as (H0 & H1 & Hs & Hl).
    remember ("[" +:+ t +:+ "]") as s eqn:Es.
    unfold get_vvm_type. rewrite Hl.
    remember (S (String.length t)) as k eqn:Hk. simpl.
    rewrite H0, H1, Hs. simpl. apply get_vvm_type_rec_fuel; lia. }
  destruct (bracket_parts t) as (H0 & H1 & Hs & Hl).
  split; [apply G|]. split; [|split; [|by rewrite !G]];
    remember ("[" +:+ t +:+ "]") as s eqn:Es.
  - unfold get_cpp_type. rewrite Hl.
    remember (S (String.length t)) as k eqn:Hk. simpl.
    rewrite H0, H1, Hs. simpl. apply get_cpp_type_rec_fuel; lia.
  - unfold gen_vvm_type. rewrite Hl.
    remember (S (String.length t)) as k eqn:Hk. simpl.
    rewrite H0, H1, Hs. simpl.
    by rewrite (gen_vvm_type_rec_fuel k (String.length t)) by lia.
Qed.

(** ** Signatures and their parameter list *)

Lemma chars_rev_acc (s acc : string) :
  chars (Py.rev_acc s acc) = rev (chars s) ++ chars acc.
Proof.
  revert acc. induction s as [|c s IH]; intros acc; [reflexivity|].
  simpl. rewrite IH. simpl. by rewrite <- app_assoc.
Qed.

Lemma rev_acc_rev_acc (s : string) : Py.rev_acc (Py.rev_acc s "") "" = s.
Proof.
  apply chars_inj. rewrite !chars_rev_acc. simpl.
  by rewrite !app_nil_r, rev_involutive.
Qed.

(** Splitting at the arrow a text whose first part has no dash. *)
Lemma split_aux_no_dash (p : string) :
  "-"%char ∉ chars p →
  ∀ acc, Py.split_aux "->" p 0 acc = [Py.rev_acc (Py.rev_acc p acc) ""].
Proof.
  induction p as [|c p IH]; intros Hp acc; [reflexivity|].
  simpl in Hp. apply not_elem_of_cons in Hp as [Hc Hp].
  cbn [Py.split_aux]. cbn [String.prefix].
  destruct (ascii_dec "-" c) as [<-|_]; [done|].
  by rewrite (IH Hp).
Qed.

Lemma split_aux_arrow (p r : string) :
  "-"%char ∉ chars p →
  ∀ acc, Py.split_aux "->" (p +:+ "->" +:+ r) 0 acc =
         Py.rev_acc (Py.rev_acc p acc) "" :: Py.split_aux "->" r 0 "".
Proof.
  induction p as [|c p IH]; intros Hp acc; [by destruct r|].
  change (String c p +:+ "->" +:+ r) with (String c (p +:+ "->" +:+ r)).
  simpl in Hp. apply not_elem_of_cons in Hp as [Hc Hp].
  cbn [Py.split_aux]. cbn [String.prefix].
  destruct (ascii_dec "-" c) as [<-|_]; [done|].
  by rewrite (IH Hp).
Qed.

Lemma split_no_arrow (p : string) :
  "-"%char ∉ chars p → Py.split p "->" = [p].
Proof.
  intros Hp. unfold Py.split.
  by rewrite (split_aux_no_dash p Hp), rev_acc_rev_acc.
Qed.

Lemma split_arrow (p r : string) :
  "-"%char ∉ chars p → Py.split (p +:+ "->" +:+ r) "->" = p :: Py.split r "->".
Proof.
  intros Hp. unfold Py.split.
  by rewrite (split_aux_arrow p r Hp), rev_acc_rev_acc.
Qed.

Lemma len_pos (s : string) : s ≠ "" → (Py.len s =? 0) = false.
Proof. destruct s; [done|]. intros _. unfold Py.len. simpl. lia. Qed.

Lemma len_arrow_pos (p r : string) : (Py.len (p +:+ "->" +:+ r) =? 0) = false.
Proof.
  rewrite !len_append. pose proof (len_nonneg p). pose proof (len_nonneg r).
  change (Py.len "->") with 2. lia.
Qed.

(** X3. Outside [cast] the identifier depends on the parameter list alone;
    [cast] needs the result type. *)
Theorem get_opcode_ignores_result (func_name p r : string) :
  p ≠ "" → "-"%char ∉ chars p →
  (func_name ≠ "cast" →
   get_opcode func_name (p +:+ "->" +:+ r) = get_opcode func_name p) ∧
  get_opcode "cast" p = None.
Proof.
  intros Hne Hp. split.
  - intros Hf. unfold get_opcode.
    rewrite (split_arrow p r Hp), (split_no_arrow p Hp).
    rewrite (len_pos p Hne), len_arrow_pos.
    apply String.eqb_neq in Hf. rewrite Hf. reflexivity.
  - unfold get_opcode. rewrite (split_no_arrow p Hp).
    rewrite (len_pos p Hne). simpl.
    destruct (Py.get p 0); [|reflexivity]. simpl.
    destruct (Py.get p (-1)); [|reflexivity]. simpl.
    destruct (_ && _); simpl.
    + by destruct (foldl _ _ _).
    + by destruct (get_vvm_type p "s").
Qed.

Lemma get_opcode_ignores_result_witness :
  get_opcode "len" "[Int64]->Int64" = get_opcode "len" "[Int64]" ∧
  get_opcode "cast" "[Int64]" = None.
Proof.
  assert (H1 : "[Int64]" ≠ "") by discriminate.
  assert (H2 : "-"%char ∉ chars "[Int64]") by (apply (bool_decide_unpack _); vm_compute; exact I).
  destruct (get_opcode_ignores_result "len" "[Int64]" "Int64" H1 H2) as [Ha Hb].
  split; [apply Ha; discriminate | exact Hb].
Defined.

(** ** BuiltinsWriter: the function type stored with an opcode *)

Lemma func_type_check_all : forallb func_type_check opcodes = true.
Proof. vm_compute. reflexivity. Qed.

(** X4. An entry with a surface name has a signature; every entry with a
    signature has an identifier and a function type, whose argument types
    are one less than its operands. *)
Theorem builtin_function_types (o : opcode) :
  o ∈ opcodes →
  (o0 o ≠ "" → o2 o ≠ "") ∧
  (o2 o ≠ "" →
   ∃ oc args rt,
     get_opcode (o1 o) (o2 o) = Some oc ∧
     func_type_parts (o2 o) = Some (args, rt) ∧
     get_func_type (o2 o) = Some ("{" +:+ Py.join ", " args +:+ "}, " +:+ rt) ∧
     Z.of_nat (length args) + 1 = o3 o).
Proof.
  intros Ho.
  pose proof (forallb_elem_of _ _ _ func_type_check_all Ho) as H.
  unfold func_type_check in H. split.
  - intros H0 H2. rewrite H2 in H. simpl in H. apply H0.
    destruct (o0 o); [reflexivity|]. discriminate.
  - intros H2. rewrite (len_pos _ H2) in H.
    destruct (get_opcode (o1 o) (o2 o)) as [oc|]; [|discriminate].
    unfold get_func_type.
    destruct (func_type_parts (o2 o)) as [[args rt]|]; [|discriminate].
    exists oc, args, rt. repeat split. lia.
Qed.

Lemma builtin_function_types_witness :
  Op "len" "len" "[String]->Int64" 2 ∈ opcodes ∧
  ∃ oc args rt,
    get_opcode "len" "[String]->Int64" = Some oc ∧
    func_type_parts "[String]->Int64" = Some (args, rt) ∧
    get_func_type "[String]->Int64"
      = Some ("{" +:+ Py.join ", " args +:+ "}, " +:+ rt) ∧
    Z.of_nat (length args) + 1 = 2.
Proof.
  assert (H : Op "len" "len" "[String]->Int64" 2 ∈ opcodes) by by_compute.
  split; [exact H|].
  apply (proj2 (builtin_function_types _ H)). discriminate.
Defined.

(** ** TypesWriter *)

Lemma append_inj_r (a b x : string) : a +:+ x = b +:+ x → a = b.
Proof.
  intros H. apply chars_inj. apply (f_equal chars) in H.
  rewrite !chars_append in H. by apply app_inv_tail in H.
Qed.

Lemma scalar_not_array (a b : string) : a +:+ "s" ≠ b +:+ "v".
Proof.
  intros H. apply (f_equal chars) in H. rewrite !chars_append in H.
  simpl in H. apply app_inj_tail in H as [_ H]. discriminate.
Qed.

Lemma type_enumerators_cons (t : string * string * string)
    (tys : list (string * string * string)) :
  type_enumerators (t :: tys)
  = (t.1.2 +:+ "s") :: (t.1.2 +:+ "v") :: type_enumerators tys.
Proof. reflexivity. Qed.

Lemma elem_of_type_enumerators (e : string)
    (tys : list (string * string * string)) :
  e ∈ type_enumerators tys ↔
  ∃ t, t ∈ tys ∧ (e = t.1.2 +:+ "s" ∨ e = t.1.2 +:+ "v").
Proof.
  unfold type_enumerators. rewrite list_elem_of_bind. split.
  - intros (t & He & Ht). exists t. split; [exact Ht|].
    apply elem_of_cons in He as [->|He]; [by left|].
    apply elem_of_cons in He as [->|He]; [by right|].
    by apply elem_of_nil in He.
  - intros (t & Ht & [-> | ->]); exists t; split; try exact Ht.
    + by left.
    + right. by left.
Qed.

(** X5. Distinct tags give distinct enumerators, and the scalar enumerator
    of the [k]-th type has the even value [2k], its array enumerator the
    next. *)
Theorem type_enumerators_distinct (tys : list (string * string * string)) :
  NoDup ((fun t => t.1.2) <$> tys) →
  NoDup (type_enumerators tys) ∧
  ∀ (k : nat) (t : string * string * string),
    tys !! k = Some t →
    Machine.enum_value (type_enumerators tys) (t.1.2 +:+ "s")
      = Some (2 * Z.of_nat k) ∧
    Machine.enum_value (type_enumerators tys) (t.1.2 +:+ "v")
      = Some (2 * Z.of_nat k + 1).
Proof.
  intros Hnd.
  assert (Hnd' : NoDup (type_enumerators tys)).
  { induction tys as [|t tys IH]; [constructor|].
    rewrite type_enumerators_cons. simpl in Hnd.
    apply NoDup_cons in Hnd as [Hni Hnd]. specialize (IH Hnd).
    assert (Hfresh : ∀ m, t.1.2 +:+ m ∉ type_enumerators tys
                          ∨ (m ≠ "s" ∧ m ≠ "v")).
    { intros m. destruct (decide (m = "s")) as [->|Hs];
        [|destruct (decide (m = "v")) as [->|Hv]; [|by right]];
        left; intros Hin;
        apply elem_of_type_enumerators in Hin as (t' & Ht' & [He|He]);
        try (by apply scalar_not_array in He);
        try (symmetry in He; by apply scalar_not_array in He);
        apply append_inj_r in He; apply Hni; rewrite He;
        by apply (list_elem_of_fmap_2 (fun t => t.1.2)). }
    apply NoDup_cons. split.
    - intros Hin. apply elem_of_cons in Hin as [Hin|Hin];
        [by apply scalar_not_array in Hin|].
      by destruct (Hfresh "s") as [H|[H _]].
    - apply NoDup_cons. split; [|exact IH].
      by destruct (Hfresh "v") as [H|[_ H]]. }
  split; [exact Hnd'|].
  intros k t Hk.
  assert (Hs : type_enumerators tys !! (2 * k)%nat = Some (t.1.2 +:+ "s")
               ∧ type_enumerators tys !! S (2 * k)%nat = Some (t.1.2 +:+ "v")).
  { clear Hnd Hnd'. revert k Hk. induction tys as [|t' tys IH]; intros k Hk;
      [discriminate|].
    rewrite type_enumerators_cons. destruct k as [|k].
    - injection Hk as ->. by split.
    - simpl in Hk. destruct (IH k Hk) as [Ha Hb].
      replace (2 * S k)%nat with (S (S (2 * k))) by lia. by split. }
  destruct Hs as [Ha Hb].
  rewrite (enum_value_lookup _ _ _ Hnd' Ha), (enum_value_lookup _ _ _ Hnd' Hb).
  split; f_equal; lia.
Qed.

Lemma type_enumerators_distinct_witness :
  NoDup (type_enumerators types) ∧
  Machine.enum_value (type_enumerators types) "Ss" = Some 6 ∧
  Machine.enum_value (type_enumerators types) "Sv" = Some 7.
Proof.
  assert (H : NoDup ((fun t => t.1.2) <$> types)) by by_compute.
  destruct (type_enumerators_distinct types H) as [Hnd Hv].
  split; [exact Hnd|].
  exact (Hv 3%nat ("String", "S", "std::string") eq_refl).
Defined.

Lemma type_tables_check_all : forallb type_tables_check (seq 0 18) = true.
Proof. vm_compute. reflexivity. Qed.

(** X6. The three arrays of types.h are parallel: at the index of an
    enumerator stand its text and the Empirical type it is the VVM type
    of. *)
Theorem type_tables_aligned (i : nat) (e : string) :
  type_enumerators types !! i = Some e →
  Py.split type_labels ", " !! i = Some e ∧
  Py.split type_strings ", " !! i = Some (quoted e) ∧
  ∃ n, Py.split emp_strings ", " !! i = Some (quoted n) ∧
       get_vvm_type n "s" = Some e.
Proof.
  intros He.
  assert (Hi : i ∈ seq 0 18).
  { apply elem_of_seq. apply lookup_lt_Some in He.
    change (length (type_enumerators types)) with 18%nat in He. lia. }
  pose proof (forallb_elem_of _ _ _ type_tables_check_all Hi) as H.
  unfold type_tables_check in H. rewrite He in H.
  destruct (Py.split emp_strings ", " !! i) as [qn|]; [|discriminate].
  apply andb_true_iff in H as [H H4]. apply andb_true_iff in H as [H H3].
  apply andb_true_iff in H as [H1 H2].
  apply bool_decide_eq_true in H1, H2, H4. apply String.eqb_eq in H3.
  split; [exact H1|]. split; [exact H2|].
  exists (Py.slice qn 1 (-1)). split; [by rewrite <- H3|exact H4].
Qed.

Lemma type_tables_aligned_witness :
  type_enumerators types !! 11%nat = Some "Tv" ∧
  Py.split type_labels ", " !! 11%nat = Some "Tv" ∧
  Py.split type_strings ", " !! 11%nat = Some (quoted "Tv") ∧
  ∃ n, Py.split emp_strings ", " !! 11%nat = Some (quoted n) ∧
       get_vvm_type n "s" = Some "Tv".
Proof.
  split; [reflexivity|]. exact (type_tables_aligned 11 "Tv" eq_refl).
Defined.

(** ** The switches over [vvm_types] *)

Lemma type_switches_check :
  forallb (fun fe : string * list (string * Z) =>
             bool_decide (case_labels fe.2 =
                          (fun e => "case vvm_types::" +:+ e +:+ ":")
                          <$> type_enumerators types))
          type_switches = true.
Proof. vm_compute. reflexivity. Qed.

(** X7. Every generated switch over [vvm_types] has one case for each
    enumerator, in the order of the enumeration. *)
Theorem type_switches_exhaustive (f : string) (emits : list (string * Z)) :
  (f, emits) ∈ type_switches →
  case_labels emits =
  (fun e => "case vvm_types::" +:+ e +:+ ":") <$> type_enumerators types.
Proof.
  intros H.
  pose proof (forallb_elem_of _ _ _ type_switches_check H) as Hc.
  by apply bool_decide_eq_true in Hc.
Qed.

Lemma type_switches_exhaustive_witness :
  ("len", LenWriter_run) ∈ type_switches ∧
  case_labels LenWriter_run =
  (fun e => "case vvm_types::" +:+ e +:+ ":") <$> type_enumerators types.
Proof.
  assert (H : ("len", LenWriter_run) ∈ type_switches) by by_compute.
  split; [exact H|]. exact (type_switches_exhaustive _ _ H).
Defined.

(** ** Dispatch by opcode value *)

Lemma enum_value_bound (ids : list string) (name : string) (v : Z) :
  Machine.enum_value ids name = Some v → 0 ≤ v < Z.of_nat (length ids).
Proof.
  revert v. induction ids as [|a ids IH]; intros v; simpl; [done|].
  destruct (String.eqb a name); [intros [= <-]; lia|].
  destruct (Machine.enum_value ids name) as [w|]; [|done].
  intros [= <-]. specialize (IH w eq_refl). lia.
Qed.

Lemma find_all_false {A} (P : A → bool) (l : list A) :
  (∀ x, x ∈ l → P x = false) → List.find P l = None.
Proof.
  induction l as [|a l IH]; intros H; [done|]. simpl.
  rewrite (H a) by (by left). apply IH. intros x Hx. apply H. by right.
Qed.

Lemma goto_target_out (ids : list string) (blocks : list block) (v : Z) :
  v < 0 ∨ Z.of_nat (length ids) ≤ v → Machine.goto_target ids blocks v = None.
Proof.
  intros Hv. unfold Machine.goto_target.
  destruct (Z.ltb_spec v 0) as [|H0]; [done|].
  rewrite (lookup_ge_None_2 ids (Z.to_nat v)) by lia. done.
Qed.

Lemma switch_target_out (ids : list string) (cases : list block) (v : Z) :
  v < 0 ∨ Z.of_nat (length ids) ≤ v → Machine.switch_target ids cases v = None.
Proof.
  intros Hv. unfold Machine.switch_target.
  rewrite find_all_false; [done|].
  intros b _. apply bool_decide_eq_false. intros He.
  apply enum_value_bound in He. lia.
Qed.

Lemma switch_target_inv (ids : list string) (blocks : list block) (v : Z)
    (body : list cstmt) :
  fst <$> blocks = ids → NoDup ids →
  Machine.switch_target ids blocks v = Some body →
  ∃ n b, v = Z.of_nat n ∧ blocks !! n = Some b ∧ body = b.2.
Proof.
  intros Hl Hnd Hs. unfold Machine.switch_target in Hs.
  destruct (List.find _ blocks) as [b|] eqn:Hf; [|done].
  injection Hs as <-. apply find_some in Hf as [Hin He].
  apply bool_decide_eq_true in He.
  apply list_elem_of_In, list_elem_of_lookup in Hin as [n Hn].
  exists n, b. split; [|done].
  rewrite (enum_value_lookup ids n b.1 Hnd (block_label ids blocks Hl n b Hn)) in He.
  congruence.
Qed.

Lemma mapM_lookup {A B} (f : A → option B) (l : list A) (k : list B)
    (n : nat) (x : A) :
  mapM f l = Some k → l !! n = Some x → ∃ y, k !! n = Some y ∧ f x = Some y.
Proof.
  intros Hm%mapM_Some Hx.
  destruct (Forall2_lookup_l _ _ _ _ _ Hm Hx) as (y & Hy & Hf). eauto.
Qed.

Lemma ids_length (ids : list string) :
  opcode_ids opcodes = Some ids → length ids = length opcodes.
Proof. intros H. symmetry. exact (length_mapM _ _ _ H). Qed.

(** X8. The opcode value [n] selects, in each of the four generated
    functions, the handler generated from the [n]-th entry of the table. *)
Theorem handler_of_table_entry (n : nat) (o : opcode) :
  opcodes !! n = Some o →
  ∃ oc,
    get_opcode (o1 o) (o2 o) = Some oc ∧
    (opcode_ids opcodes ≫= fun ids => Machine.enum_value ids oc)
      = Some (Z.of_nat n) ∧
    label_handler (Z.of_nat n) = snd <$> dispatch_handler GotoNext o ∧
    switch_handler (Z.of_nat n) = snd <$> dispatch_handler Break o ∧
    dis_label_handler (Z.of_nat n) = snd <$> disassemble_handler GotoNext o ∧
    dis_switch_handler (Z.of_nat n) = snd <$> disassemble_handler Break o.
Proof.
  intros Ho.
  destruct generation_succeeds as
    (ids & lb & sb & dl & ds & Hids & Hlb & Hsb & Hdl & Hds & Hnd &
     Llb & Lsb & Ldl & Lds & _).
  destruct (opcode_ids_lookup ids n o Hids Ho) as (oc & Hoc & Hg).
  destruct (mapM_lookup _ _ _ n o Hlb Ho) as (b1 & Hb1 & Hh1).
  destruct (mapM_lookup _ _ _ n o Hsb Ho) as (b2 & Hb2 & Hh2).
  destruct (mapM_lookup _ _ _ n o Hdl Ho) as (b3 & Hb3 & Hh3).
  destruct (mapM_lookup _ _ _ n o Hds Ho) as (b4 & Hb4 & Hh4).
  exists oc. split; [exact Hg|].
  unfold label_handler, switch_handler, dis_label_handler, dis_switch_handler.
  rewrite Hids, Hlb, Hsb, Hdl, Hds, Hh1, Hh2, Hh3, Hh4.
  cbn [mbind option_bind fmap option_fmap option_map].
  split; [exact (enum_value_lookup ids n oc Hnd Hoc)|].
  split; [exact (goto_target_lookup ids lb Llb Hnd n b1 Hb1)|].
  split; [exact (switch_target_lookup ids sb Lsb Hnd n b2 Hb2)|].
  split; [exact (goto_target_lookup ids dl Ldl Hnd n b3 Hb3)|].
  exact (switch_target_lookup ids ds Lds Hnd n b4 Hb4).
Qed.

Lemma handler_of_table_entry_witness :
  ∃ oc,
    get_opcode "call" "" = Some oc ∧
    (opcode_ids opcodes ≫= fun ids => Machine.enum_value ids oc) = Some 15 ∧
    label_handler 15 = snd <$> dispatch_handler GotoNext (Op "" "call" "" 2) ∧
    switch_handler 15 = snd <$> dispatch_handler Break (Op "" "call" "" 2) ∧
    dis_label_handler 15
      = snd <$> disassemble_handler GotoNext (Op "" "call" "" 2) ∧
    dis_switch_handler 15
      = snd <$> disassemble_handler Break (Op "" "call" "" 2).
Proof. exact (handler_of_table_entry 15 (Op "" "call" "" 2) eq_refl). Defined.

(** ** An opcode value outside the table *)

Section Unknown.
Context {S : Type}.
Variable ext : string → list Z → option (list Z) → Z → S → option (Z * S).
Variable code : list Z.

Lemma run_switch_spins (ids : list string) (cases : list block) (v : Z)
    (r : Machine.regs S) :
  Machine.fetch code (Machine.ip r) = Some v →
  Machine.switch_target ids cases v = None →
  ∀ fuel trace,
    Machine.run_switch ext code ids cases fuel r trace
    = Machine.OutOfFuel (trace ++ replicate fuel (Machine.ip r)).
Proof.
  intros Hf Ht fuel. induction fuel as [|fuel IH]; intros trace; simpl.
  - by rewrite app_nil_r.
  - rewrite Hf, Ht, IH, <- app_assoc. reflexivity.
Qed.

Lemma run_labels_unknown (ids : list string) (blocks : list block) (v : Z)
    (r : Machine.regs S) (fuel : nat) (trace : list Z) :
  Machine.fetch code (Machine.ip r) = Some v →
  Machine.goto_target ids blocks v = None →
  Machine.run_labels ext code ids blocks (Datatypes.S fuel) r trace
  = Machine.UndefinedBehaviour.
Proof. intros Hf Ht. simpl. by rewrite Hf, Ht. Qed.
End Unknown.

(** X9. On an opcode value that the table does not have, the switch forms
    never leave their loop and decode the same word again, whatever the
    number of iterations; the label-threaded forms index outside
    [opcode_labels]. *)
Theorem unknown_opcode {S : Type}
    (ext : string → list Z → option (list Z) → Z → S → option (Z * S))
    (v : Z) (rest : list Z) (fuel : nat) (s0 : S) :
  v < 0 ∨ Z.of_nat (length opcodes) ≤ v →
  dispatch_switch ext (v :: rest) fuel s0 = Machine.OutOfFuel (replicate fuel 0) ∧
  disassemble_switch (v :: rest) fuel = Machine.OutOfFuel (replicate fuel 0) ∧
  dispatch_labels ext (v :: rest) (Datatypes.S fuel) s0 = Machine.UndefinedBehaviour ∧
  disassemble_labels (v :: rest) (Datatypes.S fuel) = Machine.UndefinedBehaviour.
Proof.
  intros Hv.
  destruct generation_succeeds as
    (ids & lb & sb & dl & ds & Hids & Hlb & Hsb & Hdl & Hds & _).
  rewrite <- (ids_length ids Hids) in Hv.
  unfold dispatch_switch, disassemble_switch, dispatch_labels,
    disassemble_labels.
  rewrite Hids, Hlb, Hsb, Hdl, Hds.
  split; [|split; [|split]].
  - exact (run_switch_spins ext (v :: rest) ids sb v (Machine.Regs 0 0 s0)
             eq_refl (switch_target_out ids sb v Hv) fuel []).
  - exact (run_switch_spins no_ext (v :: rest) ids ds v (Machine.Regs 0 0 ())
             eq_refl (switch_target_out ids ds v Hv) fuel []).
  - exact (run_labels_unknown ext (v :: rest) ids lb v (Machine.Regs 0 0 s0)
             fuel [] eq_refl (goto_target_out ids lb v Hv)).
  - exact (run_labels_unknown no_ext (v :: rest) ids dl v (Machine.Regs 0 0 ())
             fuel [] eq_refl (goto_target_out ids dl v Hv)).
Qed.

Lemma unknown_opcode_witness :
  dispatch_switch (S := unit) inert_ext [619; 0] 3 ()
    = Machine.OutOfFuel [0; 0; 0] ∧
  disassemble_switch [619; 0] 3 = Machine.OutOfFuel [0; 0; 0] ∧
  dispatch_labels (S := unit) inert_ext [619; 0] 4 ()
    = Machine.UndefinedBehaviour ∧
  disassemble_labels [619; 0] 4 = Machine.UndefinedBehaviour.
Proof.
  apply (unknown_opcode (S := unit) inert_ext 619 [0] 3 ()).
  right. vm_compute. discriminate.
Defined.

(** ** How a run of a generated function ends *)

Section Bodies.
Context {S : Type}.
Variable ext : string → list Z → option (list Z) → Z → S → option (Z * S).
Variable code : list Z.

Lemma exec_body_finish (body : list cstmt) (r r' : Machine.regs S) :
  Machine.exec_body ext code body r = Machine.Finish r' → Return ∈ body.
Proof.
  revert r. induction body as [|st body IH]; intros r; simpl; [done|].
  destruct (Machine.exec_stmt ext code st r) as [r1| | | |] eqn:He;
    try discriminate.
  - intros H. right. exact (IH _ H).
  - intros _. destruct st as [|n|name ks wc|oc ks blk|k| | |]; simpl in He;
      try discriminate; try (by left).
    + destruct (mapM _ _); [|done]. by destruct (ext _ _ _ _ _) as [[]|].
    + destruct (mapM _ _); [|done]. destruct blk; [|done].
      destruct (Machine.fetch _ _); [|done].
      by destruct (Machine.dis_code_defined _ _ _).
    + by destruct (Machine.fetch _ _).
Qed.

End Bodies.

(** In every generated function only the handler of [halt] returns. *)
Lemma dispatch_handler_return {S : Type}
    (ext : string → list Z → option (list Z) → Z → S → option (Z * S))
    (code : list Z) (next : cstmt) (o : opcode) (b : block)
    (r r' : Machine.regs S) :
  is_next next = true → dispatch_handler next o = Some b →
  Machine.exec_body ext code b.2 r = Machine.Finish r' → b.1 = "halt" ∧ r' = r.
Proof.
  intros Hn Hb. unfold dispatch_handler in Hb.
  destruct (get_opcode (o1 o) (o2 o)) as [oc|]; [|done]. simpl in Hb.
  destruct (String.eqb oc "halt") eqn:Hh.
  - apply String.eqb_eq in Hh. injection Hb as <-. simpl. by intros [= <-].
  - destruct (get_cpp_func (o1 o) (o2 o)) as [name|]; [|done].
    injection Hb as <-. intros He%exec_body_finish. exfalso.
    cbn [snd] in He.
    repeat (apply elem_of_cons in He as [He|He]; [try discriminate He|]).
    + destruct next; discriminate.
    + by apply elem_of_nil in He.
Qed.

Lemma disassemble_handler_return (code : list Z) (next : cstmt) (o : opcode)
    (b : block) (r r' : Machine.regs unit) :
  is_next next = true → disassemble_handler next o = Some b →
  Machine.exec_body no_ext code b.2 r = Machine.Finish r' → b.1 = "halt" ∧ r' = r.
Proof.
  intros Hn Hb. unfold disassemble_handler in Hb.
  destruct (get_opcode (o1 o) (o2 o)) as [oc|]; [|done]. simpl in Hb.
  destruct (String.eqb oc "halt") eqn:Hh.
  - apply String.eqb_eq in Hh. injection Hb as <-. simpl. by intros [= <-].
  - injection Hb as <-. intros He%exec_body_finish. exfalso.
    cbn [snd] in He. destruct (String.eqb oc "call"); simpl in He;
    repeat (apply elem_of_cons in He as [He|He]; [try discriminate He|]);
    try (by apply elem_of_nil in He); destruct next; discriminate.
Qed.

Lemma mapM_Forall {A B} (f : A → option B) (P : B → Prop) (l : list A)
    (k : list B) :
  mapM f l = Some k → (∀ x y, f x = Some y → P y) → Forall P k.
Proof.
  intros Hm%mapM_Some HP. induction Hm; constructor; eauto.
Qed.

Section Runs.
Context {S : Type}.
Variable ext : string → list Z → option (list Z) → Z → S → option (Z * S).
Variable code : list Z.
Variable ids : list string.
Variable blocks : list block.
Hypothesis Hlabels : fst <$> blocks = ids.
Hypothesis Hnd : NoDup ids.
Hypothesis Hhalt : ids !! 0%nat = Some "halt".
Hypothesis Hret :
  Forall (fun b : block => ∀ r r',
            Machine.exec_body ext code b.2 r = Machine.Finish r' →
            b.1 = "halt" ∧ r' = r) blocks.

Lemma halt_block (n : nat) (b : block) :
  blocks !! n = Some b → b.1 = "halt" → n = 0%nat.
Proof.
  intros Hb Hh. apply (block_label ids blocks Hlabels) in Hb.
  rewrite Hh in Hb. exact (NoDup_lookup _ _ _ _ Hnd Hb Hhalt).
Qed.

Lemma block_returns (n : nat) (b : block) (r r' : Machine.regs S) :
  blocks !! n = Some b →
  Machine.exec_body ext code b.2 r = Machine.Finish r' → n = 0%nat ∧ r' = r.
Proof.
  intros Hb He.
  destruct (proj1 (Forall_lookup _ _) Hret n b Hb r r' He) as [Hh ->].
  split; [exact (halt_block n b Hb Hh)|reflexivity].
Qed.

Lemma run_labels_halted (fuel : nat) :
  ∀ r trace t f,
    Machine.run_labels ext code ids blocks fuel r trace = Machine.Halted t f →
    Machine.fetch code f = Some 0 ∧ last t = Some f.
Proof.
  induction fuel as [|fuel IH]; intros r trace t f; simpl; [done|].
  destruct (Machine.fetch code (Machine.ip r)) as [v|] eqn:Hf; [|done].
  destruct (Machine.goto_target ids blocks v) as [body|] eqn:Hg; [|done].
  destruct (goto_target_inv ids blocks Hlabels Hnd v body Hg)
    as (n & b & -> & Hb & ->).
  destruct (Machine.exec_body ext code b.2 r) as [r1|r1|r1| |] eqn:He;
    try done.
  - apply IH.
  - intros [= <- <-]. destruct (block_returns n b r r1 Hb He) as [-> ->].
    split; [exact Hf|apply last_snoc].
Qed.

Lemma run_switch_halted (fuel : nat) :
  ∀ r trace t f,
    Machine.run_switch ext code ids blocks fuel r trace = Machine.Halted t f →
    Machine.fetch code f = Some 0 ∧ last t = Some f.
Proof.
  induction fuel as [|fuel IH]; intros r trace t f; simpl; [done|].
  destruct (Machine.fetch code (Machine.ip r)) as [v|] eqn:Hf; [|done].
  destruct (Machine.switch_target ids blocks v) as [body|] eqn:Hg; [|apply IH].
  destruct (switch_target_inv ids blocks v body Hlabels Hnd Hg)
    as (n & b & -> & Hb & ->).
  destruct (Machine.exec_body ext code b.2 r) as [r1|r1|r1| |] eqn:He;
    try done.
  - apply IH.
  - intros [= <- <-]. destruct (block_returns n b r r1 Hb He) as [-> ->].
    split; [exact Hf|apply last_snoc].
Qed.

End Runs.

Lemma halt_is_first (ids : list string) :
  opcode_ids opcodes = Some ids → ids !! 0%nat = Some "halt".
Proof.
  intros Hids.
  destruct (opcode_ids_lookup ids 0 (Op "" "halt" "" 0) Hids eq_refl)
    as (a & Ha & Hg).
  rewrite Ha. f_equal. vm_compute in Hg. congruence.
Qed.

(** X10. A generated function returns only from the handler of [halt], the
    opcode of value 0: the word at the final instruction pointer is 0 and
    it is the last one decoded. *)
Theorem return_only_at_halt {S : Type}
    (ext : string → list Z → option (list Z) → Z → S → option (Z * S))
    (code : list Z) (fuel : nat) (s0 : S) (t : list Z) (f : Z) :
  dispatch_labels ext code fuel s0 = Machine.Halted t f ∨
  dispatch_switch ext code fuel s0 = Machine.Halted t f ∨
  disassemble_labels code fuel = Machine.Halted t f ∨
  disassemble_switch code fuel = Machine.Halted t f →
  Machine.fetch code f = Some 0 ∧ last t = Some f.
Proof.
  destruct generation_succeeds as
    (ids & lb & sb & dl & ds & Hids & Hlb & Hsb & Hdl & Hds & Hnd &
     Llb & Lsb & Ldl & Lds & _).
  pose proof (halt_is_first ids Hids) as Hh.
  unfold dispatch_labels, dispatch_switch, disassemble_labels,
    disassemble_switch.
  rewrite Hids, Hlb, Hsb, Hdl, Hds.
  intros [H|[H|[H|H]]].
  - refine (run_labels_halted ext code ids lb Llb Hnd Hh _ fuel _ _ t f H).
    apply (mapM_Forall _ _ _ _ Hlb). intros o b Hb r r'.
    by apply (dispatch_handler_return ext code GotoNext o).
  - refine (run_switch_halted ext code ids sb Lsb Hnd Hh _ fuel _ _ t f H).
    apply (mapM_Forall _ _ _ _ Hsb). intros o b Hb r r'.
    by apply (dispatch_handler_return ext code Break o).
  - refine (run_labels_halted no_ext code ids dl Ldl Hnd Hh _ fuel _ _ t f H).
    apply (mapM_Forall _ _ _ _ Hdl). intros o b Hb r r'.
    by apply (disassemble_handler_return code GotoNext o).
  - refine (run_switch_halted no_ext code ids ds Lds Hnd Hh _ fuel _ _ t f H).
    apply (mapM_Forall _ _ _ _ Hds). intros o b Hb r r'.
    by apply (disassemble_handler_return code Break o).
Qed.

Lemma return_only_at_halt_witness :
  dispatch_labels (S := unit) inert_ext [2; 7; 0] 5 () = Machine.Halted [0; 2] 2 ∧
  Machine.fetch [2; 7; 0] 2 = Some 0 ∧ last [0; 2] = Some 2.
Proof.
  assert (H : dispatch_labels (S := unit) inert_ext [2; 7; 0] 5 ()
              = Machine.Halted [0; 2] 2) by (vm_compute; reflexivity).
  split; [exact H|].
  exact (return_only_at_halt inert_ext [2; 7; 0] 5 () [0; 2] 2 (or_introl H)).
Defined.

(** ** Termination of the disassembler *)

Lemma o3_bounds_check : forallb (fun o => (0 <=? o3 o) && (o3 o <=? 11)) opcodes = true.
Proof. vm_compute. reflexivity. Qed.

Lemma o3_bounds (o : opcode) : o ∈ opcodes → 0 ≤ o3 o ≤ 11.
Proof.
  intros Ho. pose proof (forallb_elem_of _ _ _ o3_bounds_check Ho) as H.
  simpl in H. lia.
Qed.

Lemma wrap_small (x : Z) : 0 ≤ x < 2 ^ 64 → Machine.wrap x = x.
Proof. intros H. unfold Machine.wrap. by apply Z.mod_small. Qed.

Lemma fetch_elem (code : list Z) (i w : Z) :
  Machine.fetch code i = Some w →
  w ∈ code ∧ 0 ≤ i < Z.of_nat (length code).
Proof.
  unfold Machine.fetch. destruct (Z.ltb_spec i 0) as [|Hi]; [done|].
  intros Hl. split; [by eapply list_elem_of_lookup_2|].
  apply lookup_lt_Some in Hl. lia.
Qed.

(** A handler of the disassembler other than [halt] moves the instruction
    pointer forward. *)
Lemma disassemble_handler_advances (code : list Z) (next : cstmt) (o : opcode)
    (b : block) (r r' : Machine.regs unit) :
  Forall (fun w => 0 ≤ w < 2 ^ 64) code →
  Z.of_nat (length code) < 2 ^ 63 →
  o ∈ opcodes → is_next next = true → disassemble_handler next o = Some b →
  0 ≤ Machine.ip r < Z.of_nat (length code) →
  Machine.exec_body no_ext code b.2 r = Machine.Dispatch r' →
  Machine.ip r < Machine.ip r'.
Proof.
  intros Hw Hlen Ho Hn Hb Hip. pose proof (o3_bounds o Ho) as Ho3.
  unfold disassemble_handler in Hb.
  destruct (get_opcode (o1 o) (o2 o)) as [oc|]; [|done]. simpl in Hb.
  destruct (String.eqb oc "halt"); injection Hb as <-; [done|].
  destruct r as [ip p []]. cbn [snd Machine.ip] in *.
  assert (Hw1 : Machine.wrap (ip + (o3 o + 1)) = ip + (o3 o + 1))
    by (apply wrap_small; lia).
  destruct (String.eqb oc "call"); cbn; rewrite Hw1;
    (destruct (mapM _ _); [|done]).
  - destruct (Machine.fetch code (ip + o3 o)) as [w|] eqn:Hf; [|done].
    destruct (Machine.dis_code_defined _ _ _); [|done]. cbn. rewrite Hf.
    apply fetch_elem in Hf as [Hin _].
    pose proof (proj1 (Forall_forall _ _) Hw w Hin) as Hb. cbv beta in Hb.
    rewrite Z.shiftr_div_pow2 by lia. change (2 ^ 2) with 4.
    assert (0 ≤ w / 4 < 2 ^ 62)
      by (split; [apply Z.div_pos; lia | apply Z.div_lt_upper_bound; lia]).
    rewrite wrap_small by lia.
    destruct next; try discriminate Hn; intros [= <-]; cbn; lia.
  - destruct next; try discriminate Hn; intros [= <-]; cbn; lia.
Qed.

Section Progress.
Variable code : list Z.
Variable ids : list string.
Variable blocks : list block.
Hypothesis Hlabels : fst <$> blocks = ids.
Hypothesis Hnd : NoDup ids.
Hypothesis Hadv :
  Forall (fun b : block => ∀ r r',
            0 ≤ Machine.ip r < Z.of_nat (length code) →
            Machine.exec_body no_ext code b.2 r = Machine.Dispatch r' →
            Machine.ip r < Machine.ip r') blocks.

Lemma run_labels_terminates (fuel : nat) :
  ∀ r trace t,
    0 ≤ Machine.ip r →
    (Z.to_nat (Z.of_nat (length code) - Machine.ip r) < fuel)%nat →
    Machine.run_labels no_ext code ids blocks fuel r trace ≠ Machine.OutOfFuel t.
Proof.
  induction fuel as [|fuel IH]; intros r trace t Hip Hfuel; [lia|]. simpl.
  destruct (Machine.fetch code (Machine.ip r)) as [v|] eqn:Hf; [|done].
  apply fetch_elem in Hf as [_ Hlt].
  destruct (Machine.goto_target ids blocks v) as [body|] eqn:Hg; [|done].
  destruct (goto_target_inv ids blocks Hlabels Hnd v body Hg)
    as (n & b & -> & Hb & ->).
  pose proof (proj1 (Forall_lookup _ _) Hadv n b Hb r) as Ha.
  destruct (Machine.exec_body no_ext code b.2 r) as [r1|r1|r1| |]; try done.
  specialize (Ha r1 Hlt eq_refl). apply IH; lia.
Qed.
End Progress.

(** X12. On a stream of 64-bit words shorter than 2^63 the label-threaded
    disassembler stops within one iteration per word: it returns at a
    [halt] or reads outside the stream or the label table, and never
    loops. *)
Theorem disassembler_terminates (code : list Z) (fuel : nat) (t : list Z) :
  Forall (fun w => 0 ≤ w < 2 ^ 64) code →
  Z.of_nat (length code) < 2 ^ 63 →
  (length code < fuel)%nat →
  disassemble_labels code fuel ≠ Machine.OutOfFuel t.
Proof.
  intros Hw Hlen Hfuel.
  destruct generation_succeeds as
    (ids & lb & sb & dl & ds & Hids & Hlb & Hsb & Hdl & Hds & Hnd &
     Llb & Lsb & Ldl & Lds & _).
  unfold disassemble_labels. rewrite Hids, Hdl.
  apply (run_labels_terminates code ids dl Ldl Hnd); [|simpl; lia|simpl; lia].
  pose proof Hdl as Hdl'. apply mapM_Some in Hdl'.
  apply Forall_lookup. intros n b Hb r r' Hip.
  destruct (Forall2_lookup_r _ _ _ _ _ Hdl' Hb) as (o & Ho & Hh).
  apply (disassemble_handler_advances code GotoNext o b r r' Hw Hlen);
    [by eapply list_elem_of_lookup_2|reflexivity|exact Hh|exact Hip].
Qed.

Lemma disassembler_terminates_witness :
  disassemble_labels [15; 7; 16; 1; 1; 1; 0; 0] 9 ≠ Machine.OutOfFuel [0].
Proof.
  apply (disassembler_terminates [15; 7; 16; 1; 1; 1; 0; 0] 9 [0]).
  - repeat constructor; lia.
  - simpl. lia.
  - simpl. lia.
Defined.

(** ** [reflow_lines]: what the lines are made of *)

Lemma reflow_loop_length (fuel : nat) :
  ∀ st ls, reflow_loop fuel st = Some ls → (length (lines st) < length ls)%nat.
Proof.
  induction fuel as [|fuel IH]; intros st ls; simpl;
    destruct (size st <? Py.len (cur st)); try discriminate;
    try (intros [= <-]; rewrite length_app; simpl; lia).
  intros H%IH. unfold reflow_step in H. cbn [lines] in H.
  destruct (if Z.of_nat _ =? 1 then _ else _) in H. cbn [lines] in H.
  rewrite length_app in H. simpl in H. lia.
Qed.

(** X13. One line comes out exactly when the text is not longer than the
    width; it is then the text itself. *)
Theorem reflow_lines_single (s x : string) (depth : Z) (fuel : nat) :
  reflow_lines fuel s depth = Some [x] ↔
  x = s ∧ Py.len s ≤ MAX_COL - depth * TABSIZE.
Proof.
  unfold reflow_lines.
  destruct (Z.ltb_spec (Py.len s) (MAX_COL - depth * TABSIZE)) as [Hlt|Hge].
  - split; [intros [= <-]; split; [done|lia] | by intros [-> _]].
  - split.
    + intros H. destruct fuel as [|fuel]; simpl in H;
        destruct (Z.ltb_spec (MAX_COL - depth * TABSIZE) (Py.len s));
        try discriminate;
        try (injection H as <-; split; [done|lia]).
      apply reflow_loop_length in H. unfold reflow_step in H.
      cbn [lines] in H. destruct (if Z.of_nat _ =? 1 then _ else _) in H.
      cbn [lines] in H. simpl in H. lia.
    + intros [-> Hle]. destruct fuel; simpl;
        (destruct (Z.ltb_spec (MAX_COL - depth * TABSIZE) (Py.len s)); [lia|]);
        reflexivity.
Qed.

Lemma rfind_is_index (s : string) (c : ascii) (b : Z) :
  Py.rfind s c 0 b ≠ -1 →
  0 ≤ Py.rfind s c 0 b < Py.len s ∧ Py.get s (Py.rfind s c 0 b) = Some c.
Proof.
  unfold Py.rfind. pose proof (len_nonneg s) as Hn.
  rewrite (norm_0 _ Hn). intros Hr.
  destruct (rfind_list_found c _ 0 ltac:(lia) Hr) as (n & -> & Hl & _).
  unfold Py.window in Hl. rewrite (norm_0 _ Hn) in Hl.
  change (Z.to_nat 0) with 0%nat in Hl. rewrite drop_0 in Hl.
  apply lookup_take_Some in Hl as [Hl _].
  pose proof (lookup_lt_Some _ _ _ Hl) as Hlt. rewrite length_chars in Hlt.
  unfold Py.len. split; [lia|].
  rewrite get_nonneg by lia. rewrite Z.add_0_l, Nat2Z.id. exact Hl.
Qed.

(** With a space in the text the candidate is the index of a space. *)
Lemma break_candidate_space (cur : string) (size : Z) :
  space ∈ chars cur →
  0 ≤ break_candidate cur size < Py.len cur ∧
  Py.get cur (break_candidate cur size) = Some space.
Proof.
  intros Hsp. unfold break_candidate.
  destruct (Z.eqb_spec (Py.rfind cur space 0 size) (-1)) as [_|Hr].
  - assert (Hf : Py.find0 cur space ≠ -1)
      by (intros Hf%find0_none; contradiction).
    destruct (find0_found cur space Hf) as (? & ? & _). done.
  - by apply rfind_is_index.
Qed.

(** A text is its part before an index, the character there and the
    rest. *)
Lemma slice_get_slice_from (s : string) (i : Z) (c : ascii) :
  0 ≤ i < Py.len s → Py.get s i = Some c →
  s = Py.slice s 0 i +:+ String c (Py.slice_from s (i + 1)).
Proof.
  intros Hi Hg. apply chars_inj. rewrite chars_append. simpl.
  unfold Py.slice_from. rewrite !chars_slice, window_0 by lia.
  rewrite get_nonneg in Hg by lia.
  unfold Py.window, Py.norm.
  destruct (Z.ltb_spec (i + 1) 0); [lia|].
  destruct (Z.ltb_spec (Py.len s) 0); [lia|].
  rewrite Z.min_id, (Z.min_l (i + 1)) by lia.
  replace (Z.to_nat (i + 1)) with (S (Z.to_nat i)) by lia.
  rewrite (take_ge (drop _ _)).
  - symmetry. by apply take_drop_middle.
  - pose proof (length_drop (chars s) (S (Z.to_nat i))) as Hd.
    rewrite length_chars in Hd. unfold Py.len. lia.
Qed.

Lemma find_slice (s : string) (c : ascii) (i : Z) :
  0 ≤ i ≤ Py.len s → Py.find s c 0 i = Py.find0 (Py.slice s 0 i) c.
Proof.
  intros Hi. unfold Py.find0, Py.find.
  rewrite window_full, chars_slice.
  rewrite !norm_0 by apply len_nonneg. reflexivity.
Qed.

Lemma join_cons (sep x : string) (l : list string) :
  l ≠ [] → Py.join sep (x :: l) = x +:+ sep +:+ Py.join sep l.
Proof. by destruct l. Qed.

(** After the first line the loop cuts the rest of the text at spaces and
    puts the same padding before each part. *)
Lemma reflow_loop_pieces (fuel : nat) :
  ∀ st ls,
    lines st ≠ [] → dquote ∉ chars (cur st) →
    reflow_loop fuel st = Some ls →
    ∃ pieces,
      pieces ≠ [] ∧ cur st = Py.join " " pieces ∧
      ls = lines st ++ ((fun l => padding st +:+ l) <$> pieces).
Proof.
  induction fuel as [|fuel IH]; intros st ls Hne Hq Hloop;
    pose proof Hloop as Hloop'; simpl in Hloop';
    destruct (Z.ltb_spec (size st) (Py.len (cur st))) as [Hlt|Hge];
    try discriminate;
    try (injection Hloop' as <-; exists [cur st]; by repeat split).
  assert (Hsp : space ∈ chars (cur st)).
  { destruct (decide (space ∈ chars (cur st))) as [|Hn]; [done|].
    rewrite (reflow_loop_stuck _ st Hn Hq Hlt) in Hloop. discriminate. }
  assert (Hi : break_index (cur st) (size st)
               = break_candidate (cur st) (size st)).
  { unfold break_index. by rewrite (count_slice_notin _ _ _ _ Hq). }
  destruct (break_candidate_space (cur st) (size st) Hsp) as [Hc Hg].
  rewrite <- Hi in Hc, Hg.
  assert (Hstep : reflow_step st =
            Reflow (lines st ++ [padding st +:+
                                 Py.slice (cur st) 0 (break_index (cur st) (size st))])
                   (Py.slice_from (cur st) (break_index (cur st) (size st) + 1))
                   (size st) (padding st)).
  { unfold reflow_step.
    replace (Z.of_nat (length (lines st ++ _)) =? 1) with false; [done|].
    symmetry. apply Z.eqb_neq. rewrite length_app. simpl length.
    destruct (lines st); [done|]. simpl. lia. }
  rewrite Hstep in Hloop'.
  apply IH in Hloop' as (pieces & Hpne & Hcur & ->); cbn [lines cur padding].
  - cbn [lines cur padding] in *.
    exists (Py.slice (cur st) 0 (break_index (cur st) (size st)) :: pieces).
    split; [done|]. split.
    + rewrite (join_cons _ _ _ Hpne), <- Hcur.
      exact (slice_get_slice_from _ _ _ Hc Hg).
    + by rewrite <- app_assoc.
  - by destruct (lines st).
  - intros Hin. apply Hq. unfold Py.slice_from in Hin.
    rewrite chars_slice in Hin. by apply window_subseteq in Hin.
Qed.

(** X14. A text without double quote is cut at spaces and nowhere else:
    joining the lines with one space, the padding left out, gives the text
    back; the padding of the lines after the first is the one the docstring
    describes. *)
Theorem reflow_lines_rejoin (s : string) (depth : Z) (fuel : nat)
    (ls : list string) :
  Py.count s dquote = 0 →
  reflow_lines fuel s depth = Some ls →
  ∃ first rest,
    ls = first :: ((fun l => continuation_padding first +:+ l) <$> rest) ∧
    Py.join " " (first :: rest) = s.
Proof.
  intros Hq0 Hr.
  assert (Hq : dquote ∉ chars s) by (intros Hin%count_elem; lia).
  unfold reflow_lines in Hr.
  destruct (Z.ltb_spec (Py.len s) (MAX_COL - depth * TABSIZE)) as [Hlt|Hge].
  { injection Hr as <-. by exists s, []. }
  destruct fuel as [|fuel]; simpl in Hr;
    destruct (Z.ltb_spec (MAX_COL - depth * TABSIZE) (Py.len s)) as [Hl|Hl];
    try discriminate;
    try (injection Hr as <-; by exists s, []).
  set (st := Reflow [] s (MAX_COL - depth * TABSIZE) "") in *.
  assert (Hsp : space ∈ chars s).
  { destruct (decide (space ∈ chars s)) as [|Hn]; [done|].
    pose proof (reflow_loop_stuck (S fuel) st Hn Hq Hl) as Hs.
    simpl in Hs. destruct (Z.ltb_spec (MAX_COL - depth * TABSIZE) (Py.len s));
      [|lia]. rewrite Hs in Hr. discriminate. }
  assert (Hi : break_index s (size st) = break_candidate s (size st)).
  { unfold break_index. by rewrite (count_slice_notin _ _ _ _ Hq). }
  destruct (break_candidate_space s (size st) Hsp) as [Hc Hg].
  rewrite <- Hi in Hc, Hg.
  set (i := break_index s (size st)) in *.
  assert (Hstep : ∃ sz, reflow_step st =
            Reflow [Py.slice s 0 i] (Py.slice_from s (i + 1)) sz
                   (continuation_padding (Py.slice s 0 i))).
  { unfold reflow_step, continuation_padding. cbn [lines cur size padding st].
    fold st. fold i. change (Z.of_nat (length ([] ++ _)) =? 1) with true.
    cbv iota. rewrite !(find_slice s _ i) by lia.
    destruct (0 <=? Py.find0 (Py.slice s 0 i) lbrace); [by eexists|].
    destruct (0 <=? Py.find0 (Py.slice s 0 i) lparen); by eexists. }
  destruct Hstep as [sz Hstep]. rewrite Hstep in Hr.
  apply reflow_loop_pieces in Hr as (pieces & Hpne & Hcur & ->);
    cbn [lines cur padding] in *.
  - exists (Py.slice s 0 i), pieces. split; [done|].
    rewrite (join_cons _ _ _ Hpne), <- Hcur. symmetry.
    exact (slice_get_slice_from _ _ _ Hc Hg).
  - done.
  - intros Hin. apply Hq. unfold Py.slice_from in Hin.
    rewrite chars_slice in Hin. by apply window_subseteq in Hin.
Qed.

Lemma reflow_lines_rejoin_witness :
  ∃ first rest,
    [ "enum class vvm_types: uint64_t { i64s, i64v, f64s, f64v, b8s, b8v, Ss, Sv,";
      "                                 c8s, c8v };" ]
    = first :: ((fun l => continuation_padding first +:+ l) <$> rest) ∧
    Py.join " " (first :: rest)
    = "enum class vvm_types: uint64_t { i64s, i64v, f64s, f64v, b8s, b8v, Ss, Sv, c8s, c8v };".
Proof.
  apply (reflow_lines_rejoin _ 1 5); reflexivity.
Defined.

(** ** [reflow_lines]: termination *)

Lemma len_slice_from (s : string) (a : Z) :
  0 ≤ a → Py.len (Py.slice_from s a) = Z.max 0 (Py.len s - a).
Proof.
  intros Ha. unfold Py.len at 1.
  rewrite <- length_chars. unfold Py.slice_from. rewrite chars_slice.
  unfold Py.window, Py.norm. pose proof (len_nonneg s).
  destruct (Z.ltb_spec a 0); [lia|].
  destruct (Z.ltb_spec (Py.len s) 0); [lia|].
  rewrite length_take, length_drop, length_chars. unfold Py.len in *. lia.
Qed.

(** A break in the budget leaves less text. *)
Lemma break_in_budget_shrinks (st : reflow_state) :
  break_in_budget st = true →
  Py.len (cur (reflow_step st)) < Py.len (cur st).
Proof.
  intros [Hf%negb_true_iff%Z.eqb_neq Hi%Z.leb_le]%andb_prop.
  destruct (rfind_is_index _ _ _ Hf) as [Hlen _].
  unfold reflow_step.
  destruct (if Z.of_nat _ =? 1 then _ else _). cbn [cur].
  rewrite len_slice_from by lia. lia.
Qed.

Lemma reflow_loop_terminates (fuel : nat) :
  ∀ st, breaks_in_budget fuel st = true →
        (Z.to_nat (Py.len (cur st)) < fuel)%nat →
        is_Some (reflow_loop fuel st).
Proof.
  induction fuel as [|fuel IH]; intros st Hb Hfuel; [lia|].
  simpl in *. destruct (size st <? Py.len (cur st)); [|eauto].
  apply andb_prop in Hb as [Hb1 Hb2].
  apply IH; [exact Hb2|].
  pose proof (break_in_budget_shrinks st Hb1).
  pose proof (len_nonneg (cur (reflow_step st))). lia.
Qed.

(** X15. As long as every break is taken at a space below the width and
    does not end up before the text, the loop ends within one
    iteration per character, and the lines fit. *)
Theorem reflow_lines_terminates (s : string) (depth : Z) (fuel : nat) :
  0 ≤ depth → depth * TABSIZE ≤ MAX_COL →
  breaks_in_budget fuel (Reflow [] s (MAX_COL - depth * TABSIZE) "") = true →
  (Z.to_nat (Py.len s) < fuel)%nat →
  ∃ ls, reflow_lines fuel s depth = Some ls ∧
        Forall (fun l => Py.len (Py.spaces (TABSIZE * depth) +:+ l) ≤ MAX_COL) ls.
Proof.
  intros Hd Hw Hb Hfuel.
  assert (Hfit : ∀ ls, Forall (fun l => Py.len l ≤ MAX_COL - depth * TABSIZE) ls →
                 Forall (fun l => Py.len (Py.spaces (TABSIZE * depth) +:+ l)
                                  ≤ MAX_COL) ls).
  { intros ls Hls. eapply Forall_impl; [exact Hls|]. intros l Hl. cbv beta in Hl.
    rewrite len_append, len_spaces by (unfold TABSIZE; lia).
    unfold TABSIZE in *. lia. }
  unfold reflow_lines.
  destruct (Z.ltb_spec (Py.len s) (MAX_COL - depth * TABSIZE)) as [Hlt|Hge].
  - exists [s]. split; [done|]. apply Hfit. constructor; [lia|constructor].
  - destruct (reflow_loop_terminates fuel _ Hb Hfuel) as [ls Hls].
    assert (Hinv : reflow_inv (MAX_COL - depth * TABSIZE)
                     (Reflow [] s (MAX_COL - depth * TABSIZE) "")).
    { unfold reflow_inv. cbn [lines cur size padding].
      change (Py.len "") with 0. repeat split; try lia; try done. }
    exists ls. split; [exact Hls|]. apply Hfit.
    apply (reflow_loop_fits (MAX_COL - depth * TABSIZE) fuel _ ls Hinv Hb Hls).
Qed.

Lemma reflow_lines_terminates_witness :
  ∃ ls,
    reflow_lines 100
      "enum class vvm_types: uint64_t { i64s, i64v, f64s, f64v, b8s, b8v, Ss, Sv, c8s, c8v };"
      1 = Some ls ∧
    Forall (fun l => Py.len (Py.spaces (TABSIZE * 1) +:+ l) ≤ MAX_COL) ls.
Proof.
  apply (reflow_lines_terminates _ 1 100);
    [lia | unfold TABSIZE, MAX_COL; lia | reflexivity | vm_compute; lia].
Defined.

(** ** [reflow_lines]: a first word wider than the line *)

Lemma find_list_app (c : ascii) (l1 l2 : list ascii) (k : Z) :
  c ∉ l1 → Py.find_list c (l1 ++ c :: l2) k = k + Z.of_nat (length l1).
Proof.
  revert k. induction l1 as [|x l1 IH]; intros k Hc; simpl.
  - rewrite Ascii.eqb_refl. lia.
  - apply not_elem_of_cons in Hc as [Hne Hc].
    destruct (Ascii.eqb_spec x c); [congruence|]. rewrite IH by done. lia.
Qed.

(** The text [w +:+ " " +:+ rest] around the end of its first word [w]. *)
Lemma slice_first_word (w rest : string) :
  Py.slice (w +:+ " " +:+ rest) 0 (Py.len w) = w ∧
  Py.slice_from (w +:+ " " +:+ rest) (Py.len w + 1) = rest.
Proof.
  pose proof (len_nonneg w) as Hw. pose proof (len_nonneg rest) as Hr.
  assert (Hlen : Py.len (w +:+ " " +:+ rest) = Py.len w + 1 + Py.len rest).
  { rewrite !len_append. change (Py.len " ") with 1. lia. }
  split; apply chars_inj.
  - rewrite chars_slice, window_0, chars_append by done.
    apply take_app_length'. rewrite length_chars. unfold Py.len. lia.
  - unfold Py.slice_from. rewrite chars_slice. unfold Py.window, Py.norm.
    rewrite Hlen.
    destruct (Z.ltb_spec (Py.len w + 1) 0); [lia|].
    destruct (Z.ltb_spec (Py.len w + 1 + Py.len rest) 0); [lia|].
    rewrite Z.min_id, Z.min_l by lia.
    rewrite !chars_append. change (chars " ") with [space].
    rewrite app_assoc, drop_app_length'
      by (rewrite length_app, length_chars; unfold Py.len; simpl; lia).
    apply take_ge. rewrite length_chars. unfold Py.len in *. lia.
Qed.

Lemma break_first_word (w rest : string) (size : Z) :
  0 ≤ size < Py.len w → space ∉ chars w → dquote ∉ chars w →
  break_index (w +:+ " " +:+ rest) size = Py.len w.
Proof.
  intros Hs Hsp Hq.
  assert (Hc : break_candidate (w +:+ " " +:+ rest) size = Py.len w).
  { unfold break_candidate.
    assert (Hr : Py.rfind (w +:+ " " +:+ rest) space 0 size = -1).
    { unfold Py.rfind. rewrite window_0 by lia. apply rfind_list_notin.
      rewrite chars_append, take_app_le
        by (rewrite length_chars; unfold Py.len in Hs; lia).
      intros Hin. apply Hsp. by apply (subseteq_take (Z.to_nat size)). }
    rewrite Hr. change (-1 =? -1) with true. cbv iota.
    unfold Py.find0, Py.find.
    rewrite window_full, norm_0 by apply len_nonneg.
    rewrite chars_append. change (chars (" " +:+ rest)) with (space :: chars rest).
    rewrite find_list_app by done. rewrite length_chars. unfold Py.len. lia. }
  unfold break_index. rewrite Hc, (proj1 (slice_first_word w rest)).
  by rewrite (count_zero _ _ Hq).
Qed.

(** C9, the defect. The docstring of [reflow_lines] has no line go beyond
    [MAX_COL].  Yet a first word wider than the line comes back whole: with
    no space below the width the break is taken at the first space of the
    text, beyond the width.  And the quotation check (the XXX comment)
    misses two adjacent quotes: from the space at index 77 the break moves
    to index 71, the closing quote of the literal before, which is
    dropped, and the first line ends inside that literal, with one quote
    in it. *)
Theorem reflow_lines_overflows :
  (∀ (w rest : string) (depth : Z) (fuel : nat),
     0 ≤ depth → depth * TABSIZE ≤ MAX_COL →
     space ∉ chars w → dquote ∉ chars w →
     lbrace ∉ chars w → lparen ∉ chars w →
     MAX_COL - depth * TABSIZE < Py.len w →
     Py.len rest ≤ MAX_COL - depth * TABSIZE →
     reflow_lines (S fuel) (w +:+ " " +:+ rest) depth = Some [w; rest] ∧
     MAX_COL < Py.len (Py.spaces (TABSIZE * depth) +:+ w)) ∧
  let q := String dquote "" in
  let open70 := q +:+ String.string_of_list_ascii (replicate 70 "a"%char) in
  let s := open70 +:+ q +:+ q +:+ "cccc dddddd" +:+ q in
  break_candidate s MAX_COL = 77 ∧ Py.get s 77 = Some space ∧
  break_index s MAX_COL = 71 ∧ Py.get s 71 = Some dquote ∧
  Py.slice s 0 71 = open70 ∧ Py.count open70 dquote = 1 ∧
  reflow_lines 10 s 0 = Some [open70; q +:+ "cccc dddddd" +:+ q].
Proof.
  split; [|repeat split; vm_compute; reflexivity].
  intros w rest depth fuel Hd0 Hd1 Hsp Hq Hlb Hlp Hw Hrest.
  pose proof (len_nonneg rest) as Hr0.
  destruct (slice_first_word w rest) as [Hsl Hsf].
  assert (Hlen : Py.len (w +:+ " " +:+ rest) = Py.len w + 1 + Py.len rest).
  { rewrite !len_append. change (Py.len " ") with 1. lia. }
  split.
  - unfold reflow_lines. rewrite Hlen.
    destruct (Z.ltb_spec (Py.len w + 1 + Py.len rest)
                (MAX_COL - depth * TABSIZE)) as [Hlt|_]; [lia|].
    cbn [reflow_loop size cur]. rewrite Hlen.
    destruct (Z.ltb_spec (MAX_COL - depth * TABSIZE)
                (Py.len w + 1 + Py.len rest)) as [_|Hge]; [|lia].
    assert (Hstep : reflow_step (Reflow [] (w +:+ " " +:+ rest)
                                   (MAX_COL - depth * TABSIZE) "")
                    = Reflow [w] rest (MAX_COL - depth * TABSIZE) "").
    { unfold reflow_step. cbn [lines cur size padding].
      rewrite (break_first_word w rest) by (done || lia).
      rewrite Hsl, Hsf.
      change (Z.of_nat (length ([] ++ ["" +:+ w])) =? 1) with true. cbv iota.
      rewrite !(find_slice _ _ (Py.len w))
        by (rewrite Hlen; pose proof (len_nonneg w); lia).
      rewrite Hsl. unfold Py.find0.
      rewrite (find_notin _ _ _ _ Hlb), (find_notin _ _ _ _ Hlp).
      reflexivity. }
    rewrite Hstep.
    destruct fuel; cbn [reflow_loop size cur lines padding];
      (destruct (Z.ltb_spec (MAX_COL - depth * TABSIZE) (Py.len rest)); [lia|]);
      reflexivity.
  - rewrite len_append, len_spaces by (unfold TABSIZE; lia).
    unfold TABSIZE in *. lia.
Qed.

Lemma reflow_lines_overflows_witness :
  let long := String.string_of_list_ascii (replicate 85 "a"%char) in
  reflow_lines 1 (long +:+ " " +:+ "bbbbb") 0 = Some [long; "bbbbb"] ∧
  MAX_COL < Py.len (Py.spaces (TABSIZE * 0) +:+ long).
Proof.
  apply (proj1 reflow_lines_overflows
           (String.string_of_list_ascii (replicate 85 "a"%char)) "bbbbb" 0 0%nat);
    try (vm_compute; (lia || discriminate || reflexivity));
    apply (bool_decide_unpack _); vm_compute; exact I.
Defined.

(** ** The headers written by [main] *)

Lemma headers_check :
  forallb (fun h : string * option (list (string * Z)) =>
             if String.eqb h.1 "builtins.h"
             then header_check 500 (MAX_COL + 5) h &&
                  negb (header_check 500 (MAX_COL + 4) h)
             else header_check 500 (MAX_COL + 1) h)
          writers = true.
Proof. vm_compute. reflexivity. Qed.

(** X16. Whatever the path of the script, every writer that [main] runs
    ends, without exception, and its file is, in this order: the banner,
    which names the last two components of the path and is written as it
    is, not reflowed, 41 characters and these components long; the pragma;
    the lines of the [emit] calls of [run].  Except in builtins.h none of
    these emitted lines goes beyond column [MAX_COL]; in builtins.h they
    reach column [MAX_COL + 4]. *)
Theorem headers_written (sep argv0 f : string) (w : option (list string)) :
  sep ≠ "" →
  (f, w) ∈ main 500 sep argv0 →
  auto_gen_msg sep argv0
    = "/* File automatically generated by "
      +:+ Py.join sep (last_two (Py.split argv0 sep))
      +:+ ". */" +:+ newline +:+ newline ∧
  Py.len (auto_gen_msg sep argv0)
    = Py.len (Py.join sep (last_two (Py.split argv0 sep))) + 41 ∧
  ∃ ls,
    w = Some (auto_gen_msg sep argv0
              :: ("#pragma once" +:+ newline +:+ newline) :: ls) ∧
    if String.eqb f "builtins.h"
    then Forall (fun l => Py.len l ≤ MAX_COL + 5) ls ∧
         ∃ l, l ∈ ls ∧ Py.len l = MAX_COL + 5
    else Forall (fun l => Py.len l ≤ MAX_COL + 1) ls.
Proof.
  intros _ Hin.
  assert (Hmsg : auto_gen_msg sep argv0
                 = "/* File automatically generated by "
                   +:+ Py.join sep (last_two (Py.split argv0 sep))
                   +:+ ". */" +:+ newline +:+ newline) by reflexivity.
  split; [exact Hmsg|]. split.
  { rewrite Hmsg, !len_append.
    change (Py.len "/* File automatically generated by ") with 35.
    change (Py.len ". */") with 4. change (Py.len newline) with 1. lia. }
  unfold main in Hin. apply list_elem_of_fmap in Hin as ([f' r] & Heq & Hin).
  cbn [fst snd] in Heq. injection Heq as -> ->.
  pose proof (forallb_elem_of _ _ _ headers_check Hin) as H.
  cbn [fst snd] in H. unfold header_check in H. cbn [fst snd] in H.
  unfold execute.
  destruct r as [calls|]; [|by destruct (String.eqb f' "builtins.h")].
  cbn [mbind option_bind].
  destruct (written 500 calls) as [ls|] eqn:Hwr;
    [|by destruct (String.eqb f' "builtins.h")].
  exists ls. split; [done|].
  assert (Hall : ∀ b, forallb (fun l => Py.len l <=? b) ls = true →
                      Forall (fun l => Py.len l ≤ b) ls).
  { intros b Hb. apply Forall_forall. intros l Hl.
    pose proof (forallb_elem_of _ _ _ Hb Hl) as Hle. simpl in Hle. lia. }
  destruct (String.eqb f' "builtins.h"); [|by apply Hall].
  apply andb_prop in H as [H1 H2]. pose proof (Hall _ H1) as HF.
  split; [exact HF|].
  apply negb_true_iff in H2.
  assert (He : ∃ l, l ∈ ls ∧ ¬ Py.len l ≤ MAX_COL + 4).
  { clear -H2. induction ls as [|l ls IH]; [discriminate|]. simpl in H2.
    destruct (Z.leb_spec (Py.len l) (MAX_COL + 4)) as [Hle|Hgt].
    - destruct (IH H2) as (l' & Hl' & Hn). exists l'. split; [by right|done].
    - exists l. split; [by left|lia]. }
  destruct He as (l & Hl & Hn). exists l. split; [exact Hl|].
  pose proof (proj1 (Forall_forall _ _) HF l Hl) as Hle. simpl in Hle. lia.
Qed.

Lemma headers_written_witness :
  auto_gen_msg "/" "/opt/empirical/src/VVM/gen_vvm.py"
    = "/* File automatically generated by VVM/gen_vvm.py. */"
      +:+ newline +:+ newline ∧
  ∃ ls,
    execute 500 (auto_gen_msg "/" "/opt/empirical/src/VVM/gen_vvm.py")
      (Some TypesWriter_run)
    = Some (auto_gen_msg "/" "/opt/empirical/src/VVM/gen_vvm.py"
            :: ("#pragma once" +:+ newline +:+ newline) :: ls) ∧
    Forall (fun l => Py.len l ≤ MAX_COL + 1) ls.
Proof.
  assert (Hs : "/" ≠ "") by discriminate.
  assert (H : ("types.h",
               execute 500 (auto_gen_msg "/" "/opt/empirical/src/VVM/gen_vvm.py")
                 (Some TypesWriter_run))
              ∈ main 500 "/" "/opt/empirical/src/VVM/gen_vvm.py") by (by left).
  destruct (headers_written _ _ _ _ Hs H) as (_ & _ & Hw).
  split; [reflexivity|exact Hw].
Defined.

(** ** The trait overrides in use *)

Lemma trait_overrides_check :
  forallb (fun ot : opcode * Z =>
             negb (bool_decide (o0 ot.1 ∈ ["load"; "store"; "unique"; "idx";
                                           "multidx"; "sort"])) &&
             (ot.2 =? (if String.eqb (o0 ot.1) "print" then Traits.none
                       else if String.eqb (o0 ot.1) "range"
                            then Z.lor Traits.all_traits Traits.autostream
                       else if String.eqb (o0 ot.1) "now" then Traits.io_traits
                       else Traits.all_traits)))
          Traits.builtins = true.
Proof. vm_compute. reflexivity. Qed.

(** X17. The traits are looked up by surface name, and no entry of the table
    has the surface name load, store, unique, idx, multidx or sort: of the
    nine overrides only those of print, range and now are ever stored, and
    every other builtin gets the default set. *)
Theorem trait_overrides_in_use (o : opcode) (t : Z) :
  (o, t) ∈ Traits.builtins →
  ¬ (o0 o ∈ ["load"; "store"; "unique"; "idx"; "multidx"; "sort"]) ∧
  t = (if String.eqb (o0 o) "print" then Traits.none
       else if String.eqb (o0 o) "range"
            then Z.lor Traits.all_traits Traits.autostream
       else if String.eqb (o0 o) "now" then Traits.io_traits
       else Traits.all_traits).
Proof.
  intros Hin.
  pose proof (forallb_elem_of _ _ _ trait_overrides_check Hin) as H.
  cbn [fst snd] in H. apply andb_prop in H as [H1 H2].
  apply negb_true_iff, bool_decide_eq_false in H1. apply Z.eqb_eq in H2.
  by split.
Qed.

Lemma trait_overrides_in_use_witness :
  (Op "range" "range" "Int64->[Int64]" 2, 15) ∈ Traits.builtins ∧
  15 = Z.lor Traits.all_traits Traits.autostream.
Proof.
  assert (H : (Op "range" "range" "Int64->[Int64]" 2, 15) ∈ Traits.builtins)
    by by_compute.
  split; [exact H|]. exact (proj2 (trait_overrides_in_use _ _ H)).
Defined.
